(** * fpl-transfer-suggester: feature table and ranking engine

    A shallow embedding of [data_pipeline/build_feature_table.py] and
    [data_pipeline/phase2_rank_players.py], and the properties of the
    temporal feature engineering and ranking core proved over it.

    Conventions of the embedding:
    - a Python [float] is an exact rational ([Q], compared with [==]); the
      development is about finite values, NaN and infinities are outside it;
    - a Python [int] is a [Z];
    - a Python [str] is a [string] whose characters are code points below 256;
    - a raised exception is the [Raise] branch of [result];
    - a nullable SQL column is an [option];
    - a [dict] is a [gmap], and a mutable object is a cell of a store;
    - the library functions [math.sqrt], [float] on strings, [str.upper] and
      [pd.to_datetime] are parameters of the definitions that call them,
      and [Examples] gives instances of them to run the definitions. *)

From Stdlib Require Import ZArith QArith Qround Qabs Lia Lqa.
From Stdlib Require Import Ascii String Permutation Sorted.
From stdpp Require Import base option list gmap strings.

Open Scope Q_scope.

(** ** Python primitives *)

Module Py.

Inductive exn : Type :=
| ValueError (msg : string)
| FileNotFoundError (msg : string)
| DatabaseError
| ZeroDivisionError.

Inductive result (A : Type) : Type :=
| Ok (a : A)
| Raise (e : exn).
Arguments Ok {A} a.
Arguments Raise {A} e.

Definition bind {A B : Type} (m : result A) (k : A -> result B) : result B :=
  match m with
  | Ok a => k a
  | Raise e => Raise e
  end.

(** [a < b], [a <= b] and [a == b] on floats. *)
Definition ltb (a b : Q) : bool := negb (Qle_bool b a).
Definition leb (a b : Q) : bool := Qle_bool a b.
Definition eqb (a b : Q) : bool := Qeq_bool a b.

(** The builtins [max(a, b)] and [min(a, b)]: the first argument is kept
    unless the second is strictly greater (smaller). *)
Definition max2 (a b : Q) : Q := if ltb a b then b else a.
Definition min2 (a b : Q) : Q := if ltb b a then b else a.

(** [a / b] on floats. *)
Definition truediv (a b : Q) : result Q :=
  if eqb b 0 then Raise ZeroDivisionError else Ok (a / b).

(** [sum(xs)] and [len(xs)]. *)
Definition sum (xs : list Q) : Q := foldl Qplus 0 xs.
Definition len {A : Type} (xs : list A) : Z := Z.of_nat (length xs).

(** [sum(1 for x in xs if p(x))]. *)
Definition count_if {A : Type} (p : A -> bool) (xs : list A) : Z :=
  foldl (fun acc x => if p x then (acc + 1)%Z else acc) 0%Z xs.

(** [xs[-n:]] for a positive [n]. *)
Definition last_n {A : Type} (n : Z) (xs : list A) : list A :=
  drop (length xs - Z.to_nat n) xs.

(** [xs[:n]] for a non-negative [n]. *)
Definition first_n {A : Type} (n : Z) (xs : list A) : list A :=
  take (Z.to_nat n) xs.

(** [xs[-1]] of a non-empty list. *)
Definition last_item {A : Type} (xs : list A) : option A := last xs.

(** A stable sort that, like [list.sort] and pandas' mergesort, only asks
    whether one element is strictly below another: an element is placed
    in front of the first element of the sorted rest that is not strictly
    below it, so equal elements keep their order. *)
Fixpoint insert_by {A : Type} (lt : A -> A -> bool) (x : A) (l : list A) : list A :=
  match l with
  | [] => [x]
  | y :: l' => if lt y x then y :: insert_by lt x l' else x :: y :: l'
  end.

Definition sort_by {A : Type} (lt : A -> A -> bool) (l : list A) : list A :=
  foldr (insert_by lt) [] l.

(** [x] may stand in front of [y] in a sorted list: [y] is not strictly
    below [x]. *)
Definition not_after {A : Type} (lt : A -> A -> bool) (x y : A) : Prop := lt y x = false.

(** [round(x, 6)]: the nearest multiple of 10^-6, a tie going to the even
    multiple. *)
Definition round_half_even (x : Q) : Z :=
  let f := Qfloor x in
  let r := x - inject_Z f in
  if ltb r (1 # 2) then f
  else if ltb (1 # 2) r then (f + 1)%Z
  else if Z.even f then f else (f + 1)%Z.

Definition round6 (x : Q) : Q :=
  inject_Z (round_half_even (x * 1000000)) / 1000000.

End Py.

Notation "'let*' x := m 'in' k" := (Py.bind m (fun x => k))
  (at level 10, x name, m at level 100, k at level 200).

Module PyLoops.
Import Py.

(** The list comprehension [[f(v) for v in values]] with a body that can
    raise. *)
Fixpoint comprehension {A B : Type} (f : A -> result B) (xs : list A) : result (list B) :=
  match xs with
  | [] => Ok []
  | x :: xs' =>
    let* y := f x in
    let* ys := comprehension f xs' in
    Ok (y :: ys)
  end.

(** A [for] loop whose body can raise, threading the state it updates. *)
Fixpoint for_each {S A : Type} (body : S -> A -> result S) (xs : list A) (s : S)
    : result S :=
  match xs with
  | [] => Ok s
  | x :: xs' =>
    let* s' := body s x in
    for_each body xs' s'
  end.

End PyLoops.

(** ** build_feature_table.py *)

Module BuildFeatureTable.
Import Py PyLoops.

Section Rolling.
(** [math.sqrt] on the rationals is a parameter of the statistics. *)
Variable sqrt : Q -> Q.

Definition rolling_mean (values : list Q) (n : Z) : result Q :=
  if (n <=? 0)%Z then Ok 0
  else
    let window := last_n n values in
    match window with
    | [] => Ok 0
    | _ => truediv (sum window) (inject_Z (len window))
    end.

Definition rolling_std (values : list Q) (n : Z) : result Q :=
  if (n <=? 0)%Z then Ok 0
  else
    let window := last_n n values in
    if (len window <=? 1)%Z then Ok 0
    else
      let* mean := truediv (sum window) (inject_Z (len window)) in
      let* variance := truediv (sum (map (fun x => (x - mean) * (x - mean)) window))
                          (inject_Z (len window)) in
      Ok (sqrt variance).
End Rolling.

Definition compute_benching_probability (last_minutes : list Q) : result Q :=
  match last_minutes with
  | [] => Ok 1
  | _ =>
    let n := inject_Z (len last_minutes) in
    let* start_rate := truediv (inject_Z (count_if (fun m => leb 60 m) last_minutes)) n in
    let* cameo_rate := truediv (inject_Z (count_if (fun m => ltb 0 m && ltb m 60) last_minutes)) n in
    let* dnp_rate := truediv (inject_Z (count_if (fun m => eqb m 0) last_minutes)) n in
    let bench_prob := (0.6 * dnp_rate) + (0.3 * cameo_rate) + (0.1 * (1 - start_rate)) in
    Ok (max2 0 (min2 1 bench_prob))
  end.

Definition compute_risk_score (benching_probability minutes_volatility_5 : Q)
    (injury_flag : Z) : Q :=
  let vol_component := max2 0 (min2 1 minutes_volatility_5) in
  let risk := (0.55 * benching_probability) + (0.30 * vol_component)
              + (0.15 * inject_Z injury_flag) in
  max2 0 (min2 1 risk).

(** *** Tables *)

(** A row of the query on [players] joined with [teams]. *)
Record PlayerRow : Type := mkPlayerRow {
  p_player_id : Z;
  p_player_name : string;
  p_team_id : Z;
  p_team : string;
  p_position : string;
  p_now_cost : Q;
  p_status : option string
}.

(** A row of the query on [fixtures]. *)
Record FixtureRow : Type := mkFixtureRow {
  f_fixture_id : Z;
  f_event : option Z;
  f_kickoff_time : option string;
  f_finished : option Z;
  f_team_h : Z;
  f_team_a : Z;
  f_team_h_difficulty : option Z;
  f_team_a_difficulty : option Z
}.

(** A row of the query on [gw_player_stats]. *)
Record StatsRow : Type := mkStatsRow {
  s_player_id : Z;
  s_fixture_id : Z;
  s_round : option Z;
  s_kickoff_time : option string;
  s_minutes : option Z;
  s_total_points : option Z;
  s_expected_goal_involvements : option Q;
  s_expected_goals : option Q;
  s_expected_assists : option Q;
  s_value : option Z
}.

Record Database : Type := mkDatabase {
  players : list PlayerRow;
  fixtures : list FixtureRow;
  gw_player_stats : list StatsRow
}.

(** A fixture seen from one of its two teams. A timestamp is a number of
    nanoseconds, [None] is [NaT]. *)
Record TeamFixture : Type := mkTeamFixture {
  tf_fixture_id : Z;
  tf_event : Z;
  tf_kickoff_time : option string;
  tf_finished : Z;
  tf_team_id : Z;
  tf_opponent_team_id : Z;
  tf_opponent_difficulty : Z;
  tf_is_home : Z;
  tf_kickoff_dt : option Z
}.

(** A row of [history] once its columns are filled and converted. *)
Record HistoryRow : Type := mkHistoryRow {
  hr_player_id : Z;
  hr_fixture_id : Z;
  hr_round : Z;
  hr_kickoff_dt : option Z;
  hr_minutes : Q;
  hr_total_points : Q;
  hr_xgi_proxy : Q;
  hr_price : Q
}.

(** An entry of [player_history]. *)
Record Match : Type := mkMatch {
  m_kickoff_dt : option Z;
  m_round : Z;
  m_minutes : Q;
  m_points : Q;
  m_xgi : Q;
  m_price : Q
}.

(** A row of the feature table. *)
Record FeatureRow : Type := mkFeatureRow {
  player_id : Z;
  player_name : string;
  team_id : Z;
  team : string;
  position : string;
  fixture_id : Z;
  target_event : Z;
  kickoff_time : string;
  is_home : Z;
  opponent_team_id : Z;
  opponent_team : string;
  opponent_difficulty : Z;
  dgw_count_in_event : Z;
  is_dgw : Z;
  rest_days : option Q;
  horizon : Z;
  horizon_fixture_count_team : Z;
  horizon_avg_fixture_difficulty : Q;
  horizon_home_count : Z;
  recent_points_avg_3 : Q;
  recent_points_avg_5 : Q;
  recent_minutes_avg_3 : Q;
  recent_minutes_avg_5 : Q;
  recent_xgi_avg_3 : Q;
  recent_xgi_avg_5 : Q;
  minutes_volatility_5 : Q;
  points_volatility_5 : Q;
  benching_probability : Q;
  risk_score : Q;
  last_price : Q;
  current_status : string
}.

(** *** Files *)

Inductive File : Type :=
| SqliteFile (db : Database)
| ParquetFile (rows : list FeatureRow).

(** A computation that reads and writes files and can raise. *)
Definition IO (A : Type) : Type := gmap string File -> result A * gmap string File.

Definition io_ret {A : Type} (a : A) : IO A := fun fs => (Ok a, fs).
Definition io_raise {A : Type} (e : exn) : IO A := fun fs => (Raise e, fs).
Definition io_lift {A : Type} (r : result A) : IO A := fun fs => (r, fs).
Definition io_bind {A B : Type} (m : IO A) (k : A -> IO B) : IO B :=
  fun fs =>
    match m fs with
    | (Ok a, fs') => k a fs'
    | (Raise e, fs') => (Raise e, fs')
    end.

Notation "'let!' x := m 'in' k" := (io_bind m (fun x => k))
  (at level 10, x name, m at level 100, k at level 200).

(** [path.exists()], the three queries on the database at [path], and
    [feature_df.to_parquet(path)]. *)
Definition path_exists (path : string) : IO bool :=
  fun fs => (Ok (bool_decide (is_Some (fs !! path))), fs).

Definition read_tables (path : string) : IO Database :=
  fun fs =>
    match fs !! path with
    | Some (SqliteFile db) => (Ok db, fs)
    | _ => (Raise DatabaseError, fs)
    end.

Definition to_parquet (path : string) (rows : list FeatureRow) : IO unit :=
  fun fs => (Ok tt, <[path := ParquetFile rows]> fs).

(** *** The builder *)

(** [_as_float] on a number. *)
Definition _as_float (value : Q) : Q := value.

Definition _is_prior_match (match_dt : option Z) (match_round : Z)
    (target_dt : option Z) (target_event : Z) : bool :=
  match match_dt, target_dt with
  | Some m, Some t => (m <? t)%Z
  | _, _ => (match_round <? target_event)%Z
  end.

(** The order of [sort_values] on a timestamp column followed by two
    integer columns, with [na_position="last"]. *)
Definition dt_lt (a b : option Z) : bool :=
  match a, b with
  | Some x, Some y => (x <? y)%Z
  | Some _, None => true
  | None, _ => false
  end.

Definition dt_eq (a b : option Z) : bool :=
  match a, b with
  | Some x, Some y => (x =? y)%Z
  | None, None => true
  | _, _ => false
  end.

Definition history_lt (a b : HistoryRow) : bool :=
  if negb (dt_eq (hr_kickoff_dt a) (hr_kickoff_dt b))
  then dt_lt (hr_kickoff_dt a) (hr_kickoff_dt b)
  else if negb (hr_round a =? hr_round b)%Z then (hr_round a <? hr_round b)%Z
  else (hr_fixture_id a <? hr_fixture_id b)%Z.

Definition feature_lt (a b : FeatureRow) : bool :=
  if negb (target_event a =? target_event b)%Z then (target_event a <? target_event b)%Z
  else if negb (fixture_id a =? fixture_id b)%Z then (fixture_id a <? fixture_id b)%Z
  else if negb (team_id a =? team_id b)%Z then (team_id a <? team_id b)%Z
  else (player_id a <? player_id b)%Z.

(** [drop_duplicates()]: the first of equal rows is kept. *)
Fixpoint drop_duplicates {A : Type} `{EqDecision A} (seen l : list A) : list A :=
  match l with
  | [] => []
  | x :: l' =>
    if bool_decide (x ∈ seen) then drop_duplicates seen l'
    else x :: drop_duplicates (x :: seen) l'
  end.

Definition set_kickoff_dt (dt : option Z) (r : TeamFixture) : TeamFixture :=
  mkTeamFixture (tf_fixture_id r) (tf_event r) (tf_kickoff_time r) (tf_finished r)
    (tf_team_id r) (tf_opponent_team_id r) (tf_opponent_difficulty r) (tf_is_home r) dt.

(** The order of the fixtures of a team in [_build_rest_days_map]. *)
Definition team_fixture_lt (a b : TeamFixture) : bool :=
  if negb (dt_eq (tf_kickoff_dt a) (tf_kickoff_dt b))
  then dt_lt (tf_kickoff_dt a) (tf_kickoff_dt b)
  else if negb (tf_event a =? tf_event b)%Z then (tf_event a <? tf_event b)%Z
  else (tf_fixture_id a <? tf_fixture_id b)%Z.

(** The keys of [team_fixtures.groupby("team_id", sort=False)] and the rows
    of one of its groups. *)
Definition team_ids (team_fixtures : list TeamFixture) : list Z :=
  drop_duplicates [] (map tf_team_id team_fixtures).

Definition team_group (team_id : Z) (team_fixtures : list TeamFixture) : list TeamFixture :=
  List.filter (fun r => (tf_team_id r =? team_id)%Z) team_fixtures.

(** The body of the loop over the sorted fixtures of a team: the state is
    [previous_dt] and the map. *)
Definition _build_rest_days_map_body (team_id : Z)
    (st : option Z * gmap (Z * Z) (option Q)) (row : TeamFixture)
    : option Z * gmap (Z * Z) (option Q) :=
  let '(previous_dt, rest_days_map) := st in
  let current_dt := tf_kickoff_dt row in
  let rest_days :=
    match previous_dt, current_dt with
    | Some previous, Some current =>
      let delta_days := inject_Z (current - previous) / 1000000000 / 86400 in
      Some (max2 0 delta_days)
    | _, _ => None
    end in
  (match current_dt with
   | Some current => Some current
   | None => previous_dt
   end,
   <[(team_id, tf_fixture_id row) := rest_days]> rest_days_map).

Definition _build_rest_days_map (team_fixtures : list TeamFixture)
    : gmap (Z * Z) (option Q) :=
  foldl (fun rest_days_map team_id =>
           let group_sorted := sort_by team_fixture_lt (team_group team_id team_fixtures) in
           snd (foldl (_build_rest_days_map_body team_id) (None, rest_days_map)
                      group_sorted))
        ∅ (team_ids team_fixtures).

(** [group.groupby("event").agg(...)] as the dictionary [event_stats]: the
    number of fixtures, the mean difficulty and the number of home fixtures
    of each event. *)
Definition event_stats (group : list TeamFixture) : gmap Z (Z * Q * Z) :=
  (fun '(fixture_count, difficulty_sum, home_count) =>
     (fixture_count, inject_Z difficulty_sum / inject_Z fixture_count, home_count))
  <$> foldl (fun m r =>
               let '(fixture_count, difficulty_sum, home_count) :=
                 default (0, 0, 0)%Z (m !! tf_event r) in
               <[tf_event r := (fixture_count + 1, difficulty_sum + tf_opponent_difficulty r,
                                home_count + tf_is_home r)%Z]> m)
            ∅ group.

(** The loop over [range(event, event + max(1, horizon))]. *)
Definition horizon_totals (event_stats : gmap Z (Z * Q * Z)) (event horizon : Z)
    : Z * Z * Q :=
  foldl (fun '(total_fixtures, total_home, weighted_diff_sum) candidate_event =>
           match event_stats !! candidate_event with
           | None => (total_fixtures, total_home, weighted_diff_sum)
           | Some (fixture_count, avg_diff, home_count) =>
             ((total_fixtures + fixture_count)%Z, (total_home + home_count)%Z,
              weighted_diff_sum + avg_diff * inject_Z fixture_count)
           end)
        (0%Z, 0%Z, 0) (seqZ event (Z.max 1 horizon)).

Definition _build_horizon_map_body (event_stats : gmap Z (Z * Q * Z)) (horizon team_id : Z)
    (horizon_map : gmap (Z * Z) (Z * Q * Z)) (event : Z)
    : result (gmap (Z * Z) (Z * Q * Z)) :=
  let '(total_fixtures, total_home, weighted_diff_sum) :=
    horizon_totals event_stats event horizon in
  let* avg_difficulty :=
    (if (0 <? total_fixtures)%Z
     then truediv weighted_diff_sum (inject_Z total_fixtures)
     else Ok 0) in
  Ok (<[(team_id, event) := (total_fixtures, avg_difficulty, total_home)]> horizon_map).

Definition _build_horizon_map (team_fixtures : list TeamFixture) (horizon : Z)
    : result (gmap (Z * Z) (Z * Q * Z)) :=
  for_each (fun horizon_map team_id =>
              let event_stats := event_stats (team_group team_id team_fixtures) in
              let all_events := sort_by Z.ltb (map fst (map_to_list event_stats)) in
              for_each (_build_horizon_map_body event_stats horizon team_id)
                       all_events horizon_map)
           (team_ids team_fixtures) ∅.

(** The dictionaries that the builder fills before its loop. *)
Record Maps : Type := mkMaps {
  team_name_map : gmap Z string;
  dgw_count_map : gmap (Z * Z) Z;
  rest_days_map : gmap (Z * Z) (option Q);
  horizon_map : gmap (Z * Z) (Z * Q * Z)
}.

Definition build_team_name_map (players : list PlayerRow) : gmap Z string :=
  foldl (fun m '(team_id, team) => <[team_id := team]> m) ∅
        (drop_duplicates [] (map (fun p => (p_team_id p, p_team p)) players)).

Definition build_dgw_count_map (team_fixtures : list TeamFixture) : gmap (Z * Z) Z :=
  foldl (fun m r =>
           let key := (tf_team_id r, tf_event r) in
           <[key := (default 0 (m !! key) + 1)%Z]> m)
        ∅ team_fixtures.

Definition build_maps (players : list PlayerRow) (team_fixtures : list TeamFixture)
    (horizon : Z) : result Maps :=
  let team_name_map := build_team_name_map players in
  let dgw_count_map := build_dgw_count_map team_fixtures in
  let rest_days_map := _build_rest_days_map team_fixtures in
  let* horizon_map := _build_horizon_map team_fixtures (Z.max 1 horizon) in
  Ok (mkMaps team_name_map dgw_count_map rest_days_map horizon_map).

Section Build.
(** [math.sqrt] and [pd.to_datetime(column, utc=True, errors="coerce")]
    are parameters; the latter gives the timestamp at an index of the
    column it converts. *)
Variable sqrt : Q -> Q.
Variable to_datetime : list (option string) -> nat -> option Z.

Definition _build_team_fixture_rows (fixtures : list FixtureRow) : list TeamFixture :=
  let home := map (fun f =>
                     mkTeamFixture (f_fixture_id f) (default 0%Z (f_event f))
                       (f_kickoff_time f) (default 0%Z (f_finished f))
                       (f_team_h f) (f_team_a f)
                       (default 0%Z (f_team_h_difficulty f)) 1 None) fixtures in
  let away := map (fun f =>
                     mkTeamFixture (f_fixture_id f) (default 0%Z (f_event f))
                       (f_kickoff_time f) (default 0%Z (f_finished f))
                       (f_team_a f) (f_team_h f)
                       (default 0%Z (f_team_a_difficulty f)) 0 None) fixtures in
  let team_fixtures := home ++ away in
  let column := map tf_kickoff_time team_fixtures in
  imap (fun i r => set_kickoff_dt (to_datetime column i) r) team_fixtures.

(** The conversions of the columns of [history]. *)
Definition convert_history (history : list StatsRow) : list HistoryRow :=
  let column := map s_kickoff_time history in
  imap (fun i s =>
          mkHistoryRow (s_player_id s) (s_fixture_id s)
            (default 0%Z (s_round s))
            (to_datetime column i)
            (inject_Z (default 0%Z (s_minutes s)))
            (inject_Z (default 0%Z (s_total_points s)))
            (default (default 0 (s_expected_goals s) + default 0 (s_expected_assists s))
                     (s_expected_goal_involvements s))
            (inject_Z (default 0%Z (s_value s)) / 10)) history.

(** [history.groupby("player_id", sort=False)]: the rows of each player,
    in the order of the table. *)
Definition group_by_player (history : list HistoryRow) : gmap Z (list HistoryRow) :=
  foldl (fun g r => <[hr_player_id r := default [] (g !! hr_player_id r) ++ [r]]> g)
        ∅ history.

Definition to_match (r : HistoryRow) : Match :=
  mkMatch (hr_kickoff_dt r) (hr_round r) (hr_minutes r)
          (hr_total_points r) (hr_xgi_proxy r) (hr_price r).

Definition build_player_history (history : list HistoryRow) : gmap Z (list Match) :=
  (fun group => map to_match (sort_by history_lt group)) <$> group_by_player history.

(** [players.merge(target_team_fixtures, on="team_id", how="inner")]. *)
Definition merge_on_team_id (players : list PlayerRow) (target : list TeamFixture)
    : list (PlayerRow * TeamFixture) :=
  flat_map (fun p =>
              map (fun r => (p, r))
                  (List.filter (fun r => (tf_team_id r =? p_team_id p)%Z) target))
           players.

(** The records of a player that the builder uses for a target. *)
Definition prior_matches (player_history : gmap Z (list Match))
    (row : PlayerRow * TeamFixture) : list Match :=
  let history_rows := default [] (player_history !! p_player_id (fst row)) in
  List.filter (fun h => _is_prior_match (m_kickoff_dt h) (m_round h)
                          (tf_kickoff_dt (snd row)) (tf_event (snd row)))
              history_rows.

(** [str(status).lower() == "a"]. *)
Definition status_lower_is_a (status : option string) : bool :=
  match status with
  | Some s => (String.eqb s "a" || String.eqb s "A")%bool
  | None => false
  end.

(** The body of the loop over the target rows, from the point where the
    prior records of the target are known. *)
Definition feature_row_from_prior (horizon : Z) (maps : Maps)
    (row : PlayerRow * TeamFixture) (prior : list Match) : result FeatureRow :=
  let '(p, r) := row in
  let target_event := tf_event r in
  let prior_minutes := map m_minutes prior in
  let prior_points := map m_points prior in
  let prior_xgi := map m_xgi prior in
  let prior_prices := List.filter (fun x => ltb 0 x) (map m_price prior) in
  let* minutes_std := rolling_std sqrt prior_minutes 5 in
  let* minutes_volatility_5 := truediv minutes_std 90 in
  let* points_volatility_5 := rolling_std sqrt prior_points 5 in
  let* benching_probability := compute_benching_probability (last_n 5 prior_minutes) in
  let injury_flag := if status_lower_is_a (p_status p) then 0%Z else 1%Z in
  let risk_score := compute_risk_score benching_probability minutes_volatility_5
                                       injury_flag in
  let dgw_count := default 1%Z (dgw_count_map maps !! (p_team_id p, target_event)) in
  let '(horizon_fixture_count, horizon_avg_diff, horizon_home_count) :=
    default (0%Z, 0, 0%Z) (horizon_map maps !! (p_team_id p, target_event)) in
  let rest_days := default None (rest_days_map maps !! (p_team_id p, tf_fixture_id r)) in
  let opponent_team_id := tf_opponent_team_id r in
  let* points_3 := rolling_mean prior_points 3 in
  let* points_5 := rolling_mean prior_points 5 in
  let* minutes_3 := rolling_mean prior_minutes 3 in
  let* minutes_5 := rolling_mean prior_minutes 5 in
  let* xgi_3 := rolling_mean prior_xgi 3 in
  let* xgi_5 := rolling_mean prior_xgi 5 in
  Ok (mkFeatureRow
        (p_player_id p)
        (p_player_name p)
        (p_team_id p)
        (p_team p)
        (p_position p)
        (tf_fixture_id r)
        target_event
        (default "" (tf_kickoff_time r))
        (tf_is_home r)
        opponent_team_id
        (default "UNK" (team_name_map maps !! opponent_team_id))
        (tf_opponent_difficulty r)
        dgw_count
        (if (1 <? dgw_count)%Z then 1 else 0)
        rest_days
        (Z.max 1 horizon)
        horizon_fixture_count
        horizon_avg_diff
        horizon_home_count
        points_3 points_5 minutes_3 minutes_5 xgi_3 xgi_5
        minutes_volatility_5
        points_volatility_5
        benching_probability
        risk_score
        (match last_item prior_prices with
         | Some x => x
         | None => _as_float (p_now_cost p)
         end)
        (match p_status p with Some s => s | None => "None" end)).

Definition feature_row (horizon : Z) (maps : Maps)
    (player_history : gmap Z (list Match)) (row : PlayerRow * TeamFixture)
    : result FeatureRow :=
  feature_row_from_prior horizon maps row (prior_matches player_history row).

Definition target_team_fixtures (include_finished : bool)
    (team_fixtures : list TeamFixture) : list TeamFixture :=
  let target := if include_finished then team_fixtures
                else List.filter (fun r => (tf_finished r =? 0)%Z) team_fixtures in
  List.filter (fun r => (0 <? tf_event r)%Z) target.

Definition build_feature_table (db_path output_path : string) (horizon : Z)
    (include_finished : bool) : IO (Z * Z) :=
  let! db_exists := path_exists db_path in
  if negb db_exists then io_raise (FileNotFoundError "SQLite DB not found")
  else
    let! db := read_tables db_path in
    let players := players db in
    let fixtures := fixtures db in
    let history := gw_player_stats db in
    if bool_decide (players = []) || bool_decide (fixtures = [])
    then io_raise (ValueError "Missing source data in DB (players/fixtures)")
    else
      let team_fixtures := _build_team_fixture_rows fixtures in
      let! maps := io_lift (build_maps players team_fixtures horizon) in
      let target_team_fixtures := target_team_fixtures include_finished team_fixtures in
      if bool_decide (target_team_fixtures = [])
      then io_raise (ValueError "No target fixtures found after filtering")
      else
        let target_rows := merge_on_team_id players target_team_fixtures in
        let player_history := build_player_history (convert_history history) in
        let! feature_rows :=
          io_lift (comprehension
                     (feature_row horizon maps player_history)
                     target_rows) in
        let feature_df := sort_by feature_lt feature_rows in
        let! _ := to_parquet output_path feature_df in
        io_ret (len target_rows, len feature_df).
(** [main] on its parsed arguments; the messages it prints are left out. *)
Definition main (db output : string) (horizon : Z) (include_finished : bool) : IO unit :=
  let! _ := build_feature_table db output (Z.max 1 horizon) include_finished in
  io_ret tt.

(** [_entrypoint]: the exit code, and the files as the run leaves them. *)
Definition _entrypoint (db output : string) (horizon : Z) (include_finished : bool)
    (fs : gmap string File) : Z * gmap string File :=
  match main db output horizon include_finished fs with
  | (Ok _, fs') => (0%Z, fs')
  | (Raise _, fs') => (1%Z, fs')
  end.
End Build.

End BuildFeatureTable.

(** ** phase2_rank_players.py *)

Module Phase2RankPlayers.
Import Py PyLoops.

Record Candidate : Type := mkCandidate {
  player : string;
  team : string;
  position : string;
  price : Q;
  next_opponent : string;
  minutes_avg : Q;
  xg90 : Q;
  xa90 : Q;
  attack_raw : Q;
  minutes_raw : Q;
  value_raw : Q;
  fixture_home : Z;
  attack_norm : Q;
  minutes_norm : Q;
  value_norm : Q;
  score : Q;
  rank_position : Z
}.

#[global] Instance Candidate_inhabited : Inhabited Candidate :=
  populate (mkCandidate "" "" "" 0 "" 0 0 0 0 0 0 0 0 0 0 0 0).

(** Candidates are objects that the stages update in place: a list of
    candidates is a list of references into a store of cells. *)
Abbreviation ref := nat.
Abbreviation heap := (list Candidate).

Definition set_norms (a m v : Q) (c : Candidate) : Candidate :=
  mkCandidate (player c) (team c) (position c) (price c) (next_opponent c)
    (minutes_avg c) (xg90 c) (xa90 c) (attack_raw c) (minutes_raw c) (value_raw c)
    (fixture_home c) a m v (score c) (rank_position c).

Definition set_score (s : Q) (c : Candidate) : Candidate :=
  mkCandidate (player c) (team c) (position c) (price c) (next_opponent c)
    (minutes_avg c) (xg90 c) (xa90 c) (attack_raw c) (minutes_raw c) (value_raw c)
    (fixture_home c) (attack_norm c) (minutes_norm c) (value_norm c) s (rank_position c).

Definition set_rank_position (k : Z) (c : Candidate) : Candidate :=
  mkCandidate (player c) (team c) (position c) (price c) (next_opponent c)
    (minutes_avg c) (xg90 c) (xa90 c) (attack_raw c) (minutes_raw c) (value_raw c)
    (fixture_home c) (attack_norm c) (minutes_norm c) (value_norm c) (score c) k.

(** *** Strings *)

(** [str.isspace] on the code points below 256. *)
Definition is_space (c : ascii) : bool :=
  let n := nat_of_ascii c in
  ((9 <=? n) && (n <=? 13) || (28 <=? n) && (n <=? 32) || (n =? 133) || (n =? 160))%nat.

Fixpoint lstrip_chars (l : list ascii) : list ascii :=
  match l with
  | c :: l' => if is_space c then lstrip_chars l' else l
  | [] => []
  end.

Definition rstrip_chars (l : list ascii) : list ascii :=
  rev (lstrip_chars (rev l)).

(** [s.strip()] and [s.endswith(suffix)]. *)
Definition strip (s : string) : string :=
  string_of_list_ascii (rstrip_chars (lstrip_chars (list_ascii_of_string s))).

Definition endswith (s suffix : string) : bool :=
  bool_decide (list_ascii_of_string suffix `suffix_of` list_ascii_of_string s).

(** A value read from a CSV row is a string, or [None] for a short row. *)
Abbreviation pyval := (option string).

(** [str(v)]. *)
Definition str (v : pyval) : string :=
  match v with
  | Some s => s
  | None => "None"
  end.

(** A row of [csv.DictReader], and [row.get(key, default)]. *)
Abbreviation Row := (gmap string (option string)).

Definition get (row : Row) (key : string) (default : string) : pyval :=
  match row !! key with
  | Some v => v
  | None => Some default
  end.

Definition clamp (value low high : Q) : Q := max2 low (min2 value high).

Definition parse_fixture_home (next_opponent : pyval) : Z :=
  if endswith (strip (str next_opponent)) "(H)" then 1%Z else 0%Z.

(** [min(values)] and [max(values)] of a non-empty list. *)
Definition min_list (values : list Q) : Q :=
  match values with
  | [] => 0
  | v :: vs => foldl min2 v vs
  end.

Definition max_list (values : list Q) : Q :=
  match values with
  | [] => 0
  | v :: vs => foldl max2 v vs
  end.

Definition minmax_normalize (values : list Q) : result (list Q) :=
  match values with
  | [] => Ok []
  | _ =>
    let min_v := min_list values in
    let max_v := max_list values in
    if eqb max_v min_v then Ok (map (fun _ => 0.5) values)
    else
      let span := max_v - min_v in
      comprehension (fun v => truediv (v - min_v) span) values
  end.

Definition compute_weighted_score
    (attack_norm minutes_norm value_norm fixture_norm
     w_attack w_minutes w_value w_fixture : Q) : Q :=
  let score := w_attack * attack_norm
               + w_minutes * minutes_norm
               + w_value * value_norm
               + w_fixture * fixture_norm in
  round6 score.

Section Builtins.
(** The builtin [float(s)] on strings ([None] when it raises
    [ValueError]) and [str.upper] are parameters. *)
Variable float : string -> option Q.
Variable upper : string -> string.

Definition parse_float (value : pyval) : Q :=
  match value with
  | Some s => match float s with
              | Some q => q
              | None => 0
              end
  | None => 0
  end.

(** The body of the loop of [build_candidates]: the store and the list
    of candidates built so far, and the next row. *)
Definition build_candidates_body (positions : list string) (min_minutes_avg : Q)
    (st : heap * list ref) (row : Row) : result (heap * list ref) :=
  let '(h, candidates) := st in
  let position := upper (strip (str (get row "position" ""))) in
  if negb (bool_decide (position ∈ positions)) then Ok st
  else
    let minutes_avg := parse_float (get row "minutes_avg" "0") in
    let xg90 := parse_float (get row "xg90" "0") in
    let xa90 := parse_float (get row "xa90" "0") in
    if ltb minutes_avg min_minutes_avg then Ok st
    else if leb (xg90 + xa90) 0 then Ok st
    else
      let price := parse_float (get row "price" "0") in
      let attack_raw := xg90 + (0.7 * xa90) in
      let* per90 := truediv minutes_avg 90 in
      let minutes_raw := clamp per90 0 1 in
      let* value_raw := (if ltb 0 price then truediv attack_raw price else Ok 0) in
      let fixture_home := parse_fixture_home (get row "next_opponent" "") in
      let c := mkCandidate
                 (strip (str (get row "player" "")))
                 (strip (str (get row "team" "")))
                 position
                 price
                 (strip (str (get row "next_opponent" "")))
                 minutes_avg xg90 xa90 attack_raw minutes_raw value_raw fixture_home
                 0 0 0 0 0 in
      Ok (h ++ [c], candidates ++ [length h]).

Definition build_candidates (rows : list Row) (positions : list string)
    (min_minutes_avg : Q) (h : heap) : result (heap * list ref) :=
  for_each (build_candidates_body positions min_minutes_avg) rows (h, []).
End Builtins.

(** [grouped = {pos: [] for pos in positions}] followed by
    [grouped.setdefault(c.position, []).append(c)] for every candidate. *)
Definition group_by_position (h : heap) (candidates : list ref) (positions : list string)
    : gmap string (list ref) :=
  let grouped := foldl (fun g pos => <[pos := []]> g) ∅ positions in
  foldl (fun g r =>
           let pos := position (h !!! r) in
           <[pos := default [] (g !! pos) ++ [r]]> g)
        grouped candidates.

(** The body of the loop of [normalize_by_position] over the positions. The
    three lists of norms have the length of the group, so the indices of the
    inner loop are in range. *)
Definition normalize_by_position_body (grouped : gmap string (list ref))
    (h : heap) (pos : string) : result heap :=
  let group := default [] (grouped !! pos) in
  match group with
  | [] => Ok h
  | _ =>
    let* attack_norms := minmax_normalize (map (fun r => attack_raw (h !!! r)) group) in
    let* minutes_norms := minmax_normalize (map (fun r => minutes_raw (h !!! r)) group) in
    let* value_norms := minmax_normalize (map (fun r => value_raw (h !!! r)) group) in
    Ok (foldl (fun h' '(idx, r) =>
                 alter (set_norms (default 0 (attack_norms !! idx))
                                  (default 0 (minutes_norms !! idx))
                                  (default 0 (value_norms !! idx))) r h')
              h (imap (fun idx r => (idx, r)) group))
  end.

Definition normalize_by_position (candidates : list ref) (positions : list string)
    (h : heap) : result heap :=
  let grouped := group_by_position h candidates positions in
  for_each (normalize_by_position_body grouped) positions h.

(** The sort key [(-c.score, -c.value_raw, c.price, c.player, c.team)] and
    the order [<] of Python tuples on it: the first component that
    differs decides. *)
Definition sort_key (c : Candidate) : Q * Q * Q * string * string :=
  (- score c, - value_raw c, price c, player c, team c).

Definition key_lt (a b : Q * Q * Q * string * string) : bool :=
  let '(a1, a2, a3, a4, a5) := a in
  let '(b1, b2, b3, b4, b5) := b in
  if negb (eqb a1 b1) then ltb a1 b1
  else if negb (eqb a2 b2) then ltb a2 b2
  else if negb (eqb a3 b3) then ltb a3 b3
  else if negb (String.eqb a4 b4) then String.ltb a4 b4
  else if negb (String.eqb a5 b5) then String.ltb a5 b5
  else false.

(** [<] on the sort keys of two candidates of the store. *)
Definition by_sort_key (h : heap) (r1 r2 : ref) : bool :=
  key_lt (sort_key (h !!! r1)) (sort_key (h !!! r2)).

(** The state of the ranking loop of [rank_candidates]. *)
Record RankState : Type := mkRankState {
  st_heap : heap;
  st_grouped : gmap string (list ref);
  st_ranked : list ref;
  st_rows_by_position : gmap string Z
}.

(** The body of the second loop of [rank_candidates]. [group.sort] sorts the
    list held by [grouped] in place; every position is a key of [grouped]. *)
Definition rank_candidates_body (top_n_per_position : Z) (st : RankState) (pos : string)
    : RankState :=
  let h := st_heap st in
  let group := default [] (st_grouped st !! pos) in
  let group := sort_by (by_sort_key h) group in
  let top_group := first_n (Z.max 0 top_n_per_position) group in
  let h' := foldl (fun h' '(idx, r) => alter (set_rank_position (Z.of_nat idx + 1)) r h')
                  h (imap (fun idx r => (idx, r)) top_group) in
  mkRankState h'
    (<[pos := group]> (st_grouped st))
    (st_ranked st ++ top_group)
    (<[pos := len top_group]> (st_rows_by_position st)).

(** The first loop of [rank_candidates]: every candidate gets its score. *)
Definition score_candidates (w_attack w_minutes w_value w_fixture : Q)
    (candidates : list ref) (h : heap) : heap :=
  foldl (fun h' r =>
           let c := h' !!! r in
           alter (set_score (compute_weighted_score
                               (attack_norm c) (minutes_norm c) (value_norm c)
                               (inject_Z (fixture_home c))
                               w_attack w_minutes w_value w_fixture)) r h')
        h candidates.

(** [rank_candidates] returns the ranked references and the counts; the
    store it leaves is returned with them. *)
Definition rank_candidates (candidates : list ref) (positions : list string)
    (top_n_per_position : Z) (w_attack w_minutes w_value w_fixture : Q) (h : heap)
    : heap * list ref * gmap string Z :=
  let h1 := score_candidates w_attack w_minutes w_value w_fixture candidates h in
  let grouped := group_by_position h1 candidates positions in
  let st := foldl (rank_candidates_body top_n_per_position)
                  (mkRankState h1 grouped [] ∅) positions in
  (st_heap st, st_ranked st, st_rows_by_position st).

(** The defaults of the command line. *)
Definition default_top_n_per_position : Z := 20.
Definition default_min_minutes_avg : Q := 30.
Definition default_w_attack : Q := 0.50.
Definition default_w_minutes : Q := 0.25.
Definition default_w_value : Q := 0.20.
Definition default_w_fixture : Q := 0.05.

(** The rows that [write_output_csv] emits: the ranked candidates as the
    store holds them when the ranking is over. *)
Definition emitted (h : heap) (ranked : list ref) : list Candidate :=
  map (fun r => h !!! r) ranked.

(** *** The positions of the command line *)

(** [raw.split(",")] on the characters of a string; [item] holds the
    characters of the item that is being read, the last one first. *)
Fixpoint split_comma_chars (item : list ascii) (l : list ascii) : list (list ascii) :=
  match l with
  | [] => [rev item]
  | c :: l' =>
    if Ascii.eqb c ","%char then rev item :: split_comma_chars [] l'
    else split_comma_chars (c :: item) l'
  end.

Definition split_comma (raw : string) : list string :=
  map string_of_list_ascii (split_comma_chars [] (list_ascii_of_string raw)).

Definition allowed_positions : list string := ["GKP"; "DEF"; "MID"; "FWD"].

Section Positions.
Variable upper : string -> string.

(** [[item.strip().upper() for item in raw.split(",") if item.strip()]]. *)
Definition position_items (raw : string) : list string :=
  map (fun item => upper (strip item))
      (List.filter (fun item => negb (String.eqb (strip item) "")) (split_comma raw)).

(** The body of the loop of [parse_positions] over the items. *)
Definition parse_positions_body (unique : list string) (item : string)
    : result (list string) :=
  if negb (bool_decide (item ∈ allowed_positions))
  then Raise (ValueError ("Invalid position '" ++ item
                          ++ "'. Allowed: ['DEF', 'FWD', 'GKP', 'MID']"))
  else if negb (bool_decide (item ∈ unique)) then Ok (unique ++ [item])
  else Ok unique.

Definition parse_positions (raw : string) : result (list string) :=
  let* unique := for_each parse_positions_body (position_items raw) [] in
  match unique with
  | [] => Raise (ValueError "At least one position is required")
  | _ => Ok unique
  end.
End Positions.

End Phase2RankPlayers.

(** ** The contract of the risk model, in the words of its description *)

Module RiskSpec.

(** A minutes observation is a start, a cameo or a no-show. *)
Inductive appearance : Type := Started | Cameo | DidNotPlay | Unclassified.

Definition classify (m : Q) : appearance :=
  if Qle_bool 60 m then Started
  else if Qle_bool m 0 then (if Qeq_bool m 0 then DidNotPlay else Unclassified)
  else Cameo.

Definition appearance_eqb (a b : appearance) : bool :=
  match a, b with
  | Started, Started | Cameo, Cameo | DidNotPlay, DidNotPlay
  | Unclassified, Unclassified => true
  | _, _ => false
  end.

(** The share of the observations that fall in a class. *)
Definition rate (a : appearance) (ms : list Q) : Q :=
  inject_Z (Z.of_nat (length (List.filter (fun m => appearance_eqb (classify m) a) ms)))
  / inject_Z (Z.of_nat (length ms)).

Definition clamp (lo hi x : Q) : Q :=
  if Qle_bool x lo then lo else if Qle_bool hi x then hi else x.

Definition benching_probability (ms : list Q) : Q :=
  clamp 0 1 (0.6 * rate DidNotPlay ms + 0.3 * rate Cameo ms + 0.1 * (1 - rate Started ms)).

Definition risk_score (benching volatility : Q) (injury_flag : Z) : Q :=
  clamp 0 1 (0.55 * benching + 0.30 * clamp 0 1 volatility + 0.15 * inject_Z injury_flag).

End RiskSpec.

(** ** The contract of the feature table, in the words of its description *)

Module FeatureSpec.
Import Py PyLoops BuildFeatureTable.

(** A record is strictly prior to a target: by the kickoff timestamps when
    both are known, by the round and event numbers otherwise. *)
Definition strictly_before (h : Match) (target : TeamFixture) : Prop :=
  match m_kickoff_dt h, tf_kickoff_dt target with
  | Some t, Some t' => (t < t')%Z
  | _, _ => (m_round h < tf_event target)%Z
  end.

(** No fixture passes the filter on the target fixtures: each is finished
    while finished fixtures are excluded, or has no positive event. *)
Definition no_target_fixture (include_finished : bool) (fixtures : list FixtureRow) : Prop :=
  forall f, f ∈ fixtures ->
    (include_finished = false /\ default 0%Z (f_finished f) <> 0%Z)
    \/ (default 0%Z (f_event f) <= 0)%Z.

Section Build.
Variable sqrt : Q -> Q.
Variable to_datetime : list (option string) -> nat -> option Z.

(** The rows that a completed run has computed and written. *)
Definition run_of (db : Database) (horizon : Z) (include_finished : bool)
    (maps : Maps) (feature_rows : list FeatureRow) : Prop :=
  let team_fixtures := _build_team_fixture_rows to_datetime (fixtures db) in
  build_maps (players db) team_fixtures horizon = Ok maps
  /\ comprehension
       (feature_row sqrt horizon maps
          (build_player_history (convert_history to_datetime (gw_player_stats db))))
       (merge_on_team_id (players db) (target_team_fixtures include_finished team_fixtures))
     = Ok feature_rows.

(** The statistics of a row are those of a list of records. *)
Definition statistics_of (prior : list Match) (p : PlayerRow) (row : FeatureRow) : Prop :=
  rolling_mean (map m_points prior) 3 = Ok (recent_points_avg_3 row)
  /\ rolling_mean (map m_points prior) 5 = Ok (recent_points_avg_5 row)
  /\ rolling_mean (map m_minutes prior) 3 = Ok (recent_minutes_avg_3 row)
  /\ rolling_mean (map m_minutes prior) 5 = Ok (recent_minutes_avg_5 row)
  /\ rolling_mean (map m_xgi prior) 3 = Ok (recent_xgi_avg_3 row)
  /\ rolling_mean (map m_xgi prior) 5 = Ok (recent_xgi_avg_5 row)
  /\ (exists sd, rolling_std sqrt (map m_minutes prior) 5 = Ok sd
                 /\ minutes_volatility_5 row = sd / 90)
  /\ rolling_std sqrt (map m_points prior) 5 = Ok (points_volatility_5 row)
  /\ compute_benching_probability (last_n 5 (map m_minutes prior))
     = Ok (benching_probability row)
  /\ last_price row
     = match last (List.filter (fun x => ltb 0 x) (map m_price prior)) with
       | Some x => x
       | None => p_now_cost p
       end.

End Build.

End FeatureSpec.

(** ** The contract of the ranking, in the words of its description *)

Module NormalizeSpec.

(** The least and the greatest of the values of a group. *)
Definition is_min (lo : Q) (values : list Q) : Prop :=
  lo ∈ values /\ forall v, v ∈ values -> lo <= v.

Definition is_max (hi : Q) (values : list Q) : Prop :=
  hi ∈ values /\ forall v, v ∈ values -> v <= hi.

Definition all_equal (values : list Q) : Prop :=
  forall v w, v ∈ values -> w ∈ values -> v == w.

End NormalizeSpec.

Module RankSpec.
Import Phase2RankPlayers.

(** The annotation of the next opponent marks a home fixture: it ends in
    "(H)", white space after it aside. *)
Definition marks_home (annotation : string) : Prop :=
  exists before after,
    list_ascii_of_string annotation = before ++ list_ascii_of_string "(H)" ++ after
    /\ Forall (fun c => is_space c = true) after.

(** The order of strings: the first character that differs decides, and a
    proper prefix comes first. *)
Definition str_lt (a b : string) : Prop := String.compare a b = Lt.

(** The documented order of a position group: a candidate stands no later
    than another when its score is higher; else, the scores being equal,
    when its value for money is higher; else when its price is lower; else
    when its name comes first; else when its team label comes first or is
    the same. *)
Definition ranks_no_later (c1 c2 : Candidate) : Prop :=
  score c2 < score c1
  \/ (score c1 == score c2
      /\ (value_raw c2 < value_raw c1
          \/ (value_raw c1 == value_raw c2
              /\ (price c1 < price c2
                  \/ (price c1 == price c2
                      /\ (str_lt (player c1) (player c2)
                          \/ (player c1 = player c2
                              /\ (str_lt (team c1) (team c2)
                                  \/ team c1 = team c2)))))))).

(** The weighted sum of the signals of a candidate. *)
Definition weighted_sum (w_attack w_minutes w_value w_fixture : Q) (c : Candidate) : Q :=
  w_attack * attack_norm c + w_minutes * minutes_norm c + w_value * value_norm c
  + w_fixture * inject_Z (fixture_home c).

(** The candidates of a position, in the order of the list. *)
Definition of_position (h : list Candidate) (pos : string) (candidates : list nat)
    : list nat :=
  List.filter (fun r => String.eqb (position (h !!! r)) pos) candidates.

(** The group of a position in the documented order, and the part of it
    that is kept. *)
Definition sorted_group (h : list Candidate) (pos : string) (candidates : list nat)
    : list nat :=
  Py.sort_by (by_sort_key h) (of_position h pos candidates).

Definition top_group (top_n : Z) (h : list Candidate) (pos : string)
    (candidates : list nat) : list nat :=
  Py.first_n (Z.max 0 top_n) (sorted_group h pos candidates).

(** What holds of the state of the ranking loop once the positions [done]
    are ranked, [h1] being the store after the scoring loop. *)
Definition rank_invariant (top_n : Z) (candidates : list nat) (h1 : list Candidate)
    (done : list string) (st : RankState) : Prop :=
  length (st_heap st) = length h1
  /\ (forall r, set_rank_position 0 (st_heap st !!! r) = set_rank_position 0 (h1 !!! r))
  /\ (forall pos, Py.sort_by (by_sort_key h1) (default [] (st_grouped st !! pos))
                  = sorted_group h1 pos candidates)
  /\ st_ranked st = concat (map (fun pos => top_group top_n h1 pos candidates) done)
  /\ (forall pos, pos ∈ done -> forall i r,
        top_group top_n h1 pos candidates !! i = Some r ->
        rank_position (st_heap st !!! r) = (Z.of_nat i + 1)%Z)
  /\ (forall pos, pos ∈ done ->
        st_rows_by_position st !! pos
        = Some (Py.len (top_group top_n h1 pos candidates))).

Section Built.
Variable float : string -> option Q.

(** A candidate is the one that [build_candidates] makes of a row. *)
Definition built_from (row : Row) (c : Candidate) : Prop :=
  player c = strip (str (get row "player" ""))
  /\ team c = strip (str (get row "team" ""))
  /\ price c = parse_float float (get row "price" "0")
  /\ attack_raw c = parse_float float (get row "xg90" "0")
                    + 0.7 * parse_float float (get row "xa90" "0")
  /\ (~ 0 < price c -> value_raw c = 0)
  /\ (0 < price c -> value_raw c = attack_raw c / price c)
  /\ next_opponent c = strip (str (get row "next_opponent" ""))
  /\ fixture_home c = parse_fixture_home (get row "next_opponent" "").

End Built.

End RankSpec.

(** ** Sample data *)

Module Examples.
Import Py PyLoops BuildFeatureTable Phase2RankPlayers.

(** The decimal literals among the strings that [float] accepts: digits,
    and possibly a point followed by digits. *)
Fixpoint digits_value (acc : Z) (l : list ascii) : option Z :=
  match l with
  | [] => Some acc
  | c :: l' =>
    let n := nat_of_ascii c in
    if ((48 <=? n) && (n <=? 57))%nat
    then digits_value (10 * acc + Z.of_nat (n - 48)) l'
    else None
  end.

Fixpoint split_point (l : list ascii) : list ascii * option (list ascii) :=
  match l with
  | [] => ([], None)
  | c :: l' =>
    if Ascii.eqb c "."%char then ([], Some l')
    else let '(a, b) := split_point l' in (c :: a, b)
  end.

Definition parse_decimal (s : string) : option Q :=
  let '(whole, fraction) := split_point (list_ascii_of_string s) in
  match whole, digits_value 0 whole with
  | _ :: _, Some w =>
    match fraction with
    | None => Some (inject_Z w)
    | Some f =>
      match digits_value 0 f with
      | Some v => Some (inject_Z w + inject_Z v / inject_Z (10 ^ Z.of_nat (length f)))
      | None => None
      end
    end
  | _, _ => None
  end.

(** [str.upper] on the letters a to z. *)
Definition ascii_upper (s : string) : string :=
  string_of_list_ascii
    (map (fun c =>
            let n := nat_of_ascii c in
            if ((97 <=? n) && (n <=? 122))%nat then ascii_of_nat (n - 32) else c)
         (list_ascii_of_string s)).

(** A rational approximation of [math.sqrt], to six decimals. *)
Definition sqrt_approx (q : Q) : Q :=
  Z.sqrt (Qnum q * 10 ^ 12 / Zpos (Qden q)) # 1000000.

(** [pd.to_datetime] on the timestamps of the form
    [YYYY-MM-DDTHH:MM:SSZ]: the nanoseconds since 1970-01-01T00:00:00Z, and
    [NaT] for a null and for a string of another form. *)
Definition days_from_civil (y m d : Z) : Z :=
  let y' := if (m <=? 2)%Z then (y - 1)%Z else y in
  let era := (y' / 400)%Z in
  let yoe := (y' - era * 400)%Z in
  let mp := ((m + 9) mod 12)%Z in
  let doy := ((153 * mp + 2) / 5 + d - 1)%Z in
  let doe := (yoe * 365 + yoe / 4 - yoe / 100 + doy)%Z in
  (era * 146097 + doe - 719468)%Z.

Definition digits_at (s : string) (start len : nat) : option Z :=
  digits_value 0 (list_ascii_of_string (String.substring start len s)).

Definition iso_shape (s : string) : bool :=
  (String.length s =? 20)%nat
  && String.eqb (String.substring 4 1 s) "-"
  && String.eqb (String.substring 7 1 s) "-"
  && String.eqb (String.substring 10 1 s) "T"
  && String.eqb (String.substring 13 1 s) ":"
  && String.eqb (String.substring 16 1 s) ":"
  && String.eqb (String.substring 19 1 s) "Z".

Definition iso_timestamp (column : list (option string)) (i : nat) : option Z :=
  match column !! i with
  | Some (Some s) =>
    if iso_shape s then
      match digits_at s 0 4, digits_at s 5 2, digits_at s 8 2,
            digits_at s 11 2, digits_at s 14 2, digits_at s 17 2 with
      | Some y, Some m, Some d, Some hh, Some mm, Some ss =>
        Some ((days_from_civil y m d * 86400 + hh * 3600 + mm * 60 + ss) * 1000000000)%Z
      | _, _, _, _, _, _ => None
      end
    else None
  | _ => None
  end.

(** Two players of two teams that meet once in event 1 and twice in
    event 2, and a fixture that is not scheduled yet. *)
Definition sample_players : list PlayerRow :=
  [ mkPlayerRow 1 "Bukayo Saka" 1 "ARS" "MID" 10 (Some "a");
    mkPlayerRow 2 "Cole Palmer" 2 "CHE" "MID" 10.5 (Some "i") ].

Definition sample_fixtures : list FixtureRow :=
  [ mkFixtureRow 10 (Some 1%Z) (Some "2025-08-16T11:30:00Z") (Some 1%Z) 1 2
      (Some 3%Z) (Some 4%Z);
    mkFixtureRow 11 (Some 2%Z) (Some "2025-08-23T14:00:00Z") (Some 0%Z) 2 1
      (Some 4%Z) (Some 3%Z);
    mkFixtureRow 12 (Some 2%Z) (Some "2025-08-26T19:00:00Z") (Some 0%Z) 1 2
      (Some 3%Z) (Some 4%Z);
    mkFixtureRow 13 None None (Some 0%Z) 1 2 None None ].

Definition sample_stats : list StatsRow :=
  [ mkStatsRow 1 10 (Some 1%Z) (Some "2025-08-16T11:30:00Z") (Some 90%Z) (Some 8%Z)
      (Some 0.7) (Some 0.4) (Some 0.3) (Some 100%Z);
    mkStatsRow 1 11 (Some 2%Z) (Some "2025-08-23T14:00:00Z") (Some 45%Z) (Some 2%Z)
      None (Some 0.1) None (Some 101%Z);
    mkStatsRow 2 10 (Some 1%Z) None (Some 0%Z) (Some 0%Z)
      None None None None ].

Definition sample_db : Database := mkDatabase sample_players sample_fixtures sample_stats.

Definition sample_files : gmap string File := {[ "data/fpl_mvp.db" := SqliteFile sample_db ]}.

(** A database whose fixtures are all finished. *)
Definition finished_db : Database :=
  mkDatabase sample_players
    [ mkFixtureRow 10 (Some 1%Z) (Some "2025-08-16T11:30:00Z") (Some 1%Z) 1 2
        (Some 3%Z) (Some 4%Z) ]
    sample_stats.

Definition finished_files : gmap string File :=
  {[ "data/fpl_mvp.db" := SqliteFile finished_db ]}.

(** Rows of the input of the ranking. *)
Definition sample_row (player team position price next_opponent minutes_avg xg90 xa90 : string)
    : gmap string (option string) :=
  list_to_map
    [ ("player", Some player); ("team", Some team); ("position", Some position);
      ("price", Some price); ("next_opponent", Some next_opponent);
      ("minutes_avg", Some minutes_avg); ("xg90", Some xg90); ("xa90", Some xa90) ].

Definition sample_rows : list (gmap string (option string)) :=
  [ sample_row "Saka" "ARS" "mid" "10.0" "CHE (H)" "90" "0.1" "0";
    sample_row "Palmer" "CHE" "MID" "10.0" "ARS (A) " "90" "0.2" "0";
    sample_row "Foden" "MCI" "MID" "10.0" "TBD" "90" "0.4" "0";
    sample_row "Rice" "ARS" "MID" "0" "CHE (H)" "80" "0.0" "0.1";
    sample_row "Raya" "ARS" "GKP" "5.5" "CHE (H)" "90" "0" "0" ].

(** Candidates as the ranking receives them. *)
Definition sample_heap : list Candidate :=
  [ mkCandidate "Saka" "ARS" "MID" 10 "CHE (H)" 90 0.1 0 0.1 1 0.01 1 0 0.5 0 0 0;
    mkCandidate "Palmer" "CHE" "MID" 10 "ARS (A)" 90 0.2 0 0.2 1 0.02 0 (1 # 3) 0.5 (1 # 3) 0 0;
    mkCandidate "Foden" "MCI" "MID" 10 "TBD" 90 0.4 0 0.4 1 0.04 0 1 0.5 1 0 0;
    mkCandidate "Watkins" "AVL" "FWD" 9 "BRE (H)" 90 0.5 0.1 0.57 1 0.06 1 0.5 0.5 0.5 0 0 ].

End Examples.

(** ** The written table, in the words of its checks *)

Module TableSpec.
Import Py BuildFeatureTable.

(** A row may stand in front of another in the written table: its target
    event, then its fixture, its team and its player are not greater. *)
Definition key_le (a b : FeatureRow) : Prop :=
  (target_event a < target_event b)%Z
  \/ (target_event a = target_event b
      /\ ((fixture_id a < fixture_id b)%Z
          \/ (fixture_id a = fixture_id b
              /\ ((team_id a < team_id b)%Z
                  \/ (team_id a = team_id b /\ (player_id a <= player_id b)%Z))))).

(** The fixtures that a team plays in the [count] events from [first] on. *)
Definition fixtures_between (team first count : Z) (team_fixtures : list TeamFixture)
    : list TeamFixture :=
  List.filter (fun r => (tf_team_id r =? team)%Z && (first <=? tf_event r)%Z
                        && (tf_event r <? first + count)%Z)
              team_fixtures.

(** The sum of a column over rows. *)
Definition column_sum (column : TeamFixture -> Z) (rows : list TeamFixture) : Z :=
  foldr (fun r acc => (column r + acc)%Z) 0%Z rows.

(** The rows of one event, and the rows of the events of a list. *)
Definition event_rows (event : Z) (group : list TeamFixture) : list TeamFixture :=
  List.filter (fun r => (tf_event r =? event)%Z) group.

Definition in_events (events : list Z) (group : list TeamFixture) : list TeamFixture :=
  List.filter (fun r => bool_decide (tf_event r ∈ events)) group.

(** The entry of the horizon map for an event of a team whose statistics
    by event are [event_stats]. *)
Definition horizon_value (event_stats : gmap Z (Z * Q * Z)) (horizon event : Z)
    : Z * Q * Z :=
  let '(total_fixtures, total_home, weighted_diff_sum) :=
    horizon_totals event_stats event horizon in
  (total_fixtures,
   if (0 <? total_fixtures)%Z then weighted_diff_sum / inject_Z total_fixtures else 0,
   total_home).

End TableSpec.

(** ** phase2_rank_players.py: files and entry point *)

Module Phase2RankPlayersMain.
Import Py PyLoops Phase2RankPlayers.

Definition INPUT_REQUIRED_COLUMNS : list string :=
  ["player"; "team"; "position"; "price"; "next_opponent"; "minutes_avg"; "xg90"; "xa90"].

Definition OUTPUT_COLUMNS : list string :=
  ["player"; "team"; "position"; "price"; "next_opponent"; "minutes_avg"; "xg90"; "xa90";
   "attack_raw"; "value_raw"; "fixture_home"; "score"; "rank_position"].

(** The dictionary that [write_output_json] serialises. *)
Record Payload : Type := mkPayload {
  schema_version : string;
  input_file : string;
  filters_positions : list string;
  filters_min_minutes_avg : Q;
  filters_top_n_per_position : Z;
  weights_w_attack : Q;
  weights_w_minutes : Q;
  weights_w_value : Q;
  weights_w_fixture : Q;
  counts_input_rows : Z;
  counts_eligible_rows : Z;
  counts_output_rows : Z;
  counts_rows_by_position : gmap string Z
}.

Definition newline : string := String (ascii_of_nat 10) EmptyString.

(** A computation on text files that can raise. *)
Definition IO (A : Type) : Type := gmap string string -> result A * gmap string string.

Definition io_ret {A : Type} (a : A) : IO A := fun fs => (Ok a, fs).
Definition io_lift {A : Type} (r : result A) : IO A := fun fs => (r, fs).
Definition io_bind {A B : Type} (m : IO A) (k : A -> IO B) : IO B :=
  fun fs =>
    match m fs with
    | (Ok a, fs') => k a fs'
    | (Raise e, fs') => (Raise e, fs')
    end.

Notation "'let!' x := m 'in' k" := (io_bind m (fun x => k))
  (at level 10, x name, m at level 100, k at level 200).

Section Files.
(** The builtins and the libraries are parameters: [float] and
    [str.upper]; [csv.DictReader] on the text of a file, which gives the
    field names ([None] for an empty file) and the rows; [csv.writer] on
    the lines it is given; the format [f"{x:.nf}"] of a float with [n]
    decimals; [str] on an integer; [json.dump] with [indent=2] and
    [sort_keys=True]; and [str(path.resolve())]. *)
Variable float : string -> option Q.
Variable upper : string -> string.
Variable dict_reader : string -> option (list string) * list Row.
Variable csv_writer : list (list string) -> string.
Variable format_fixed : nat -> Q -> string.
Variable str_int : Z -> string.
Variable json_dump : Payload -> string.
Variable resolve : string -> string.

Definition read_phase1_rows (input_path : string) : IO (list Row) :=
  fun fs =>
    match fs !! input_path with
    | None => (Raise (FileNotFoundError ("Input file not found: " ++ input_path)), fs)
    | Some text =>
      let '(fieldnames, rows) := dict_reader text in
      let fields := default [] fieldnames in
      let missing := List.filter (fun column => negb (bool_decide (column ∈ fields)))
                                 INPUT_REQUIRED_COLUMNS in
      match missing with
      | [] => (Ok rows, fs)
      | _ =>
        (Raise (ValueError ("Input CSV missing required columns: "
                            ++ String.concat ", " (sort_by String.ltb missing))), fs)
      end
    end.

(** The line of [write_output_csv] for a candidate. *)
Definition csv_line (row : Candidate) : list string :=
  [ player row; team row; position row;
    format_fixed 1 (price row);
    next_opponent row;
    format_fixed 2 (minutes_avg row);
    format_fixed 3 (xg90 row);
    format_fixed 3 (xa90 row);
    format_fixed 6 (attack_raw row);
    format_fixed 6 (value_raw row);
    str_int (fixture_home row);
    format_fixed 6 (score row);
    str_int (rank_position row) ].

Definition write_output_csv (rows : list Candidate) (output_csv : string) : IO unit :=
  fun fs => (Ok tt, <[output_csv := csv_writer (OUTPUT_COLUMNS :: map csv_line rows)]> fs).

Definition write_output_json (output_json input_file : string) (positions : list string)
    (min_minutes_avg : Q) (top_n_per_position : Z)
    (w_attack w_minutes w_value w_fixture : Q)
    (input_rows eligible_rows output_rows : Z) (rows_by_position : gmap string Z)
    : IO unit :=
  let payload :=
    mkPayload "1.0" (resolve input_file) positions min_minutes_avg top_n_per_position
      w_attack w_minutes w_value w_fixture
      input_rows eligible_rows output_rows rows_by_position in
  fun fs => (Ok tt, <[output_json := String.append (json_dump payload) newline]> fs).

(** [main] on its parsed arguments; the messages it prints are left out. *)
Definition main (input output_csv output_json : string) (top_n_per_position : Z)
    (min_minutes_avg : Q) (positions : string)
    (w_attack w_minutes w_value w_fixture : Q) : IO unit :=
  let! positions := io_lift (parse_positions upper positions) in
  let! rows := read_phase1_rows input in
  let! built := io_lift (build_candidates float upper rows positions
                           (max2 0 min_minutes_avg) []) in
  let '(h0, candidates) := built in
  let! h1 := io_lift (normalize_by_position candidates positions h0) in
  let '(h', ranked, rows_by_position) :=
    rank_candidates candidates positions (Z.max 0 top_n_per_position)
      w_attack w_minutes w_value w_fixture h1 in
  let! _ := write_output_csv (emitted h' ranked) output_csv in
  let! _ := write_output_json output_json input positions
              (max2 0 min_minutes_avg) (Z.max 0 top_n_per_position)
              w_attack w_minutes w_value w_fixture
              (len rows) (len candidates) (len ranked) rows_by_position in
  io_ret tt.

(** [_entrypoint]: the exit code, and the files as the run leaves them. *)
Definition _entrypoint (input output_csv output_json : string) (top_n_per_position : Z)
    (min_minutes_avg : Q) (positions : string)
    (w_attack w_minutes w_value w_fixture : Q) (fs : gmap string string)
    : Z * gmap string string :=
  match main input output_csv output_json top_n_per_position min_minutes_avg positions
             w_attack w_minutes w_value w_fixture fs with
  | (Ok _, fs') => (0%Z, fs')
  | (Raise _, fs') => (1%Z, fs')
  end.
End Files.

End Phase2RankPlayersMain.

(** ** The stages of the ranking, in the words of their checks *)

Module PipelineSpec.
Import Py Phase2RankPlayers.

(** A candidate passed the filters of [build_candidates] and has its raw
    signals as they are derived from the row. *)
Definition eligible (positions : list string) (min_minutes_avg : Q) (c : Candidate) : Prop :=
  position c ∈ positions
  /\ min_minutes_avg <= minutes_avg c
  /\ 0 < xg90 c + xa90 c
  /\ attack_raw c = xg90 c + 0.7 * xa90 c
  /\ 0 <= minutes_raw c <= 1
  /\ (fixture_home c = 0%Z \/ fixture_home c = 1%Z).

(** Nothing is normalised, scored or ranked yet. *)
Definition unranked (c : Candidate) : Prop :=
  attack_norm c = 0 /\ minutes_norm c = 0 /\ value_norm c = 0
  /\ score c = 0 /\ rank_position c = 0%Z.

(** The three normalised signals lie between 0 and 1. *)
Definition norms_in_range (c : Candidate) : Prop :=
  0 <= attack_norm c <= 1 /\ 0 <= minutes_norm c <= 1 /\ 0 <= value_norm c <= 1.

(** The sum of the counts of the positions. *)
Definition rows_total (positions : list string) (rows_by_position : gmap string Z) : Z :=
  foldr (fun pos acc => (default 0 (rows_by_position !! pos) + acc)%Z) 0%Z positions.

End PipelineSpec.

Module TableExamples.
Import Py BuildFeatureTable.



End TableExamples.

Module RankingExamples.
Import Py Phase2RankPlayers Phase2RankPlayersMain.

(** Plain stand-ins for the libraries, to run the entry point on the
    sample rows: decimal digits, numbers with a fixed number of decimals,
    lines of cells joined by commas, the counts of the metadata, and a
    reader that finds the sample rows under the required columns in every
    file. *)
Fixpoint digits (fuel : nat) (n : Z) : list ascii :=
  match fuel with
  | O => []
  | S fuel' =>
    let last := ascii_of_nat (48 + Z.to_nat (n mod 10)) in
    if (n <? 10)%Z then [last] else digits fuel' (n / 10) ++ [last]
  end.

Definition show_int (z : Z) : string :=
  String.append (if (z <? 0)%Z then "-" else "")
                (string_of_list_ascii (digits 40 (Z.abs z))).

Definition show_fixed (decimals : nat) (x : Q) : string :=
  let scale := (10 ^ Z.of_nat decimals)%Z in
  let k := round_half_even (x * inject_Z scale) in
  let fraction := digits 40 (Z.abs k mod scale) in
  String.append (if (k <? 0)%Z then "-" else "")
    (String.append (string_of_list_ascii (digits 40 (Z.abs k / scale)))
       (String.append "."
          (string_of_list_ascii
             (replicate (decimals - length fraction) "0"%char ++ fraction)))).

Definition plain_writer (lines : list (list string)) : string :=
  String.concat newline (map (String.concat ",") lines).

Definition show_counts (payload : Payload) : string :=
  String.concat " " [ show_int (counts_input_rows payload);
                      show_int (counts_eligible_rows payload);
                      show_int (counts_output_rows payload) ].

Definition sample_reader (text : string) : option (list string) * list Row :=
  (Some INPUT_REQUIRED_COLUMNS, Examples.sample_rows).

Definition sample_inputs : gmap string string := {[ "data/phase1.csv" := "phase1" ]}.

(** The entry point and its [main] on these stand-ins. *)
Definition sample_main (input positions : string) : IO unit :=
  main Examples.parse_decimal Examples.ascii_upper sample_reader plain_writer
    show_fixed show_int show_counts (fun path => path)
    input "out/ranked.csv" "out/ranked.meta.json" 2 30 positions
    default_w_attack default_w_minutes default_w_value default_w_fixture.

End RankingExamples.

(** * Properties *)

Module PyFacts.
Import Py.

Lemma ltb_lt a b : ltb a b = true <-> a < b.
Proof.
  unfold ltb. rewrite negb_true_iff.
  destruct (Qle_bool b a) eqn:E.
  - apply Qle_bool_iff in E. split; [discriminate | lra].
  - split; [intros _ | reflexivity].
    destruct (Qlt_le_dec a b) as [H | H]; [exact H |].
    apply Qle_bool_iff in H. congruence.
Qed.

Lemma ltb_ge a b : ltb a b = false <-> b <= a.
Proof.
  unfold ltb. rewrite negb_false_iff. apply Qle_bool_iff.
Qed.

Lemma leb_le a b : leb a b = true <-> a <= b.
Proof. apply Qle_bool_iff. Qed.

Lemma eqb_eq a b : eqb a b = true <-> a == b.
Proof. apply Qeq_bool_iff. Qed.

Lemma eqb_neq a b : eqb a b = false <-> ~ a == b.
Proof.
  unfold eqb. split.
  - intros E H. apply Qeq_bool_iff in H. congruence.
  - intros H. destruct (Qeq_bool a b) eqn:E; [| reflexivity].
    apply Qeq_bool_iff in E. contradiction.
Qed.

End PyFacts.

(** ** The risk model *)

Module RiskFacts.
Import Py PyFacts BuildFeatureTable.

Lemma count_if_filter {A : Type} (p : A -> bool) (xs : list A) :
  count_if p xs = Z.of_nat (length (List.filter p xs)).
Proof.
  unfold count_if.
  enough (G : forall acc, foldl (fun acc x => if p x then (acc + 1)%Z else acc) acc xs
                          = (acc + Z.of_nat (length (List.filter p xs)))%Z)
    by (rewrite G; lia).
  induction xs as [| x xs IH]; intros acc; simpl.
  - lia.
  - rewrite IH. destruct (p x); simpl; lia.
Qed.

Lemma filter_length_le {A : Type} (p : A -> bool) (xs : list A) :
  (length (List.filter p xs) <= length xs)%nat.
Proof.
  induction xs as [| x xs IH]; simpl; [lia |].
  destruct (p x); simpl; lia.
Qed.

(** The three tests of the source are the three classes. *)
Lemma started_test m :
  leb 60 m = RiskSpec.appearance_eqb (RiskSpec.classify m) RiskSpec.Started.
Proof.
  unfold leb, RiskSpec.classify.
  destruct (Qle_bool 60 m); [reflexivity |].
  destruct (Qle_bool m 0); [destruct (Qeq_bool m 0) |]; reflexivity.
Qed.

Lemma cameo_test m :
  ltb 0 m && ltb m 60
  = RiskSpec.appearance_eqb (RiskSpec.classify m) RiskSpec.Cameo.
Proof.
  unfold ltb, RiskSpec.classify.
  destruct (Qle_bool 60 m) eqn:E60; simpl.
  - apply andb_false_r.
  - destruct (Qle_bool m 0); [destruct (Qeq_bool m 0) |]; reflexivity.
Qed.

Lemma dnp_test m :
  eqb m 0 = RiskSpec.appearance_eqb (RiskSpec.classify m) RiskSpec.DidNotPlay.
Proof.
  unfold eqb, RiskSpec.classify.
  destruct (Qle_bool 60 m) eqn:E60.
  - apply Qle_bool_iff in E60. apply eqb_neq. lra.
  - destruct (Qle_bool m 0) eqn:E0.
    + destruct (Qeq_bool m 0); reflexivity.
    + simpl. apply eqb_neq. intros H.
      assert (Qle_bool m 0 = true) by (apply Qle_bool_iff; lra). congruence.
Qed.

Lemma filter_ext_bool {A : Type} (p q : A -> bool) (xs : list A) :
  (forall x, p x = q x) -> List.filter p xs = List.filter q xs.
Proof.
  intros H. induction xs as [| x xs IH]; simpl; [reflexivity |].
  rewrite H, IH. reflexivity.
Qed.

(** The nested [max(0, min(1, x))] is the clamp to the unit interval. *)
Lemma max_min_clamp x : max2 0 (min2 1 x) == RiskSpec.clamp 0 1 x.
Proof.
  unfold max2, min2, RiskSpec.clamp.
  destruct (ltb x 1) eqn:E1.
  - apply ltb_lt in E1.
    destruct (ltb 0 x) eqn:E0.
    + apply ltb_lt in E0.
      destruct (Qle_bool x 0) eqn:F0; [apply Qle_bool_iff in F0; lra |].
      destruct (Qle_bool 1 x) eqn:F1; [apply Qle_bool_iff in F1; lra |].
      reflexivity.
    + apply ltb_ge in E0.
      destruct (Qle_bool x 0) eqn:F0; [reflexivity |].
      apply Qle_bool_iff in E0. unfold Qle_bool in *. congruence.
  - apply ltb_ge in E1.
    destruct (ltb 0 1) eqn:E0; [| apply ltb_ge in E0; lra].
    destruct (Qle_bool x 0) eqn:F0; [apply Qle_bool_iff in F0; lra |].
    destruct (Qle_bool 1 x) eqn:F1; [reflexivity |].
    apply Qle_bool_iff in E1. congruence.
Qed.

Lemma clamp_range x : 0 <= RiskSpec.clamp 0 1 x <= 1.
Proof.
  unfold RiskSpec.clamp.
  destruct (Qle_bool x 0) eqn:F0; [lra |].
  destruct (Qle_bool 1 x) eqn:F1; [lra |].
  assert (~ x <= 0) by (intros H; apply Qle_bool_iff in H; congruence).
  assert (~ 1 <= x) by (intros H'; apply Qle_bool_iff in H'; congruence).
  lra.
Qed.

Lemma clamp_mono x y : x <= y -> RiskSpec.clamp 0 1 x <= RiskSpec.clamp 0 1 y.
Proof.
  intros Hxy. unfold RiskSpec.clamp.
  destruct (Qle_bool x 0) eqn:Fx0; destruct (Qle_bool y 0) eqn:Fy0;
    destruct (Qle_bool 1 x) eqn:Fx1; destruct (Qle_bool 1 y) eqn:Fy1;
    repeat match goal with
           | H : Qle_bool _ _ = true |- _ => apply Qle_bool_iff in H
           | H : Qle_bool ?a ?b = false |- _ =>
             assert (b < a) by (apply ltb_lt; unfold ltb; rewrite H; reflexivity);
             clear H
           end; lra.
Qed.

Lemma clamp_comp x y : x == y -> RiskSpec.clamp 0 1 x == RiskSpec.clamp 0 1 y.
Proof.
  intros H. apply Qle_antisym; apply clamp_mono; lra.
Qed.

Lemma truediv_len {A : Type} (a : Q) (xs : list A) :
  xs <> [] -> truediv a (inject_Z (len xs)) = Ok (a / inject_Z (len xs)).
Proof.
  intros Hne. unfold truediv.
  destruct (eqb (inject_Z (len xs)) 0) eqn:E; [| reflexivity].
  apply eqb_eq in E. exfalso.
  destruct xs as [| x xs]; [congruence |].
  unfold len in E. simpl length in E.
  assert (0 < inject_Z (Z.of_nat (S (length xs)))).
  { unfold Qlt. simpl. lia. }
  lra.
Qed.

Lemma benching_value (ms : list Q) :
  ms <> [] ->
  compute_benching_probability ms
  = Ok (max2 0 (min2 1
      (0.6 * (inject_Z (count_if (fun m => eqb m 0) ms) / inject_Z (len ms))
       + 0.3 * (inject_Z (count_if (fun m => ltb 0 m && ltb m 60) ms) / inject_Z (len ms))
       + 0.1 * (1 - inject_Z (count_if (fun m => leb 60 m) ms) / inject_Z (len ms))))).
Proof.
  intros Hne. unfold compute_benching_probability.
  destruct ms as [| m ms']; [congruence |].
  rewrite !(truediv_len _ (m :: ms')) by assumption. reflexivity.
Qed.

Lemma rate_count (p : Q -> bool) (a : RiskSpec.appearance) (ms : list Q) :
  (forall m, p m = RiskSpec.appearance_eqb (RiskSpec.classify m) a) ->
  inject_Z (count_if p ms) / inject_Z (len ms) = RiskSpec.rate a ms.
Proof.
  intros H. unfold RiskSpec.rate, len.
  rewrite count_if_filter, (filter_ext_bool _ _ ms H). reflexivity.
Qed.


(** C3. For every non-empty minutes history the benching probability is
    0.6 times the did-not-play rate plus 0.3 times the cameo rate plus 0.1
    times one minus the start rate, clamped to the unit interval (a start
    is 60 minutes or more, a cameo is strictly between 0 and 60, a no-show
    is exactly 0); for the empty history it is exactly 1; in every case the
    call returns a value, and this value lies between 0 and 1. *)
Theorem benching_probability_contract :
  compute_benching_probability [] = Ok 1
  /\ forall ms : list Q,
       exists p, compute_benching_probability ms = Ok p
                 /\ 0 <= p <= 1
                 /\ (ms <> [] -> p == RiskSpec.benching_probability ms).
Proof.
  split; [reflexivity |].
  intros ms. destruct ms as [| m ms'].
  - exists 1. repeat split; [lra | lra | congruence].
  - set (ms := m :: ms').
    assert (Hne : ms <> []) by discriminate.
    eexists. split; [apply (benching_value ms Hne) |].
    rewrite (rate_count (fun m => eqb m 0) RiskSpec.DidNotPlay ms dnp_test),
            (rate_count (fun m => ltb 0 m && ltb m 60) RiskSpec.Cameo ms cameo_test),
            (rate_count (fun m => leb 60 m) RiskSpec.Started ms started_test).
    split.
    + rewrite max_min_clamp. apply clamp_range.
    + intros _. apply max_min_clamp.
Qed.

Lemma benching_probability_contract_witness :
  exists p, compute_benching_probability [90; 0; 45; 90; 90] = Ok p
            /\ p == RiskSpec.benching_probability [90; 0; 45; 90; 90].
Proof.
  destruct (proj2 benching_probability_contract [90; 0; 45; 90; 90])
    as (p & Hp & _ & Hspec).
  exists p. split; [exact Hp | apply Hspec; discriminate].
Defined.

(** C2, as the code has it. On five full matches the start rate is 1 and
    both other rates are 0, so the benching probability is
    0.6 * 0 + 0.3 * 0 + 0.1 * (1 - 1), that is 0. *)
Theorem benching_five_full_matches :
  exists p, compute_benching_probability [90; 90; 90; 90; 90] = Ok p /\ p == 0.
Proof.
  eexists. split; [vm_compute; reflexivity | reflexivity].
Qed.

(** C2 as stated fails: the value on [90, 90, 90, 90, 90] is not 0.1. *)
Lemma benching_five_full_matches_not_tenth :
  ~ exists p, compute_benching_probability [90; 90; 90; 90; 90] = Ok p /\ p == 0.1.
Proof.
  intros (p & Hp & H). vm_compute in Hp. injection Hp as <-.
  revert H. vm_compute. discriminate.
Qed.

Lemma risk_score_clamp b v (i : Z) :
  compute_risk_score b v i == RiskSpec.risk_score b v i.
Proof.
  unfold compute_risk_score, RiskSpec.risk_score.
  rewrite max_min_clamp. apply clamp_comp.
  rewrite (max_min_clamp v). reflexivity.
Qed.

(** C4. The risk score is 0.55 times the benching probability plus 0.30
    times the volatility clamped to the unit interval plus 0.15 times the
    injury flag, the whole clamped to the unit interval; it therefore lies
    between 0 and 1 and does not decrease when one of its three arguments
    grows while the other two are kept. *)
Theorem risk_score_blend_bounded_monotone (b b' v v' : Q) (i i' : Z) :
  b <= b' -> v <= v' -> (i <= i')%Z ->
  compute_risk_score b v i == RiskSpec.risk_score b v i
  /\ 0 <= compute_risk_score b v i <= 1
  /\ compute_risk_score b v i <= compute_risk_score b' v i
  /\ compute_risk_score b v i <= compute_risk_score b v' i
  /\ compute_risk_score b v i <= compute_risk_score b v i'.
Proof.
  intros Hb Hv Hi.
  assert (Hi' : inject_Z i <= inject_Z i') by (rewrite <- Zle_Qle; exact Hi).
  pose proof (clamp_mono v v' Hv) as Hcv.
  split; [apply risk_score_clamp |].
  rewrite !risk_score_clamp. unfold RiskSpec.risk_score.
  split; [apply clamp_range |].
  repeat split; apply clamp_mono; lra.
Qed.

Lemma risk_score_blend_bounded_monotone_witness :
  compute_risk_score 0.2 0.4 0 <= compute_risk_score 0.6 0.4 0
  /\ compute_risk_score 0.2 0.4 0 <= compute_risk_score 0.2 1.5 0
  /\ compute_risk_score 0.2 0.4 0 <= compute_risk_score 0.2 0.4 1.
Proof.
  assert (H1 : 0.2 <= 0.6) by (vm_compute; discriminate).
  assert (H2 : 0.4 <= 1.5) by (vm_compute; discriminate).
  assert (H3 : (0 <= 1)%Z) by lia.
  exact (proj2 (proj2 (risk_score_blend_bounded_monotone 0.2 0.6 0.4 1.5 0 1 H1 H2 H3))).
Defined.

End RiskFacts.

(** ** Loops and sorting *)

Module LoopFacts.
Import Py PyLoops.

Lemma comprehension_Ok {A B : Type} (f : A -> result B) (xs : list A) (ys : list B) :
  comprehension f xs = Ok ys -> Forall2 (fun x y => f x = Ok y) xs ys.
Proof.
  revert ys. induction xs as [| x xs IH]; intros ys H; simpl in H.
  - injection H as <-. constructor.
  - destruct (f x) as [y |] eqn:Ey; simpl in H; [| discriminate].
    destruct (comprehension f xs) as [ys' |] eqn:Eys; simpl in H; [| discriminate].
    injection H as <-. constructor; [exact Ey | apply IH; reflexivity].
Qed.

Lemma comprehension_elem_of {A B : Type} (f : A -> result B) (xs : list A) (ys : list B)
    (y : B) :
  comprehension f xs = Ok ys -> y ∈ ys -> exists x, x ∈ xs /\ f x = Ok y.
Proof.
  intros H Hy. apply comprehension_Ok in H.
  apply list_elem_of_lookup in Hy as [i Hi].
  destruct (Forall2_lookup_r _ _ _ _ _ H Hi) as (x & Hx & Hf).
  exists x. split; [eapply list_elem_of_lookup_2; exact Hx | exact Hf].
Qed.


Lemma insert_by_Permutation {A : Type} (lt : A -> A -> bool) (x : A) (l : list A) :
  insert_by lt x l ≡ₚ x :: l.
Proof.
  induction l as [| y l IH]; simpl; [reflexivity |].
  destruct (lt y x); [| reflexivity].
  rewrite IH. apply perm_swap.
Qed.

Lemma sort_by_Permutation {A : Type} (lt : A -> A -> bool) (l : list A) :
  sort_by lt l ≡ₚ l.
Proof.
  induction l as [| x l IH]; simpl; [reflexivity |].
  rewrite insert_by_Permutation, IH. reflexivity.
Qed.

Lemma sort_by_elem_of {A : Type} (lt : A -> A -> bool) (l : list A) (x : A) :
  x ∈ sort_by lt l <-> x ∈ l.
Proof. rewrite sort_by_Permutation. reflexivity. Qed.

Lemma sort_by_length {A : Type} (lt : A -> A -> bool) (l : list A) :
  length (sort_by lt l) = length l.
Proof. apply Permutation_length, sort_by_Permutation. Qed.

Lemma filter_nil {A : Type} (p : A -> bool) (l : list A) :
  (forall x, x ∈ l -> p x = false) -> List.filter p l = [].
Proof.
  induction l as [| x l IH]; intros H; simpl; [reflexivity |].
  rewrite (H x) by left. apply IH. intros y Hy. apply H. right. exact Hy.
Qed.

Lemma elem_of_filter_bool {A : Type} (p : A -> bool) (l : list A) (x : A) :
  x ∈ List.filter p l <-> x ∈ l /\ p x = true.
Proof. rewrite !list_elem_of_In. apply List.filter_In. Qed.

Lemma NoDup_filter_bool {A : Type} (p : A -> bool) (l : list A) :
  NoDup l -> NoDup (List.filter p l).
Proof.
  induction 1 as [| x l Hx Hl IH]; simpl; [constructor |].
  destruct (p x); [| exact IH].
  constructor; [| exact IH].
  intros H. apply elem_of_filter_bool in H as [H _]. contradiction.
Qed.

Lemma elem_of_map {A B : Type} (f : A -> B) (l : list A) (y : B) :
  y ∈ map f l <-> exists x, f x = y /\ x ∈ l.
Proof.
  rewrite list_elem_of_In, List.in_map_iff.
  split; intros (x & Hx & Hin); exists x; split; try exact Hx;
    apply list_elem_of_In; exact Hin.
Qed.

Section SortBy.
Context {A : Type} (lt : A -> A -> bool).

Hypothesis lt_asym : forall x y, lt x y = true -> lt y x = false.

Lemma insert_by_HdRel (x y : A) (l : list A) :
  (not_after lt) y x -> HdRel (not_after lt) y l -> HdRel (not_after lt) y (insert_by lt x l).
Proof.
  intros Hyx Hl. destruct l as [| z l]; simpl.
  - constructor. exact Hyx.
  - destruct (lt z x); constructor; [inversion Hl; assumption | exact Hyx].
Qed.

Lemma insert_by_Sorted (x : A) (l : list A) :
  Sorted (not_after lt) l -> Sorted (not_after lt) (insert_by lt x l).
Proof.
  induction l as [| y l IH]; intros Hl; simpl.
  - repeat constructor.
  - inversion Hl as [| ? ? Hl' Hhd]; subst.
    destruct (lt y x) eqn:E.
    + constructor; [apply IH; exact Hl' |].
      apply insert_by_HdRel; [apply lt_asym; exact E | exact Hhd].
    + constructor; [exact Hl | constructor; exact E].
Qed.

Lemma sort_by_Sorted (l : list A) : Sorted (not_after lt) (sort_by lt l).
Proof.
  induction l as [| x l IH]; simpl; [constructor | apply insert_by_Sorted, IH].
Qed.

Lemma sort_by_fixed (l : list A) : Sorted (not_after lt) l -> sort_by lt l = l.
Proof.
  induction l as [| x l IH]; intros Hl; simpl; [reflexivity |].
  inversion Hl as [| ? ? Hl' Hhd]; subst.
  rewrite (IH Hl').
  destruct Hhd as [| y l' Hxy]; simpl; [reflexivity |].
  unfold not_after in Hxy. rewrite Hxy. reflexivity.
Qed.

Lemma sort_by_idempotent (l : list A) : sort_by lt (sort_by lt l) = sort_by lt l.
Proof. apply sort_by_fixed, sort_by_Sorted. Qed.

End SortBy.

Lemma Sorted_weaken {A : Type} (R R' : A -> A -> Prop) (l : list A) :
  (forall x y, R x y -> R' x y) -> Sorted R l -> Sorted R' l.
Proof.
  intros HR. induction 1 as [| x l Hl IH Hhd]; constructor; [exact IH |].
  destruct Hhd; constructor. apply HR. assumption.
Qed.

Lemma sort_by_ext {A : Type} (lt lt' : A -> A -> bool) (l : list A) :
  (forall x y, lt x y = lt' x y) -> sort_by lt l = sort_by lt' l.
Proof.
  intros H. induction l as [| x l IH]; simpl; [reflexivity |].
  rewrite IH. generalize (sort_by lt' l). intros k.
  induction k as [| y k IHk]; simpl; [reflexivity |].
  rewrite H, IHk. reflexivity.
Qed.

Lemma for_each_invariant {S A : Type} (I : S -> Prop) (body : S -> A -> result S)
    (xs : list A) (s : S) :
  I s ->
  (forall s x, x ∈ xs -> I s -> exists s', body s x = Ok s' /\ I s') ->
  exists s', for_each body xs s = Ok s' /\ I s'.
Proof.
  revert s. induction xs as [| x xs IH]; intros s Hs Hbody; simpl.
  - exists s. split; [reflexivity | exact Hs].
  - destruct (Hbody s x) as (s1 & -> & Hs1); [left | exact Hs |]. cbn [bind].
    apply IH; [exact Hs1 |].
    intros s2 y Hy. apply Hbody. right. exact Hy.
Qed.

End LoopFacts.

(** ** The feature table *)

Module FeatureFacts.
Import Py PyLoops PyFacts LoopFacts RiskFacts BuildFeatureTable FeatureSpec.




Section Build.
Variable sqrt : Q -> Q.
Variable to_datetime : list (option string) -> nat -> option Z.


(** The horizon map is built without an error: its one division has a
    positive divisor. *)
Lemma _build_horizon_map_total (team_fixtures : list TeamFixture) (horizon : Z) :
  exists horizon_map, _build_horizon_map team_fixtures horizon = Ok horizon_map.
Proof.
  unfold _build_horizon_map.
  destruct (for_each_invariant (fun _ => True)
              (fun horizon_map team_id =>
                 for_each (_build_horizon_map_body
                             (event_stats (team_group team_id team_fixtures))
                             horizon team_id)
                          (sort_by Z.ltb
                             (map fst (map_to_list
                                         (event_stats (team_group team_id team_fixtures)))))
                          horizon_map)
              (team_ids team_fixtures) ∅ I) as (hm & Hhm & _).
  - intros hm team_id _ _.
    apply (for_each_invariant (fun _ => True)); [exact I |].
    intros hm' event _ _. unfold _build_horizon_map_body.
    destruct (horizon_totals _ event horizon) as [[total_fixtures total_home] weighted].
    destruct (0 <? total_fixtures)%Z eqn:E.
    + apply Z.ltb_lt in E. unfold truediv.
      rewrite (proj2 (eqb_neq (inject_Z total_fixtures) 0)).
      * cbn [bind]. eexists. split; [reflexivity | exact I].
      * intros H. assert (0 < inject_Z total_fixtures) by (rewrite <- (Zlt_Qlt 0); exact E).
        lra.
    + cbn [bind]. eexists. split; [reflexivity | exact I].
  - exists hm. exact Hhm.
Qed.

Lemma build_maps_total players team_fixtures horizon :
  exists maps, build_maps players team_fixtures horizon = Ok maps.
Proof.
  unfold build_maps.
  destruct (_build_horizon_map_total team_fixtures (Z.max 1 horizon)) as [hm ->].
  cbn [bind]. eexists. reflexivity.
Qed.

Lemma build_maps_dgw players team_fixtures horizon maps :
  build_maps players team_fixtures horizon = Ok maps ->
  dgw_count_map maps = build_dgw_count_map team_fixtures.
Proof.
  unfold build_maps.
  destruct (_build_horizon_map team_fixtures (Z.max 1 horizon)); cbn [bind];
    [| discriminate].
  intros H. injection H as <-. reflexivity.
Qed.

Lemma build_feature_table_Ok db_path output_path horizon include_finished fs n fs' :
  build_feature_table sqrt to_datetime db_path output_path horizon include_finished fs
  = (Ok n, fs') ->
  exists db maps feature_rows,
    fs !! db_path = Some (SqliteFile db)
    /\ players db <> [] /\ fixtures db <> []
    /\ target_team_fixtures include_finished
         (_build_team_fixture_rows to_datetime (fixtures db)) <> []
    /\ run_of sqrt to_datetime db horizon include_finished maps feature_rows
    /\ fs' = <[output_path := ParquetFile (sort_by feature_lt feature_rows)]> fs.
Proof.
  unfold build_feature_table, io_bind, path_exists, read_tables, io_raise, io_lift,
    to_parquet, io_ret. cbv beta iota.
  destruct (fs !! db_path) as [[db | rows] |] eqn:Efs.
  - rewrite bool_decide_eq_true_2 by eauto. cbv beta iota delta [negb]. rewrite Efs.
    cbv beta iota.
    destruct (bool_decide (players db = [])) eqn:Ep; cbn [orb];
      [intros H; discriminate H |].
    destruct (bool_decide (fixtures db = [])) eqn:Ef; [intros H; discriminate H |].
    destruct (build_maps _ _ _) as [maps |] eqn:Em; [| intros H; discriminate H].
    destruct (bool_decide (target_team_fixtures include_finished
                (_build_team_fixture_rows to_datetime (fixtures db)) = [])) eqn:Et;
      [intros H; discriminate H |].
    destruct (comprehension _ _) as [feature_rows |] eqn:Ec;
      [| intros H; discriminate H].
    intros H. injection H as _ <-.
    exists db, maps, feature_rows.
    apply bool_decide_eq_false in Ep, Ef, Et.
    unfold run_of. repeat split; try assumption.
  - rewrite bool_decide_eq_true_2 by eauto. cbv beta iota delta [negb]. rewrite Efs.
    intros H; discriminate H.
  - rewrite bool_decide_eq_false_2 by (intros [? ?]; discriminate).
    cbn [negb]. intros H; discriminate H.
Qed.

Lemma team_fixture_origin (fixtures : list FixtureRow) (r : TeamFixture) :
  r ∈ _build_team_fixture_rows to_datetime fixtures ->
  exists f, f ∈ fixtures
            /\ tf_event r = default 0%Z (f_event f)
            /\ tf_finished r = default 0%Z (f_finished f).
Proof.
  unfold _build_team_fixture_rows. intros H.
  apply elem_of_lookup_imap in H as (i & y & -> & Hy).
  apply list_elem_of_lookup_2 in Hy.
  apply elem_of_app in Hy as [Hy | Hy];
    apply elem_of_map in Hy as (f & <- & Hf); exists f; repeat split; exact Hf.
Qed.

Lemma target_team_fixtures_nil (include_finished : bool) (fixtures : list FixtureRow) :
  no_target_fixture include_finished fixtures ->
  target_team_fixtures include_finished (_build_team_fixture_rows to_datetime fixtures) = [].
Proof.
  intros Hno. unfold target_team_fixtures.
  apply filter_nil. intros r Hr.
  assert (Hr' : r ∈ _build_team_fixture_rows to_datetime fixtures
                /\ (include_finished = false -> tf_finished r = 0%Z)).
  { destruct include_finished.
    - split; [exact Hr | discriminate].
    - apply elem_of_filter_bool in Hr as [Hr Hfin]. split; [exact Hr |].
      intros _. apply Z.eqb_eq. exact Hfin. }
  destruct Hr' as [Hin Hfin].
  destruct (team_fixture_origin _ _ Hin) as (f & Hf & Hev & Hfi).
  apply Z.ltb_ge.
  destruct (Hno f Hf) as [[Hincl Hne] | Hle]; [| lia].
  exfalso. apply Hne. rewrite <- Hfi. apply Hfin. exact Hincl.
Qed.

(** C9. When the players table or the fixtures table is empty, or when no
    fixture passes the filter on the target fixtures, the run raises an
    error and leaves every file as it was: nothing is written. *)
Theorem empty_sources_abort db_path output_path horizon include_finished fs db :
  fs !! db_path = Some (SqliteFile db) ->
  players db = [] \/ fixtures db = []
  \/ no_target_fixture include_finished (fixtures db) ->
  exists msg,
    build_feature_table sqrt to_datetime db_path output_path horizon include_finished fs
    = (Raise (ValueError msg), fs).
Proof.
  intros Efs Hempty.
  unfold build_feature_table, io_bind, path_exists, read_tables, io_raise. cbv beta iota.
  rewrite Efs. rewrite bool_decide_eq_true_2 by eauto.
  cbv beta iota delta [negb]. rewrite Efs. cbv beta iota.
  destruct (bool_decide (players db = [])) eqn:Ep; cbn [orb]; [eexists; reflexivity |].
  destruct (bool_decide (fixtures db = [])) eqn:Ef; [eexists; reflexivity |].
  apply bool_decide_eq_false in Ep, Ef.
  destruct Hempty as [H | [H | H]]; [contradiction | contradiction |].
  unfold io_lift.
  destruct (build_maps_total (players db)
              (_build_team_fixture_rows to_datetime (fixtures db)) horizon) as [maps ->].
  rewrite (target_team_fixtures_nil _ _ H).
  rewrite bool_decide_eq_true_2 by reflexivity.
  eexists; reflexivity.
Qed.

Ltac step_bind :=
  match goal with
  | |- context [bind ?m _] =>
    let E := fresh "E" in
    destruct m eqn:E; cbn [bind]; [| intros ?; discriminate]
  end.

Lemma feature_row_from_prior_inv horizon maps p r prior row :
  feature_row_from_prior sqrt horizon maps (p, r) prior = Ok row ->
  statistics_of sqrt prior p row
  /\ is_dgw row = (if (1 <? dgw_count_in_event row)%Z then 1 else 0)%Z
  /\ dgw_count_in_event row = default 1%Z (dgw_count_map maps !! (p_team_id p, tf_event r))
  /\ player_id row = p_player_id p
  /\ fixture_id row = tf_fixture_id r
  /\ target_event row = tf_event r.
Proof.
  unfold feature_row_from_prior, statistics_of.
  destruct (default (0%Z, 0, 0%Z) (horizon_map maps !! (p_team_id p, tf_event r)))
    as [[hc ha] hh].
  repeat step_bind.
  intros H. injection H as <-. cbn.
  unfold truediv in *. simpl in *.
  match goal with H : Ok _ = Ok _ |- _ => injection H as <- end.
  repeat split; try reflexivity; try assumption.
  eexists. split; reflexivity.
Qed.

Lemma group_by_player_lookup (history : list HistoryRow) (pid : Z) :
  default [] (group_by_player history !! pid)
  = List.filter (fun r => (hr_player_id r =? pid)%Z) history.
Proof.
  unfold group_by_player.
  enough (G : forall g : gmap Z (list HistoryRow),
             default [] (foldl (fun g r =>
                                  <[hr_player_id r := default [] (g !! hr_player_id r) ++ [r]]> g)
                               g history !! pid)
             = default [] (g !! pid)
               ++ List.filter (fun r => (hr_player_id r =? pid)%Z) history).
  { rewrite G, lookup_empty. reflexivity. }
  induction history as [| r history IH]; intros g; simpl.
  - rewrite app_nil_r. reflexivity.
  - rewrite IH. destruct (hr_player_id r =? pid)%Z eqn:E.
    + apply Z.eqb_eq in E. rewrite E, lookup_insert_eq. simpl.
      rewrite <- app_assoc. reflexivity.
    + apply Z.eqb_neq in E. rewrite lookup_insert_ne by exact E. reflexivity.
Qed.

Lemma player_history_lookup (history : list HistoryRow) (pid : Z) :
  default [] (build_player_history history !! pid)
  = map to_match
        (sort_by history_lt (List.filter (fun r => (hr_player_id r =? pid)%Z) history)).
Proof.
  unfold build_player_history. rewrite lookup_fmap.
  rewrite <- group_by_player_lookup.
  destruct (group_by_player history !! pid); reflexivity.
Qed.

(** The records used for a target are records of the player of the target,
    and each is strictly prior to the target. *)
Lemma prior_matches_strict (history : list HistoryRow) (p : PlayerRow) (r : TeamFixture)
    (h : Match) :
  h ∈ prior_matches (build_player_history history) (p, r) ->
  strictly_before h r
  /\ exists s, s ∈ history /\ hr_player_id s = p_player_id p /\ h = to_match s.
Proof.
  unfold prior_matches. cbn [fst snd]. rewrite player_history_lookup.
  intros H. apply elem_of_filter_bool in H as [Hin Hprior]. split.
  - unfold _is_prior_match in Hprior. unfold strictly_before.
    destruct (m_kickoff_dt h), (tf_kickoff_dt r); lia.
  - apply elem_of_map in Hin as (s & <- & Hs).
    apply sort_by_elem_of, elem_of_filter_bool in Hs as [Hs Hid].
    exists s. repeat split; [exact Hs | apply Z.eqb_eq; exact Hid].
Qed.

(** Conversely every record of the player that is strictly prior to the
    target is used. *)
Lemma prior_matches_complete (history : list HistoryRow) (p : PlayerRow) (r : TeamFixture)
    (s : HistoryRow) :
  s ∈ history -> hr_player_id s = p_player_id p -> strictly_before (to_match s) r ->
  to_match s ∈ prior_matches (build_player_history history) (p, r).
Proof.
  intros Hs Hid Hbefore.
  unfold prior_matches. cbn [fst snd]. rewrite player_history_lookup.
  apply elem_of_filter_bool. split.
  - apply elem_of_map. exists s. split; [reflexivity |].
    apply sort_by_elem_of, elem_of_filter_bool. split; [exact Hs |].
    apply Z.eqb_eq. exact Hid.
  - unfold strictly_before in Hbefore. unfold _is_prior_match.
    destruct (m_kickoff_dt (to_match s)), (tf_kickoff_dt r); lia.
Qed.

Lemma merge_on_team_id_elem_of (players : list PlayerRow) (target : list TeamFixture)
    (x : PlayerRow * TeamFixture) :
  x ∈ merge_on_team_id players target ->
  fst x ∈ players /\ snd x ∈ target /\ tf_team_id (snd x) = p_team_id (fst x).
Proof.
  unfold merge_on_team_id. rewrite list_elem_of_In, List.in_flat_map.
  intros (p & Hp & Hx). apply list_elem_of_In in Hp, Hx.
  apply elem_of_map in Hx as (r & <- & Hr).
  apply elem_of_filter_bool in Hr as [Hr Hid]. cbn [fst snd].
  repeat split; [exact Hp | exact Hr | apply Z.eqb_eq; exact Hid].
Qed.

(** Every row that a completed run writes is the row of a target pair. *)
Lemma written_row_origin db horizon include_finished maps feature_rows row :
  run_of sqrt to_datetime db horizon include_finished maps feature_rows ->
  row ∈ sort_by feature_lt feature_rows ->
  exists p r,
    p ∈ players db
    /\ r ∈ target_team_fixtures include_finished
             (_build_team_fixture_rows to_datetime (fixtures db))
    /\ tf_team_id r = p_team_id p
    /\ feature_row sqrt horizon maps
         (build_player_history (convert_history to_datetime (gw_player_stats db)))
         (p, r) = Ok row.
Proof.
  unfold run_of. intros [_ Hrun] Hrow.
  apply sort_by_elem_of in Hrow.
  destruct (comprehension_elem_of _ _ _ _ Hrun Hrow) as ([p r] & Hx & Hf).
  apply merge_on_team_id_elem_of in Hx as (Hp & Hr & Hid).
  exists p, r. repeat split; assumption.
Qed.


(** C8. In every row that a run writes, [is_dgw] is 1 exactly when
    [dgw_count_in_event] is strictly greater than 1, and 0 otherwise. *)
Theorem is_dgw_iff_double_count db_path output_path horizon include_finished fs n fs' :
  build_feature_table sqrt to_datetime db_path output_path horizon include_finished fs
  = (Ok n, fs') ->
  exists rows,
    fs' !! output_path = Some (ParquetFile rows)
    /\ forall row, row ∈ rows ->
         (is_dgw row = 1%Z <-> (1 < dgw_count_in_event row)%Z)
         /\ (is_dgw row = 0%Z <-> (dgw_count_in_event row <= 1)%Z).
Proof.
  intros H.
  apply build_feature_table_Ok in H
    as (db & maps & feature_rows & _ & _ & _ & _ & Hrun & ->).
  eexists. split; [apply lookup_insert_eq |].
  intros row Hrow.
  destruct (written_row_origin _ _ _ _ _ _ Hrun Hrow) as (p & r & _ & _ & _ & Hf).
  apply feature_row_from_prior_inv in Hf as (_ & -> & _).
  destruct (1 <? dgw_count_in_event row)%Z eqn:E;
    [apply Z.ltb_lt in E | apply Z.ltb_ge in E]; split; split; intros; lia.
Qed.

(** C1. Every row that a run writes is the row of a player and of a target
    fixture of the team of this player, and its rolling means, its two
    volatilities, its benching probability and its last price are computed
    from a list of records of this player each of which is strictly prior to
    the target: by the kickoff timestamps when both are known, by the round
    and event numbers otherwise. *)
Theorem features_use_strictly_prior_records
    db_path output_path horizon include_finished fs n fs' :
  build_feature_table sqrt to_datetime db_path output_path horizon include_finished fs
  = (Ok n, fs') ->
  exists db rows,
    fs !! db_path = Some (SqliteFile db)
    /\ fs' !! output_path = Some (ParquetFile rows)
    /\ forall row, row ∈ rows ->
       exists p r prior,
         p ∈ players db
         /\ r ∈ target_team_fixtures include_finished
                  (_build_team_fixture_rows to_datetime (fixtures db))
         /\ tf_team_id r = p_team_id p
         /\ player_id row = p_player_id p
         /\ fixture_id row = tf_fixture_id r
         /\ target_event row = tf_event r
         /\ statistics_of sqrt prior p row
         /\ forall h, h ∈ prior ->
              strictly_before h r
              /\ exists s, s ∈ convert_history to_datetime (gw_player_stats db)
                           /\ hr_player_id s = p_player_id p
                           /\ h = to_match s.
Proof.
  intros H.
  apply build_feature_table_Ok in H
    as (db & maps & feature_rows & Efs & _ & _ & _ & Hrun & ->).
  exists db. eexists. split; [exact Efs |]. split; [apply lookup_insert_eq |].
  intros row Hrow.
  destruct (written_row_origin _ _ _ _ _ _ Hrun Hrow) as (p & r & Hp & Hr & Hid & Hf).
  unfold feature_row in Hf.
  apply feature_row_from_prior_inv in Hf as (Hstat & _ & _ & Hpid & Hfid & Hev).
  exists p, r, (prior_matches
                  (build_player_history (convert_history to_datetime (gw_player_stats db)))
                  (p, r)).
  split; [exact Hp |]. split; [exact Hr |]. split; [exact Hid |].
  split; [exact Hpid |]. split; [exact Hfid |]. split; [exact Hev |].
  split; [exact Hstat |].
  intros h Hh. apply (prior_matches_strict _ _ _ _ Hh).
Qed.

End Build.

Lemma sample_run_completes :
  exists n fs',
    build_feature_table Examples.sqrt_approx Examples.iso_timestamp
      "data/fpl_mvp.db" "data/player_gw_features.parquet" 3 false Examples.sample_files
    = (Ok n, fs').
Proof. vm_compute. eexists _, _. reflexivity. Qed.

Lemma empty_sources_abort_witness :
  exists msg,
    build_feature_table Examples.sqrt_approx Examples.iso_timestamp
      "data/fpl_mvp.db" "data/player_gw_features.parquet" 3 false Examples.finished_files
    = (Raise (ValueError msg), Examples.finished_files).
Proof.
  apply (empty_sources_abort Examples.sqrt_approx Examples.iso_timestamp
           "data/fpl_mvp.db" "data/player_gw_features.parquet" 3 false
           Examples.finished_files Examples.finished_db).
  - reflexivity.
  - right. right. intros f Hf.
    apply list_elem_of_singleton in Hf as ->.
    left. split; [reflexivity | discriminate].
Defined.

Lemma is_dgw_iff_double_count_witness :
  exists n fs' rows,
    build_feature_table Examples.sqrt_approx Examples.iso_timestamp
      "data/fpl_mvp.db" "data/player_gw_features.parquet" 3 false Examples.sample_files
    = (Ok n, fs')
    /\ fs' !! "data/player_gw_features.parquet" = Some (ParquetFile rows)
    /\ forall row, row ∈ rows ->
         (is_dgw row = 1%Z <-> (1 < dgw_count_in_event row)%Z)
         /\ (is_dgw row = 0%Z <-> (dgw_count_in_event row <= 1)%Z).
Proof.
  destruct sample_run_completes as (n & fs' & Hrun).
  destruct (is_dgw_iff_double_count Examples.sqrt_approx Examples.iso_timestamp
              "data/fpl_mvp.db" "data/player_gw_features.parquet" 3 false
              Examples.sample_files n fs' Hrun) as (rows & Hrows & Hall).
  exists n, fs', rows. split; [exact Hrun |]. split; [exact Hrows | exact Hall].
Defined.

Lemma features_use_strictly_prior_records_witness :
  exists n fs' rows,
    build_feature_table Examples.sqrt_approx Examples.iso_timestamp
      "data/fpl_mvp.db" "data/player_gw_features.parquet" 3 false Examples.sample_files
    = (Ok n, fs')
    /\ fs' !! "data/player_gw_features.parquet" = Some (ParquetFile rows)
    /\ forall row, row ∈ rows ->
         exists p r prior,
           player_id row = p_player_id p
           /\ target_event row = tf_event r
           /\ statistics_of Examples.sqrt_approx prior p row
           /\ forall h, h ∈ prior -> strictly_before h r.
Proof.
  destruct sample_run_completes as (n & fs' & Hrun).
  destruct (features_use_strictly_prior_records
              Examples.sqrt_approx Examples.iso_timestamp
              "data/fpl_mvp.db" "data/player_gw_features.parquet" 3 false
              Examples.sample_files n fs' Hrun) as (db & rows & _ & Hrows & Hall).
  exists n, fs', rows. split; [exact Hrun |]. split; [exact Hrows |].
  intros row Hrow.
  destruct (Hall row Hrow) as (p & r & prior & _ & _ & _ & Hp & _ & He & Hs & Hprior).
  exists p, r, prior. split; [exact Hp |]. split; [exact He |]. split; [exact Hs |].
  intros h Hh. apply (Hprior h Hh).
Defined.

End FeatureFacts.

(** ** Normalisation *)

Module NormalizeFacts.
Import Py PyLoops PyFacts LoopFacts Phase2RankPlayers.

Lemma min2_le_l a b : min2 a b <= a.
Proof.
  unfold min2. destruct (ltb b a) eqn:E; [apply ltb_lt in E; lra | lra].
Qed.

Lemma min2_le_r a b : min2 a b <= b.
Proof.
  unfold min2. destruct (ltb b a) eqn:E; [lra | apply ltb_ge in E; lra].
Qed.

Lemma max2_ge_l a b : a <= max2 a b.
Proof.
  unfold max2. destruct (ltb a b) eqn:E; [apply ltb_lt in E; lra | lra].
Qed.

Lemma max2_ge_r a b : b <= max2 a b.
Proof.
  unfold max2. destruct (ltb a b) eqn:E; [lra | apply ltb_ge in E; lra].
Qed.

Lemma min2_cases a b : min2 a b = a \/ min2 a b = b.
Proof. unfold min2. destruct (ltb b a); auto. Qed.

Lemma max2_cases a b : max2 a b = a \/ max2 a b = b.
Proof. unfold max2. destruct (ltb a b); auto. Qed.

Lemma foldl_min2 (vs : list Q) (v : Q) :
  (foldl min2 v vs = v \/ foldl min2 v vs ∈ vs)
  /\ foldl min2 v vs <= v
  /\ forall w, w ∈ vs -> foldl min2 v vs <= w.
Proof.
  revert v. induction vs as [| x vs IH]; intros v; simpl.
  - split; [left; reflexivity |]. split; [lra |]. intros w Hw. inversion Hw.
  - destruct (IH (min2 v x)) as (Hin & Hle & Hall).
    pose proof (min2_le_l v x). pose proof (min2_le_r v x).
    split; [| split].
    + destruct Hin as [-> | Hin]; [| right; right; exact Hin].
      destruct (min2_cases v x) as [-> | ->]; [left; reflexivity | right; left].
    + lra.
    + intros w Hw. apply elem_of_cons in Hw as [-> | Hw]; [lra | apply Hall, Hw].
Qed.

Lemma foldl_max2 (vs : list Q) (v : Q) :
  (foldl max2 v vs = v \/ foldl max2 v vs ∈ vs)
  /\ v <= foldl max2 v vs
  /\ forall w, w ∈ vs -> w <= foldl max2 v vs.
Proof.
  revert v. induction vs as [| x vs IH]; intros v; simpl.
  - split; [left; reflexivity |]. split; [lra |]. intros w Hw. inversion Hw.
  - destruct (IH (max2 v x)) as (Hin & Hle & Hall).
    pose proof (max2_ge_l v x). pose proof (max2_ge_r v x).
    split; [| split].
    + destruct Hin as [-> | Hin]; [| right; right; exact Hin].
      destruct (max2_cases v x) as [-> | ->]; [left; reflexivity | right; left].
    + lra.
    + intros w Hw. apply elem_of_cons in Hw as [-> | Hw]; [lra | apply Hall, Hw].
Qed.

Lemma min_list_spec (values : list Q) :
  values <> [] -> NormalizeSpec.is_min (min_list values) values.
Proof.
  destruct values as [| v vs]; [congruence | intros _].
  unfold NormalizeSpec.is_min, min_list.
  destruct (foldl_min2 vs v) as (Hin & Hle & Hall). split.
  - destruct Hin as [-> | Hin]; [left | right; exact Hin].
  - intros w Hw. apply elem_of_cons in Hw as [-> | Hw]; [exact Hle | apply Hall, Hw].
Qed.

Lemma max_list_spec (values : list Q) :
  values <> [] -> NormalizeSpec.is_max (max_list values) values.
Proof.
  destruct values as [| v vs]; [congruence | intros _].
  unfold NormalizeSpec.is_max, max_list.
  destruct (foldl_max2 vs v) as (Hin & Hle & Hall). split.
  - destruct Hin as [-> | Hin]; [left | right; exact Hin].
  - intros w Hw. apply elem_of_cons in Hw as [-> | Hw]; [exact Hle | apply Hall, Hw].
Qed.

Lemma comprehension_truediv (f : Q -> Q) (d : Q) (values : list Q) :
  ~ d == 0 ->
  comprehension (fun v => truediv (f v) d) values = Ok (map (fun v => f v / d) values).
Proof.
  intros Hd. induction values as [| v vs IH]; simpl; [reflexivity |].
  unfold truediv at 1. rewrite (proj2 (eqb_neq d 0) Hd). cbn [bind].
  rewrite IH. reflexivity.
Qed.

Lemma map_const_replicate {A B : Type} (b : B) (l : list A) :
  map (fun _ => b) l = replicate (length l) b.
Proof. induction l as [| x l IH]; simpl; [reflexivity | rewrite IH; reflexivity]. Qed.

Lemma minmax_normalize_equal (values : list Q) :
  values <> [] -> eqb (max_list values) (min_list values) = true ->
  minmax_normalize values = Ok (replicate (length values) 0.5)
  /\ NormalizeSpec.all_equal values.
Proof.
  intros Hne E. split.
  - unfold minmax_normalize. destruct values as [| v vs]; [congruence |].
    rewrite E. rewrite map_const_replicate. reflexivity.
  - apply eqb_eq in E.
    destruct (min_list_spec values Hne) as [_ Hmin].
    destruct (max_list_spec values Hne) as [_ Hmax].
    intros v w Hv Hw.
    pose proof (Hmin v Hv). pose proof (Hmax v Hv).
    pose proof (Hmin w Hw). pose proof (Hmax w Hw). lra.
Qed.

Lemma minmax_normalize_spread (values : list Q) :
  values <> [] -> eqb (max_list values) (min_list values) = false ->
  minmax_normalize values
  = Ok (map (fun v => (v - min_list values) / (max_list values - min_list values)) values)
  /\ min_list values < max_list values.
Proof.
  intros Hne E.
  assert (Hlt : min_list values < max_list values).
  { apply eqb_neq in E.
    destruct (min_list_spec values Hne) as [Hin Hmin].
    destruct (max_list_spec values Hne) as [_ Hmax].
    pose proof (Hmax _ Hin). lra. }
  split; [| exact Hlt].
  unfold minmax_normalize. destruct values as [| v vs]; [congruence |].
  rewrite E.
  apply (comprehension_truediv (fun x => x - min_list (v :: vs))). lra.
Qed.

Lemma normalized_range (lo hi v : Q) :
  lo < hi -> lo <= v <= hi -> 0 <= (v - lo) / (hi - lo) <= 1.
Proof.
  intros Hlt [Hlo Hhi]. split.
  - apply Qle_shift_div_l; lra.
  - apply Qle_shift_div_r; lra.
Qed.

Lemma minmax_normalize_total (values : list Q) :
  exists out, minmax_normalize values = Ok out.
Proof.
  destruct (decide (values = [])) as [-> | Hne]; [exists []; reflexivity |].
  destruct (eqb (max_list values) (min_list values)) eqn:E.
  - eexists. apply (minmax_normalize_equal values Hne E).
  - eexists. apply (minmax_normalize_spread values Hne E).
Qed.

(** C7. On a non-empty list whose elements are all equal the normalisation
    returns a list of the same length whose elements are all 0.5; on any
    other list it maps each element [v] to [(v - min) / (max - min)]; in
    every case it returns a list of the length of its argument whose
    elements lie between 0 and 1. *)
Theorem minmax_normalize_contract (values : list Q) :
  exists out,
    minmax_normalize values = Ok out
    /\ length out = length values
    /\ (forall o, o ∈ out -> 0 <= o <= 1)
    /\ (NormalizeSpec.all_equal values -> out = replicate (length values) 0.5)
    /\ (~ NormalizeSpec.all_equal values ->
        exists lo hi,
          NormalizeSpec.is_min lo values /\ NormalizeSpec.is_max hi values
          /\ out = map (fun v => (v - lo) / (hi - lo)) values).
Proof.
  destruct (decide (values = [])) as [-> | Hne].
  { exists []. split; [reflexivity |]. split; [reflexivity |].
    split; [intros o Ho; inversion Ho |]. split; [reflexivity |].
    intros Hn. exfalso. apply Hn. intros v w Hv. inversion Hv. }
  destruct (eqb (max_list values) (min_list values)) eqn:E.
  - destruct (minmax_normalize_equal values Hne E) as [Hout Heq].
    eexists. split; [exact Hout |].
    split; [apply length_replicate |].
    split; [| split].
    + intros o Ho. apply elem_of_replicate in Ho as [-> _]. lra.
    + reflexivity.
    + intros Hn. contradiction.
  - destruct (minmax_normalize_spread values Hne E) as [Hout Hlt].
    pose proof (min_list_spec values Hne) as Hmin.
    pose proof (max_list_spec values Hne) as Hmax.
    eexists. split; [exact Hout |].
    split; [apply length_map |].
    split; [| split].
    + intros o Ho. apply elem_of_map in Ho as (v & <- & Hv).
      apply normalized_range; [exact Hlt |].
      split; [apply Hmin, Hv | apply Hmax, Hv].
    + intros Heq. exfalso.
      destruct Hmin as [Hin _], Hmax as [Hin' _].
      pose proof (Heq _ _ Hin Hin'). lra.
    + intros _. exists (min_list values), (max_list values).
      repeat split; try apply Hmin; try apply Hmax.
Qed.

Lemma minmax_normalize_contract_witness :
  minmax_normalize [2; 2; 2] = Ok [0.5; 0.5; 0.5].
Proof.
  destruct (minmax_normalize_contract [2; 2; 2]) as (out & Hout & _ & _ & Heq & _).
  rewrite Hout. f_equal. apply Heq.
  intros v w Hv Hw.
  assert (Hall : forall x, x ∈ [2; 2; 2] -> x = 2).
  { intros x Hx. repeat (apply elem_of_cons in Hx as [-> | Hx]; [reflexivity |]).
    inversion Hx. }
  rewrite (Hall v Hv), (Hall w Hw). reflexivity.
Defined.

End NormalizeFacts.


(** ** Candidates *)

Module CandidateFacts.
Import Py PyLoops PyFacts LoopFacts Phase2RankPlayers.

Lemma lstrip_chars_app (a b : list ascii) (c : ascii) :
  is_space c = false -> lstrip_chars (a ++ c :: b) = lstrip_chars a ++ c :: b.
Proof.
  intros Hc. induction a as [| x a IH]; simpl.
  - rewrite Hc. reflexivity.
  - destruct (is_space x); [exact IH | reflexivity].
Qed.

Lemma lstrip_chars_spaces (a : list ascii) :
  Forall (fun c => is_space c = true) a -> lstrip_chars a = [].
Proof.
  induction 1 as [| x a Hx _ IH]; simpl; [reflexivity |].
  rewrite Hx. exact IH.
Qed.

Lemma lstrip_chars_split (l : list ascii) :
  exists ws, l = ws ++ lstrip_chars l /\ Forall (fun c => is_space c = true) ws.
Proof.
  induction l as [| x l (ws & IH & Hws)]; simpl.
  - exists []. split; [reflexivity | constructor].
  - destruct (is_space x) eqn:Hx.
    + exists (x :: ws). split; [simpl; rewrite <- IH; reflexivity |].
      constructor; assumption.
    + exists []. split; [reflexivity | constructor].
Qed.

Lemma rstrip_chars_split (l : list ascii) :
  exists ws, l = rstrip_chars l ++ ws /\ Forall (fun c => is_space c = true) ws.
Proof.
  unfold rstrip_chars.
  destruct (lstrip_chars_split (rev l)) as (ws & Hl & Hws).
  exists (rev ws). split.
  - apply (f_equal (@rev ascii)) in Hl.
    rewrite rev_involutive, rev_app_distr in Hl. exact Hl.
  - apply Forall_rev. exact Hws.
Qed.

Lemma rstrip_chars_app (a b : list ascii) (c : ascii) :
  is_space c = false -> Forall (fun c => is_space c = true) b ->
  rstrip_chars (a ++ c :: b) = a ++ [c].
Proof.
  intros Hc Hb. unfold rstrip_chars.
  rewrite rev_app_distr. simpl. rewrite <- app_assoc. simpl.
  rewrite lstrip_chars_app by exact Hc.
  rewrite lstrip_chars_spaces by (apply Forall_rev; exact Hb).
  simpl. rewrite rev_involutive. reflexivity.
Qed.

Lemma endswith_strip_home (s : string) :
  endswith (strip s) "(H)" = true <-> RankSpec.marks_home s.
Proof.
  unfold endswith, strip, RankSpec.marks_home.
  rewrite bool_decide_eq_true, list_ascii_of_string_of_list_ascii.
  set (l := list_ascii_of_string s). split.
  - intros [k Hk].
    destruct (lstrip_chars_split l) as (ws1 & Hl & _).
    destruct (rstrip_chars_split (lstrip_chars l)) as (ws2 & Hr & Hws2).
    exists (ws1 ++ k), ws2. split; [| exact Hws2].
    rewrite Hl at 1. rewrite Hr at 1. rewrite Hk.
    rewrite <- !app_assoc. reflexivity.
  - intros (before & after & Hl & Hafter).
    rewrite Hl. simpl.
    change (before ++ "("%char :: "H"%char :: ")"%char :: after)
      with (before ++ "("%char :: ["H"%char; ")"%char] ++ after).
    rewrite lstrip_chars_app by reflexivity.
    change (lstrip_chars before ++ "("%char :: ["H"%char; ")"%char] ++ after)
      with (lstrip_chars before ++ "("%char :: "H"%char :: ")"%char :: after).
    replace (lstrip_chars before ++ "("%char :: "H"%char :: ")"%char :: after)
      with ((lstrip_chars before ++ ["("%char; "H"%char]) ++ ")"%char :: after)
      by (rewrite <- app_assoc; reflexivity).
    rewrite rstrip_chars_app by (reflexivity || exact Hafter).
    exists (lstrip_chars before). rewrite <- !app_assoc. reflexivity.
Qed.

(** Stripping an annotation does not change whether it marks a home
    fixture. *)
Lemma marks_home_strip (s : string) : RankSpec.marks_home (strip s) <-> RankSpec.marks_home s.
Proof.
  split.
  - unfold RankSpec.marks_home, strip.
    rewrite list_ascii_of_string_of_list_ascii.
    intros (before & after & Hl & Hafter).
    destruct (lstrip_chars_split (list_ascii_of_string s)) as (ws1 & H1 & _).
    destruct (rstrip_chars_split (lstrip_chars (list_ascii_of_string s)))
      as (ws2 & H2 & Hws2).
    exists (ws1 ++ before), (after ++ ws2). split.
    + rewrite H1 at 1. rewrite H2 at 1. rewrite Hl.
      rewrite <- !app_assoc. reflexivity.
    + apply Forall_app. split; assumption.
  - intros H. apply endswith_strip_home in H.
    unfold endswith in H. apply bool_decide_eq_true in H as [k Hk].
    exists k, []. split; [rewrite Hk, app_nil_r; reflexivity | constructor].
Qed.

(** The flag is 1 on an annotation that marks a home fixture and 0 on any
    other. *)
Lemma parse_fixture_home_spec (s : string) :
  (RankSpec.marks_home s -> parse_fixture_home (Some s) = 1%Z)
  /\ (~ RankSpec.marks_home s -> parse_fixture_home (Some s) = 0%Z).
Proof.
  unfold parse_fixture_home. cbn [str].
  destruct (endswith (strip s) "(H)") eqn:E.
  - apply endswith_strip_home in E. split; [reflexivity | contradiction].
  - split; [| reflexivity].
    intros H. apply endswith_strip_home in H. congruence.
Qed.

Section Builtins.
Variable float : string -> option Q.
Variable upper : string -> string.

Lemma build_candidates_body_spec positions min_minutes_avg h candidates row :
  exists st',
    build_candidates_body float upper positions min_minutes_avg (h, candidates) row = Ok st'
    /\ (st' = (h, candidates)
        \/ exists c, st' = (h ++ [c], candidates ++ [length h])
                     /\ RankSpec.built_from float row c).
Proof.
  unfold build_candidates_body.
  destruct (negb _); [eexists; split; [reflexivity | left; reflexivity] |].
  destruct (ltb _ min_minutes_avg); [eexists; split; [reflexivity | left; reflexivity] |].
  destruct (leb _ 0); [eexists; split; [reflexivity | left; reflexivity] |].
  change (truediv (parse_float float (get row "minutes_avg" "0")) 90)
    with (Ok (parse_float float (get row "minutes_avg" "0") / 90)).
  cbn [bind].
  destruct (ltb 0 (parse_float float (get row "price" "0"))) eqn:Eprice.
  - pose proof (proj1 (ltb_lt _ _) Eprice) as Hpos.
    unfold truediv. rewrite (proj2 (eqb_neq _ 0)) by lra. cbn [bind].
    eexists. split; [reflexivity |]. right. eexists. split; [reflexivity |].
    unfold RankSpec.built_from. cbn.
    repeat split; try reflexivity. intros Hn. contradiction.
  - pose proof (proj1 (ltb_ge _ _) Eprice) as Hle. cbn [bind].
    eexists. split; [reflexivity |]. right. eexists. split; [reflexivity |].
    unfold RankSpec.built_from. cbn.
    repeat split; try reflexivity. intros Hn. lra.
Qed.

(** The candidates that [build_candidates] returns are new cells of the
    store, one after the other, each made of a row of the input. *)
Lemma build_candidates_spec rows positions min_minutes_avg h :
  exists cs,
    build_candidates float upper rows positions min_minutes_avg h
    = Ok (h ++ cs, seq (length h) (length cs))
    /\ Forall (fun c => exists row, row ∈ rows /\ RankSpec.built_from float row c) cs.
Proof.
  unfold build_candidates.
  destruct (for_each_invariant
              (fun st => exists cs,
                   st = (h ++ cs, seq (length h) (length cs))
                   /\ Forall (fun c => exists row, row ∈ rows
                                                  /\ RankSpec.built_from float row c) cs)
              (build_candidates_body float upper positions min_minutes_avg)
              rows (h, []))
    as (st' & Hrun & cs & -> & Hcs).
  - exists []. rewrite app_nil_r. split; [reflexivity | constructor].
  - intros st row Hrow (cs & -> & Hcs).
    destruct (build_candidates_body_spec positions min_minutes_avg
                (h ++ cs) (seq (length h) (length cs)) row)
      as (st' & Hst & [-> | (c & -> & Hc)]).
    + eexists. split; [exact Hst |]. exists cs. split; [reflexivity | exact Hcs].
    + eexists. split; [exact Hst |]. exists (cs ++ [c]). split.
      * rewrite app_assoc, !length_app. cbn [length].
        rewrite seq_app. reflexivity.
      * apply Forall_app. split; [exact Hcs |].
        constructor; [exists row; split; assumption | constructor].
  - exists cs. split; [exact Hrun | exact Hcs].
Qed.

(** C10. [build_candidates] never divides by zero: on every list of rows it
    returns its candidates, and the value for money of a candidate is 0 when
    its parsed price is not strictly positive and the quotient of the attack
    signal by the price when it is. *)
Theorem value_raw_never_divides_by_zero rows positions min_minutes_avg h :
  exists h' candidates,
    build_candidates float upper rows positions min_minutes_avg h = Ok (h', candidates)
    /\ forall r, r ∈ candidates ->
         exists row,
           row ∈ rows
           /\ price (h' !!! r) = parse_float float (get row "price" "0")
           /\ (~ 0 < price (h' !!! r) -> value_raw (h' !!! r) = 0)
           /\ (0 < price (h' !!! r) ->
               value_raw (h' !!! r) = attack_raw (h' !!! r) / price (h' !!! r)).
Proof.
  destruct (build_candidates_spec rows positions min_minutes_avg h) as (cs & Hrun & Hcs).
  eexists _, _. split; [exact Hrun |].
  intros r Hr. apply elem_of_seq in Hr as [Hlo Hhi].
  assert (Hlookup : (h ++ cs) !! r = cs !! (r - length h)%nat)
    by (apply lookup_app_r; lia).
  destruct (lookup_lt_is_Some_2 cs (r - length h)%nat) as [c Hc]; [lia |].
  rewrite (list_lookup_total_correct (h ++ cs) r c) by (rewrite Hlookup; exact Hc).
  rewrite Forall_forall in Hcs.
  destruct (Hcs c) as (row & Hrow & _ & _ & Hp & _ & Hz & Hq & _);
    [eapply list_elem_of_lookup_2; exact Hc |].
  exists row. repeat split; assumption.
Qed.

End Builtins.

Lemma value_raw_never_divides_by_zero_witness :
  exists h' candidates,
    build_candidates Examples.parse_decimal Examples.ascii_upper
      Examples.sample_rows ["MID"%string] 30 [] = Ok (h', candidates)
    /\ forall r, r ∈ candidates ->
         exists row,
           row ∈ Examples.sample_rows
           /\ price (h' !!! r) = parse_float Examples.parse_decimal (get row "price" "0")
           /\ (~ 0 < price (h' !!! r) -> value_raw (h' !!! r) = 0)
           /\ (0 < price (h' !!! r) ->
               value_raw (h' !!! r) = attack_raw (h' !!! r) / price (h' !!! r)).
Proof.
  exact (value_raw_never_divides_by_zero Examples.parse_decimal Examples.ascii_upper
           Examples.sample_rows ["MID"%string] 30 []).
Defined.

End CandidateFacts.


(** ** Ranking *)

Module RankFacts.
Import Py PyLoops PyFacts LoopFacts Phase2RankPlayers RankSpec.
Import NormalizeFacts CandidateFacts.

Lemma ascii_compare_lt_trans (a b c : ascii) :
  Ascii.compare a b = Lt -> Ascii.compare b c = Lt -> Ascii.compare a c = Lt.
Proof.
  unfold Ascii.compare. rewrite !N.compare_lt_iff. lia.
Qed.

Lemma str_lt_trans (a b c : string) : str_lt a b -> str_lt b c -> str_lt a c.
Proof.
  unfold str_lt. revert b c.
  induction a as [| x a IH]; intros [| y b] [| z c]; simpl; try congruence.
  destruct (Ascii.compare x y) eqn:Exy; try discriminate.
  - apply Ascii.compare_eq_iff in Exy as ->.
    destruct (Ascii.compare y z); try congruence. apply IH.
  - intros _. destruct (Ascii.compare y z) eqn:Eyz; try discriminate.
    + apply Ascii.compare_eq_iff in Eyz as <-. rewrite Exy. reflexivity.
    + intros _. rewrite (ascii_compare_lt_trans _ _ _ Exy Eyz). reflexivity.
Qed.

Lemma str_ltb_lt (a b : string) : String.ltb a b = true <-> str_lt a b.
Proof.
  unfold String.ltb, str_lt. destruct (String.compare a b); split; congruence.
Qed.

Lemma str_not_ltb (a b : string) :
  String.ltb b a = false -> a <> b -> str_lt a b.
Proof.
  unfold String.ltb, str_lt. rewrite (String.compare_antisym a b).
  destruct (String.compare b a) eqn:E; simpl; try congruence.
  apply String.compare_eq_iff in E. congruence.
Qed.

Lemma str_ltb_asym (a b : string) : String.ltb a b = true -> String.ltb b a = false.
Proof.
  unfold String.ltb. rewrite (String.compare_antisym b a).
  destruct (String.compare a b); simpl; congruence.
Qed.

Lemma eqb_sym (a b : Q) : eqb a b = eqb b a.
Proof.
  destruct (eqb b a) eqn:E.
  - apply eqb_eq. apply eqb_eq in E. lra.
  - apply eqb_neq. apply eqb_neq in E. lra.
Qed.

Lemma ltb_asym (a b : Q) : ltb a b = true -> ltb b a = false.
Proof. rewrite ltb_lt, ltb_ge. lra. Qed.

Lemma key_lt_asym (a b : Q * Q * Q * string * string) :
  key_lt a b = true -> key_lt b a = false.
Proof.
  destruct a as [[[[a1 a2] a3] a4] a5], b as [[[[b1 b2] b3] b4] b5]. simpl.
  rewrite (eqb_sym b1 a1), (eqb_sym b2 a2), (eqb_sym b3 a3),
    (String.eqb_sym b4 a4), (String.eqb_sym b5 a5).
  destruct (eqb a1 b1); simpl; [| apply ltb_asym].
  destruct (eqb a2 b2); simpl; [| apply ltb_asym].
  destruct (eqb a3 b3); simpl; [| apply ltb_asym].
  destruct (String.eqb a4 b4); simpl; [| apply str_ltb_asym].
  destruct (String.eqb a5 b5); simpl; [reflexivity | apply str_ltb_asym].
Qed.

(** The order of the sort keys is the documented order. *)
Lemma key_order_documented (c1 c2 : Candidate) :
  key_lt (sort_key c2) (sort_key c1) = false -> ranks_no_later c1 c2.
Proof.
  unfold sort_key, ranks_no_later. simpl.
  destruct (eqb (- score c2) (- score c1)) eqn:E1; simpl.
  2: { intros H. apply ltb_ge in H. apply eqb_neq in E1. left. lra. }
  apply eqb_eq in E1. intros H. right. split; [lra |]. revert H.
  destruct (eqb (- value_raw c2) (- value_raw c1)) eqn:E2; simpl.
  2: { intros H. apply ltb_ge in H. apply eqb_neq in E2. left. lra. }
  apply eqb_eq in E2. intros H. right. split; [lra |]. revert H.
  destruct (eqb (price c2) (price c1)) eqn:E3; simpl.
  2: { intros H. apply ltb_ge in H. apply eqb_neq in E3. left. lra. }
  apply eqb_eq in E3. intros H. right. split; [lra |]. revert H.
  destruct (String.eqb (player c2) (player c1)) eqn:E4; simpl.
  2: { intros H. apply String.eqb_neq in E4. left. apply str_not_ltb; congruence. }
  apply String.eqb_eq in E4. intros H. right. split; [congruence |]. revert H.
  destruct (String.eqb (team c2) (team c1)) eqn:E5; simpl.
  2: { intros H. apply String.eqb_neq in E5. left. apply str_not_ltb; congruence. }
  apply String.eqb_eq in E5. intros _. right. congruence.
Qed.

Lemma ranks_no_later_trans (c1 c2 c3 : Candidate) :
  ranks_no_later c1 c2 -> ranks_no_later c2 c3 -> ranks_no_later c1 c3.
Proof.
  unfold ranks_no_later, str_lt.
  intros H1 H2.
  destruct H1 as [? | [? [? | [? [? | [? [? | [? [? | ?]]]]]]]]];
    destruct H2 as [? | [? [? | [? [? | [? [? | [? [? | ?]]]]]]]]];
    repeat first
      [ left; solve [lra | eapply str_lt_trans; eassumption | congruence]
      | right; solve [congruence]
      | right; split; [solve [lra | congruence] |] ].
Qed.

(** *** The store under the two loops *)

Lemma weighted_sum_set_score wa wm wv wf s c :
  weighted_sum wa wm wv wf (set_score s c) = weighted_sum wa wm wv wf c.
Proof. reflexivity. Qed.

Lemma set_score_set_score s s' c : set_score s (set_score s' c) = set_score s c.
Proof. reflexivity. Qed.

(** The scoring loop gives every listed candidate its score and changes
    nothing else. *)
Lemma score_candidates_lookup wa wm wv wf (candidates : list nat) (h : list Candidate)
    (r : nat) :
  score_candidates wa wm wv wf candidates h !!! r
  = if decide (r ∈ candidates /\ (r < length h)%nat)
    then set_score (round6 (weighted_sum wa wm wv wf (h !!! r))) (h !!! r)
    else h !!! r.
Proof.
  unfold score_candidates. revert h.
  induction candidates as [| x cs IH]; intros h; cbn [foldl].
  - case_decide as Hd; [destruct Hd as [Hin _]; inversion Hin | reflexivity].
  - rewrite IH. rewrite length_alter, list_lookup_total_alter.
    unfold compute_weighted_score.
    fold (weighted_sum wa wm wv wf (h !!! x)).
    destruct (decide (x = r /\ (x < length h)%nat)) as [[-> Hlt] | Hne].
    + rewrite weighted_sum_set_score, set_score_set_score.
      rewrite (decide_True (P := r ∈ r :: cs /\ (r < length h)%nat))
        by (split; [left | exact Hlt]).
      destruct (decide (r ∈ cs /\ (r < length h)%nat)); reflexivity.
    + destruct (decide (r ∈ cs /\ (r < length h)%nat)) as [[Hin Hlt] | Hn].
      * rewrite (decide_True (P := r ∈ x :: cs /\ (r < length h)%nat))
          by (split; [right; exact Hin | exact Hlt]).
        reflexivity.
      * destruct (decide (r ∈ x :: cs /\ (r < length h)%nat)) as [[Hin Hlt] |];
          [| reflexivity].
        exfalso. apply elem_of_cons in Hin as [-> | Hin]; [apply Hne | apply Hn]; auto.
Qed.

Lemma score_candidates_length wa wm wv wf (candidates : list nat) (h : list Candidate) :
  length (score_candidates wa wm wv wf candidates h) = length h.
Proof.
  unfold score_candidates. revert h.
  induction candidates as [| x cs IH]; intros h; simpl; [reflexivity |].
  rewrite IH, length_alter. reflexivity.
Qed.

(** The loop that numbers a list of distinct candidates from [g 0] on. *)
Lemma number_lookup (g : nat -> nat) (top : list nat) (h : list Candidate) :
  NoDup top -> (forall r, r ∈ top -> (r < length h)%nat) ->
  let h' := foldl (fun h' '(idx, r) => alter (set_rank_position (Z.of_nat idx + 1)) r h')
                  h (imap (fun idx r => (g idx, r)) top) in
  length h' = length h
  /\ (forall r, r ∉ top -> h' !!! r = h !!! r)
  /\ (forall i r, top !! i = Some r ->
        h' !!! r = set_rank_position (Z.of_nat (g i) + 1) (h !!! r)).
Proof.
  revert g h. induction top as [| x top IH]; intros g h Hnd Hvalid.
  - split; [reflexivity |].
    split; [intros r _; reflexivity | intros i r Hi; discriminate].
  - apply NoDup_cons in Hnd as [Hx Hnd].
    destruct (IH (g ∘ S) (alter (set_rank_position (Z.of_nat (g 0%nat) + 1)) x h) Hnd)
      as (Hlen & Hout & Hin).
    { intros r Hr. rewrite length_alter. apply Hvalid. right. exact Hr. }
    rewrite length_alter in Hlen.
    change (foldl (fun h' '(idx, r) => alter (set_rank_position (Z.of_nat idx + 1)) r h')
                  h (imap (fun idx r => (g idx, r)) (x :: top)))
      with (foldl (fun h' '(idx, r) => alter (set_rank_position (Z.of_nat idx + 1)) r h')
                  (alter (set_rank_position (Z.of_nat (g 0%nat) + 1)) x h)
                  (imap (fun idx r => ((g ∘ S) idx, r)) top)).
    cbv zeta.
    split; [exact Hlen |]. split.
    + intros r Hr. apply not_elem_of_cons in Hr as [Hrx Hr].
      rewrite (Hout r Hr). apply list_lookup_total_alter_ne. congruence.
    + intros [| i] r Hi; simpl in Hi.
      * injection Hi as ->. rewrite (Hout r Hx).
        apply list_lookup_total_alter_eq. apply Hvalid. left.
      * rewrite (Hin i r Hi). f_equal.
        apply list_lookup_total_alter_ne.
        intros ->. apply Hx. eapply list_elem_of_lookup_2. exact Hi.
Qed.

Lemma grouped_init_lookup (positions : list string) (pos : string)
    (g : gmap string (list nat)) :
  default [] (g !! pos) = [] ->
  default [] (foldl (fun g p => <[p := []]> g) g positions !! pos) = [].
Proof.
  revert g. induction positions as [| p ps IH]; intros g Hg; simpl; [exact Hg |].
  apply IH. destruct (decide (p = pos)) as [-> | Hne].
  - rewrite lookup_insert_eq. reflexivity.
  - rewrite lookup_insert_ne by exact Hne. exact Hg.
Qed.

Lemma grouped_append_lookup (h : list Candidate) (candidates : list nat) (pos : string)
    (g : gmap string (list nat)) :
  default [] (foldl (fun g r => <[position (h !!! r)
                                  := default [] (g !! position (h !!! r)) ++ [r]]> g)
                    g candidates !! pos)
  = default [] (g !! pos) ++ of_position h pos candidates.
Proof.
  unfold of_position. revert g.
  induction candidates as [| r cs IH]; intros g; simpl.
  - rewrite app_nil_r. reflexivity.
  - rewrite IH. destruct (String.eqb_spec (position (h !!! r)) pos) as [E | E].
    + rewrite E, lookup_insert_eq. simpl. rewrite <- app_assoc. reflexivity.
    + rewrite lookup_insert_ne by exact E. reflexivity.
Qed.

Lemma group_by_position_lookup (h : list Candidate) (candidates : list nat)
    (positions : list string) (pos : string) :
  default [] (group_by_position h candidates positions !! pos)
  = of_position h pos candidates.
Proof.
  unfold group_by_position.
  rewrite grouped_append_lookup, grouped_init_lookup; [reflexivity |].
  rewrite lookup_empty. reflexivity.
Qed.

(** *** The ranking loop *)

Lemma by_sort_key_same (h h1 : list Candidate) :
  (forall r, set_rank_position 0 (h !!! r) = set_rank_position 0 (h1 !!! r)) ->
  forall r1 r2, by_sort_key h r1 r2 = by_sort_key h1 r1 r2.
Proof.
  intros Hsame r1 r2. unfold by_sort_key.
  change (sort_key (h !!! r1)) with (sort_key (set_rank_position 0 (h !!! r1))).
  change (sort_key (h !!! r2)) with (sort_key (set_rank_position 0 (h !!! r2))).
  rewrite !Hsame. reflexivity.
Qed.

Lemma by_sort_key_asym (h : list Candidate) (r1 r2 : nat) :
  by_sort_key h r1 r2 = true -> by_sort_key h r2 r1 = false.
Proof. apply key_lt_asym. Qed.

Section Loop.
Variable top_n : Z.
Variable candidates : list nat.
Variable h1 : list Candidate.
Hypothesis candidates_distinct : NoDup candidates.
Hypothesis candidates_valid : forall r, r ∈ candidates -> (r < length h1)%nat.

Lemma sorted_group_elem_of (pos : string) (r : nat) :
  r ∈ sorted_group h1 pos candidates <-> r ∈ candidates /\ position (h1 !!! r) = pos.
Proof.
  unfold sorted_group, of_position.
  rewrite sort_by_elem_of, elem_of_filter_bool, String.eqb_eq. reflexivity.
Qed.

Lemma sorted_group_NoDup (pos : string) : NoDup (sorted_group h1 pos candidates).
Proof.
  unfold sorted_group, of_position.
  rewrite sort_by_Permutation. apply NoDup_filter_bool. exact candidates_distinct.
Qed.

Lemma top_group_elem_of (pos : string) (r : nat) :
  r ∈ top_group top_n h1 pos candidates -> r ∈ candidates /\ position (h1 !!! r) = pos.
Proof.
  unfold top_group, first_n. intros H.
  apply sorted_group_elem_of.
  rewrite <- (take_drop (Z.to_nat (Z.max 0 top_n)) (sorted_group h1 pos candidates)).
  apply elem_of_app. left. exact H.
Qed.

Lemma top_group_NoDup (pos : string) : NoDup (top_group top_n h1 pos candidates).
Proof.
  unfold top_group, first_n.
  pose proof (sorted_group_NoDup pos) as H.
  rewrite <- (take_drop (Z.to_nat (Z.max 0 top_n)) (sorted_group h1 pos candidates)) in H.
  apply NoDup_app in H as [H _]. exact H.
Qed.

Lemma rank_candidates_body_invariant (done : list string) (st : RankState) (pos : string) :
  rank_invariant top_n candidates h1 done st ->
  rank_invariant top_n candidates h1 (done ++ [pos]) (rank_candidates_body top_n st pos).
Proof.
  intros (Hlen & Hsame & Hgrouped & Hranked & Hranks & Hrows).
  unfold rank_candidates_body.
  rewrite (sort_by_ext _ _ _ (by_sort_key_same _ _ Hsame)), Hgrouped.
  fold (top_group top_n h1 pos candidates).
  set (top := top_group top_n h1 pos candidates).
  change (imap (fun idx r => (idx, r)) top) with (imap (fun idx r => (id idx, r)) top).
  destruct (number_lookup id top (st_heap st) (top_group_NoDup pos))
    as (Hlen' & Hout & Hin).
  { intros r Hr. rewrite Hlen. apply candidates_valid.
    apply (top_group_elem_of pos r Hr). }
  cbv zeta in Hlen', Hout, Hin.
  set (h' := foldl _ (st_heap st) _) in *.
  unfold rank_invariant. cbn [st_heap st_grouped st_ranked st_rows_by_position].
  split; [congruence |]. split; [| split; [| split; [| split]]].
  - intros r. destruct (decide (r ∈ top)) as [Hr | Hr].
    + apply list_elem_of_lookup in Hr as [i Hi].
      rewrite (Hin i r Hi). apply Hsame.
    + rewrite (Hout r Hr). apply Hsame.
  - intros pos'. destruct (decide (pos = pos')) as [<- | Hne].
    + rewrite lookup_insert_eq. cbn [default from_option].
      apply sort_by_idempotent. apply by_sort_key_asym.
    + rewrite lookup_insert_ne by exact Hne. apply Hgrouped.
  - rewrite Hranked, map_app, concat_app. cbn [map concat].
    rewrite app_nil_r. reflexivity.
  - intros pos' Hpos' i r Hi.
    destruct (decide (pos' = pos)) as [-> | Hne].
    + rewrite (Hin i r Hi). reflexivity.
    + apply elem_of_app in Hpos' as [Hpos' | Hpos'];
        [| apply list_elem_of_singleton in Hpos'; contradiction].
      rewrite Hout; [apply (Hranks pos' Hpos' i r Hi) |].
      intros Hr. apply top_group_elem_of in Hr as [_ Hp].
      apply list_elem_of_lookup_2, top_group_elem_of in Hi as [_ Hp'].
      congruence.
  - intros pos' Hpos'.
    destruct (decide (pos = pos')) as [<- | Hne].
    + rewrite lookup_insert_eq. reflexivity.
    + rewrite lookup_insert_ne by exact Hne.
      apply elem_of_app in Hpos' as [Hpos' | Hpos'];
        [apply Hrows; exact Hpos' |].
      apply list_elem_of_singleton in Hpos'. congruence.
Qed.

Lemma rank_loop_invariant (positions done : list string) (st : RankState) :
  rank_invariant top_n candidates h1 done st ->
  rank_invariant top_n candidates h1 (done ++ positions)
    (foldl (rank_candidates_body top_n) st positions).
Proof.
  revert done st. induction positions as [| pos ps IH]; intros done st Hinv; simpl.
  - rewrite app_nil_r. exact Hinv.
  - replace (done ++ pos :: ps) with ((done ++ [pos]) ++ ps)
      by (rewrite <- app_assoc; reflexivity).
    apply IH, rank_candidates_body_invariant, Hinv.
Qed.

Lemma rank_loop_start (positions : list string) :
  rank_invariant top_n candidates h1 []
    (mkRankState h1 (group_by_position h1 candidates positions) [] ∅).
Proof.
  unfold rank_invariant. cbn [st_heap st_grouped st_ranked st_rows_by_position].
  split; [reflexivity |]. split; [reflexivity |]. split; [| split; [| split]].
  - intros pos. rewrite group_by_position_lookup. reflexivity.
  - reflexivity.
  - intros pos Hpos. inversion Hpos.
  - intros pos Hpos. inversion Hpos.
Qed.

End Loop.

(** *** The ranking as a whole *)

Lemma Forall2_map_r {A B : Type} (P : A -> B -> Prop) (f : A -> B) (l : list A) :
  (forall x, x ∈ l -> P x (f x)) -> Forall2 P l (map f l).
Proof.
  induction l as [| x l IH]; intros H; simpl; constructor.
  - apply H. left.
  - apply IH. intros y Hy. apply H. right. exact Hy.
Qed.

Lemma score_candidates_same_position wa wm wv wf candidates (h : list Candidate) (r : nat) :
  position (score_candidates wa wm wv wf candidates h !!! r) = position (h !!! r).
Proof.
  rewrite score_candidates_lookup.
  destruct (decide (r ∈ candidates /\ (r < length h)%nat)); reflexivity.
Qed.

Lemma of_position_scored wa wm wv wf candidates (h : list Candidate) (pos : string) :
  of_position (score_candidates wa wm wv wf candidates h) pos candidates
  = of_position h pos candidates.
Proof.
  unfold of_position. apply RiskFacts.filter_ext_bool.
  intros r. rewrite score_candidates_same_position. reflexivity.
Qed.

Lemma sorted_group_documented (h h1 : list Candidate) (pos : string) (candidates : list nat) :
  (forall r, set_rank_position 0 (h !!! r) = set_rank_position 0 (h1 !!! r)) ->
  StronglySorted (fun r1 r2 => ranks_no_later (h !!! r1) (h !!! r2))
    (sorted_group h1 pos candidates).
Proof.
  intros Hsame. apply Sorted_StronglySorted.
  - intros r1 r2 r3. apply ranks_no_later_trans.
  - unfold sorted_group.
    eapply Sorted_weaken; [| apply sort_by_Sorted, by_sort_key_asym].
    intros r1 r2 H. unfold not_after in H.
    rewrite <- (by_sort_key_same _ _ Hsame) in H.
    apply key_order_documented. exact H.
Qed.

(** C6. For every position of the list, [rank_candidates] takes the
    candidates of that position, puts them in the documented order (score
    descending, then value for money descending, then price ascending, then
    name ascending, then team label ascending), keeps the first N of them
    (N the configured top-N, none when it is negative), and gives the
    candidates it keeps the ranks 1, 2, 3, ... in that order; the ranked list
    is the sequence of these groups, in the order of the positions. *)
Theorem rank_candidates_order_and_ranks
    (candidates : list nat) (positions : list string) (top_n : Z)
    (w_attack w_minutes w_value w_fixture : Q) (h : list Candidate) :
  NoDup candidates ->
  (forall r, r ∈ candidates -> (r < length h)%nat) ->
  exists h' groups rows_by_position,
    rank_candidates candidates positions top_n w_attack w_minutes w_value w_fixture h
    = (h', concat groups, rows_by_position)
    /\ Forall2
         (fun pos top =>
            exists sorted,
              sorted ≡ₚ of_position h pos candidates
              /\ StronglySorted (fun r1 r2 => ranks_no_later (h' !!! r1) (h' !!! r2)) sorted
              /\ top = take (Z.to_nat (Z.max 0 top_n)) sorted
              /\ (forall i r, top !! i = Some r ->
                    rank_position (h' !!! r) = (Z.of_nat i + 1)%Z)
              /\ rows_by_position !! pos = Some (Z.of_nat (length top)))
         positions groups.
Proof.
  intros Hnd Hvalid. unfold rank_candidates.
  set (h1 := score_candidates w_attack w_minutes w_value w_fixture candidates h).
  assert (Hvalid1 : forall r, r ∈ candidates -> (r < length h1)%nat).
  { intros r Hr. unfold h1. rewrite score_candidates_length. apply Hvalid, Hr. }
  pose proof (rank_loop_invariant top_n candidates h1 Hnd Hvalid1 positions [] _
                (rank_loop_start top_n candidates h1 positions)) as Hinv.
  cbn [app] in Hinv.
  set (st := foldl (rank_candidates_body top_n) _ positions) in *.
  destruct Hinv as (_ & Hsame & _ & Hranked & Hranks & Hrows).
  exists (st_heap st), (map (fun pos => top_group top_n h1 pos candidates) positions),
    (st_rows_by_position st).
  split; [rewrite Hranked; reflexivity |].
  apply Forall2_map_r. intros pos Hpos.
  exists (sorted_group h1 pos candidates).
  split; [| split; [| split; [| split]]].
  - unfold sorted_group. rewrite sort_by_Permutation.
    unfold h1. rewrite of_position_scored. reflexivity.
  - apply sorted_group_documented. exact Hsame.
  - reflexivity.
  - apply Hranks. exact Hpos.
  - apply Hrows. exact Hpos.
Qed.

(** *** The score *)

Lemma round_half_even_close (y : Q) :
  - (1 # 2) <= inject_Z (round_half_even y) - y <= 1 # 2.
Proof.
  unfold round_half_even.
  pose proof (Qfloor_le y) as Hlo. pose proof (Qlt_floor y) as Hhi.
  rewrite inject_Z_plus in Hhi. change (inject_Z 1) with 1 in Hhi.
  destruct (ltb (y - inject_Z (Qfloor y)) (1 # 2)) eqn:E1.
  { apply ltb_lt in E1. lra. }
  apply ltb_ge in E1.
  destruct (ltb (1 # 2) (y - inject_Z (Qfloor y))) eqn:E2.
  { apply ltb_lt in E2. rewrite inject_Z_plus. change (inject_Z 1) with 1. lra. }
  apply ltb_ge in E2.
  destruct (Z.even (Qfloor y)); [lra |].
  rewrite inject_Z_plus. change (inject_Z 1) with 1. lra.
Qed.

Lemma round6_close (x : Q) : - (1 # 2000000) <= round6 x - x <= 1 # 2000000.
Proof.
  unfold round6. pose proof (round_half_even_close (x * 1000000)) as H.
  set (k := inject_Z (round_half_even (x * 1000000))) in *.
  assert (E : k / 1000000 - x == (k - x * 1000000) / 1000000) by field.
  rewrite E. split.
  - apply Qle_shift_div_l; lra.
  - apply Qle_shift_div_r; lra.
Qed.

(** A loop that updates cells through functions that keep a view of the
    cell keeps this view of every cell, and the size of the store. *)
Lemma foldl_alter_frame {X : Type} (view : Candidate -> X)
    (update : nat -> Candidate -> Candidate) (l : list (nat * nat)) (h : list Candidate) :
  (forall i c, view (update i c) = view c) ->
  let h' := foldl (fun h' '(idx, r) => alter (update idx) r h') h l in
  length h' = length h /\ forall r, view (h' !!! r) = view (h !!! r).
Proof.
  intros Hview. revert h. induction l as [| [idx x] l IH]; intros h; cbn [foldl].
  - split; [reflexivity | intros r; reflexivity].
  - destruct (IH (alter (update idx) x h)) as [Hlen Hsame].
    cbv zeta in *. rewrite length_alter in Hlen. split; [exact Hlen |].
    intros r. rewrite Hsame, list_lookup_total_alter.
    destruct (decide (x = r /\ (x < length h)%nat)) as [[-> _] |];
      [apply Hview | reflexivity].
Qed.

Lemma rank_candidates_body_frame (top_n : Z) (st : RankState) (pos : string) (r : nat) :
  set_rank_position 0 (st_heap (rank_candidates_body top_n st pos) !!! r)
  = set_rank_position 0 (st_heap st !!! r).
Proof.
  unfold rank_candidates_body. cbn [st_heap].
  apply (foldl_alter_frame (set_rank_position 0)
           (fun idx => set_rank_position (Z.of_nat idx + 1))).
  intros i c. reflexivity.
Qed.

Lemma rank_loop_frame (top_n : Z) (positions : list string) (st : RankState) (r : nat) :
  set_rank_position 0 (st_heap (foldl (rank_candidates_body top_n) st positions) !!! r)
  = set_rank_position 0 (st_heap st !!! r).
Proof.
  revert st. induction positions as [| pos ps IH]; intros st; cbn [foldl];
    [reflexivity |].
  rewrite IH. apply rank_candidates_body_frame.
Qed.

(** After [rank_candidates] the score of a listed candidate is the weighted
    sum of its signals rounded to six decimals, and the signals are those
    it had before. *)
Lemma rank_candidates_score candidates positions top_n wa wm wv wf (h : list Candidate)
    (r : nat) :
  r ∈ candidates -> (r < length h)%nat ->
  let h' := (rank_candidates candidates positions top_n wa wm wv wf h).1.1 in
  score (h' !!! r) = round6 (weighted_sum wa wm wv wf (h !!! r))
  /\ weighted_sum wa wm wv wf (h' !!! r) = weighted_sum wa wm wv wf (h !!! r)
  /\ fixture_home (h' !!! r) = fixture_home (h !!! r)
  /\ next_opponent (h' !!! r) = next_opponent (h !!! r).
Proof.
  intros Hr Hlt. unfold rank_candidates. cbn [fst]. cbv zeta.
  set (h1 := score_candidates wa wm wv wf candidates h).
  pose proof (rank_loop_frame top_n positions
                (mkRankState h1 (group_by_position h1 candidates positions) [] ∅) r) as H.
  cbn [st_heap] in H.
  set (h' := st_heap _) in *.
  assert (H1 : h1 !!! r = set_score (round6 (weighted_sum wa wm wv wf (h !!! r))) (h !!! r)).
  { unfold h1. rewrite score_candidates_lookup.
    rewrite decide_True by (split; assumption). reflexivity. }
  rewrite H1 in H.
  change (score (h' !!! r)) with (score (set_rank_position 0 (h' !!! r))).
  change (weighted_sum wa wm wv wf (h' !!! r))
    with (weighted_sum wa wm wv wf (set_rank_position 0 (h' !!! r))).
  change (fixture_home (h' !!! r)) with (fixture_home (set_rank_position 0 (h' !!! r))).
  change (next_opponent (h' !!! r)) with (next_opponent (set_rank_position 0 (h' !!! r))).
  rewrite H. repeat split; reflexivity.
Qed.

(** *** The pipeline *)

Lemma normalize_by_position_body_spec (grouped : gmap string (list nat))
    (h : list Candidate) (pos : string) :
  exists h',
    normalize_by_position_body grouped h pos = Ok h'
    /\ length h' = length h
    /\ forall r, set_norms 0 0 0 (h' !!! r) = set_norms 0 0 0 (h !!! r).
Proof.
  unfold normalize_by_position_body.
  destruct (default [] (grouped !! pos)) as [| r0 group] eqn:E.
  - exists h. repeat split; reflexivity.
  - destruct (minmax_normalize_total (map (fun r => attack_raw (h !!! r)) (r0 :: group)))
      as [a ->].
    destruct (minmax_normalize_total (map (fun r => minutes_raw (h !!! r)) (r0 :: group)))
      as [m ->].
    destruct (minmax_normalize_total (map (fun r => value_raw (h !!! r)) (r0 :: group)))
      as [v ->].
    cbn [bind]. eexists. split; [reflexivity |].
    apply (foldl_alter_frame (set_norms 0 0 0)
             (fun idx => set_norms (default 0 (a !! idx)) (default 0 (m !! idx))
                                   (default 0 (v !! idx)))).
    intros i c. reflexivity.
Qed.

(** [normalize_by_position] returns, and changes only the three normalised
    signals of the candidates. *)
Lemma normalize_by_position_spec (candidates : list nat) (positions : list string)
    (h : list Candidate) :
  exists h',
    normalize_by_position candidates positions h = Ok h'
    /\ length h' = length h
    /\ forall r, set_norms 0 0 0 (h' !!! r) = set_norms 0 0 0 (h !!! r).
Proof.
  unfold normalize_by_position.
  apply (for_each_invariant
           (fun h' => length h' = length h
                      /\ forall r, set_norms 0 0 0 (h' !!! r) = set_norms 0 0 0 (h !!! r))).
  - split; [reflexivity | intros r; reflexivity].
  - intros h1 pos _ [Hlen Hsame].
    destruct (normalize_by_position_body_spec
                (group_by_position h candidates positions) h1 pos)
      as (h2 & Hrun & Hlen2 & Hsame2).
    exists h2. split; [exact Hrun |].
    split; [congruence | intros r; rewrite Hsame2; apply Hsame].
Qed.

Section Pipeline.
Variable float : string -> option Q.
Variable upper : string -> string.

(** The candidates that reach the ranking are distinct cells of the
    store. *)
Lemma pipeline_candidates_distinct
    (rows : list (gmap string (option string))) (positions : list string)
    (min_minutes_avg : Q) :
  exists h0 candidates h1,
    build_candidates float upper rows positions min_minutes_avg [] = Ok (h0, candidates)
    /\ normalize_by_position candidates positions h0 = Ok h1
    /\ NoDup candidates
    /\ forall r, r ∈ candidates -> (r < length h1)%nat.
Proof.
  destruct (build_candidates_spec float upper rows positions min_minutes_avg [])
    as (cs & Hbuild & _).
  cbn [app length] in Hbuild.
  destruct (normalize_by_position_spec (seq 0 (length cs)) positions cs)
    as (h1 & Hnorm & Hlen & _).
  exists cs, (seq 0 (length cs)), h1.
  split; [exact Hbuild |]. split; [exact Hnorm |]. split; [apply NoDup_seq |].
  intros r Hr. apply elem_of_seq in Hr. lia.
Qed.

(** C5, as the code has it. The three stages run on every input, and the
    final score of every candidate is the weighted sum
    [w_attack * attack_norm + w_minutes * minutes_norm + w_value * value_norm
    + w_fixture * fixture_flag] rounded to six decimals, hence within
    0.0000005 of this sum; the weights are the supplied ones, whose defaults
    are 0.50, 0.25, 0.20 and 0.05, and the fixture flag is 1 when the
    annotation of the next opponent of the candidate marks a home fixture
    and 0 when it does not. *)
Theorem score_is_rounded_weighted_sum
    (rows : list (gmap string (option string))) (positions : list string)
    (min_minutes_avg : Q) (top_n : Z) (w_attack w_minutes w_value w_fixture : Q) :
  (default_w_attack == 1 # 2 /\ default_w_minutes == 1 # 4
   /\ default_w_value == 1 # 5 /\ default_w_fixture == 1 # 20)
  /\ exists h0 candidates h1 h' ranked rows_by_position,
       build_candidates float upper rows positions min_minutes_avg [] = Ok (h0, candidates)
       /\ normalize_by_position candidates positions h0 = Ok h1
       /\ rank_candidates candidates positions top_n
            w_attack w_minutes w_value w_fixture h1
          = (h', ranked, rows_by_position)
       /\ forall r, r ∈ candidates ->
            score (h' !!! r)
            = round6 (weighted_sum w_attack w_minutes w_value w_fixture (h' !!! r))
            /\ - (1 # 2000000)
               <= score (h' !!! r)
                  - weighted_sum w_attack w_minutes w_value w_fixture (h' !!! r)
               <= 1 # 2000000
            /\ (marks_home (next_opponent (h' !!! r)) -> fixture_home (h' !!! r) = 1%Z)
            /\ (~ marks_home (next_opponent (h' !!! r)) -> fixture_home (h' !!! r) = 0%Z)
            /\ exists row,
                 row ∈ rows
                 /\ next_opponent (h' !!! r) = strip (str (get row "next_opponent" "")).
Proof.
  split; [repeat split; reflexivity |].
  destruct (build_candidates_spec float upper rows positions min_minutes_avg [])
    as (cs & Hbuild & Hcs).
  cbn [app length] in Hbuild.
  destruct (normalize_by_position_spec (seq 0 (length cs)) positions cs)
    as (h1 & Hnorm & Hlen & Hsame).
  destruct (rank_candidates (seq 0 (length cs)) positions top_n
              w_attack w_minutes w_value w_fixture h1) as [[h' ranked] rows_by] eqn:Erank.
  exists cs, (seq 0 (length cs)), h1, h', ranked, rows_by.
  split; [exact Hbuild |]. split; [exact Hnorm |]. split; [exact Erank |].
  intros r Hr.
  assert (Hlt : (r < length h1)%nat) by (apply elem_of_seq in Hr; lia).
  destruct (rank_candidates_score (seq 0 (length cs)) positions top_n
              w_attack w_minutes w_value w_fixture h1 r Hr Hlt)
    as (Hscore & Hsum & Hhome & Hopp).
  rewrite Erank in Hscore, Hsum, Hhome, Hopp. cbn [fst] in Hscore, Hsum, Hhome, Hopp.
  split; [rewrite Hsum; exact Hscore |].
  split; [rewrite Hscore, Hsum; apply round6_close |].
  destruct (lookup_lt_is_Some_2 cs r) as [c Hc]; [lia |].
  rewrite Forall_forall in Hcs.
  destruct (Hcs c) as (row & Hrow & _ & _ & _ & _ & _ & _ & Hannot & Hflag);
    [eapply list_elem_of_lookup_2; exact Hc |].
  assert (Hc1 : set_norms 0 0 0 (h1 !!! r) = set_norms 0 0 0 c).
  { rewrite Hsame, (list_lookup_total_correct cs r c Hc). reflexivity. }
  assert (Hhome' : fixture_home (h' !!! r)
                   = parse_fixture_home (Some (str (get row "next_opponent" "")))).
  { rewrite Hhome.
    change (fixture_home (h1 !!! r)) with (fixture_home (set_norms 0 0 0 (h1 !!! r))).
    rewrite Hc1. exact Hflag. }
  assert (Hopp' : next_opponent (h' !!! r) = strip (str (get row "next_opponent" ""))).
  { rewrite Hopp.
    change (next_opponent (h1 !!! r)) with (next_opponent (set_norms 0 0 0 (h1 !!! r))).
    rewrite Hc1. exact Hannot. }
  rewrite Hhome', Hopp'.
  destruct (parse_fixture_home_spec (str (get row "next_opponent" ""))) as [Hyes Hno].
  split; [intros H; apply Hyes, marks_home_strip, H |].
  split; [intros H; apply Hno; intros H'; apply H, marks_home_strip, H' |].
  exists row. split; [exact Hrow | reflexivity].
Qed.

End Pipeline.

Lemma score_is_rounded_weighted_sum_witness :
  exists h0 candidates h1 h' ranked rows_by_position,
    build_candidates Examples.parse_decimal Examples.ascii_upper
      Examples.sample_rows ["MID"%string] 30 [] = Ok (h0, candidates)
    /\ normalize_by_position candidates ["MID"%string] h0 = Ok h1
    /\ rank_candidates candidates ["MID"%string] 20
         default_w_attack default_w_minutes default_w_value default_w_fixture h1
       = (h', ranked, rows_by_position)
    /\ forall r, r ∈ candidates ->
         score (h' !!! r)
         = round6 (weighted_sum default_w_attack default_w_minutes default_w_value
                     default_w_fixture (h' !!! r)).
Proof.
  destruct (proj2 (score_is_rounded_weighted_sum
                     Examples.parse_decimal Examples.ascii_upper
                     Examples.sample_rows ["MID"%string] 30 20
                     default_w_attack default_w_minutes default_w_value default_w_fixture))
    as (h0 & candidates & h1 & h' & ranked & rows_by & Hb & Hn & Hr & Hall).
  exists h0, candidates, h1, h', ranked, rows_by.
  split; [exact Hb |]. split; [exact Hn |]. split; [exact Hr |].
  intros r Hin. apply (Hall r Hin).
Defined.

(** C5 as stated fails: the second of the sample candidates has the
    weighted sum 0.5 * 13/33 + 0.25 * 1 + 0.2 * 1/2, which is
    0.5469696..., and the score 0.546970. *)
Lemma score_differs_from_weighted_sum :
  exists h0 candidates h1,
    build_candidates Examples.parse_decimal Examples.ascii_upper
      Examples.sample_rows ["MID"%string] 30 [] = Ok (h0, candidates)
    /\ normalize_by_position candidates ["MID"%string] h0 = Ok h1
    /\ 1%nat ∈ candidates
    /\ let h' := (rank_candidates candidates ["MID"%string] 20
                    default_w_attack default_w_minutes default_w_value
                    default_w_fixture h1).1.1 in
       ~ score (h' !!! 1%nat)
         == default_w_attack * attack_norm (h' !!! 1%nat)
            + default_w_minutes * minutes_norm (h' !!! 1%nat)
            + default_w_value * value_norm (h' !!! 1%nat)
            + default_w_fixture * inject_Z (fixture_home (h' !!! 1%nat)).
Proof.
  eexists _, _, _.
  split; [vm_compute; reflexivity |].
  split; [vm_compute; reflexivity |].
  split; [right; left |].
  vm_compute. discriminate.
Qed.

Lemma rank_candidates_order_and_ranks_witness :
  exists h' groups rows_by_position,
    rank_candidates [0; 1; 2; 3]%nat ["MID"; "FWD"]%string 2
      default_w_attack default_w_minutes default_w_value default_w_fixture
      Examples.sample_heap
    = (h', concat groups, rows_by_position)
    /\ Forall2
         (fun pos top =>
            exists sorted,
              sorted ≡ₚ of_position Examples.sample_heap pos [0; 1; 2; 3]%nat
              /\ StronglySorted (fun r1 r2 => ranks_no_later (h' !!! r1) (h' !!! r2)) sorted
              /\ top = take (Z.to_nat (Z.max 0 2)) sorted
              /\ (forall i r, top !! i = Some r ->
                    rank_position (h' !!! r) = (Z.of_nat i + 1)%Z)
              /\ rows_by_position !! pos = Some (Z.of_nat (length top)))
         ["MID"; "FWD"]%string groups.
Proof.
  apply (rank_candidates_order_and_ranks [0; 1; 2; 3]%nat ["MID"; "FWD"]%string 2
           default_w_attack default_w_minutes default_w_value default_w_fixture
           Examples.sample_heap).
  - apply (bool_decide_unpack _). vm_compute. exact I.
  - intros r Hr. apply elem_of_seq with (j := 0%nat) (n := 4%nat) in Hr.
    simpl. lia.
Defined.

(** The sample store ranked: the two best midfielders, then the forward. *)
Example sample_ranking :
  map (fun c => (player c, rank_position c))
      (let '(h', ranked, _) :=
         rank_candidates [0; 1; 2; 3]%nat ["MID"; "FWD"]%string 2
           default_w_attack default_w_minutes default_w_value default_w_fixture
           Examples.sample_heap in
       emitted h' ranked)
  = [("Foden"%string, 1%Z); ("Palmer"%string, 2%Z); ("Watkins"%string, 1%Z)].
Proof. vm_compute. reflexivity. Qed.

End RankFacts.

(** ** The unit checks of the repository, replayed on the embedding *)

Module DoDChecks.
Import Py PyLoops BuildFeatureTable Phase2RankPlayers.

Example parse_fixture_home_H : parse_fixture_home (Some "ARS (H)") = 1%Z.
Proof. reflexivity. Qed.

Example parse_fixture_home_A : parse_fixture_home (Some "ARS (A)") = 0%Z.
Proof. reflexivity. Qed.

Example parse_fixture_home_unknown : parse_fixture_home (Some "TBD") = 0%Z.
Proof. reflexivity. Qed.

Example weighted_score_sample :
  compute_weighted_score 0.8 0.5 0.6 1 0.50 0.25 0.20 0.05 == 0.695.
Proof. vm_compute. reflexivity. Qed.

Example rolling_mean_sample :
  exists q, rolling_mean [1; 2; 3] 2 = Ok q /\ q == 2.5.
Proof. eexists. split; [vm_compute; reflexivity | reflexivity]. Qed.

Example rolling_std_constant_window :
  exists q, rolling_std Examples.sqrt_approx [2; 2; 2] 3 = Ok q /\ q == 0.
Proof. eexists. split; [vm_compute; reflexivity | reflexivity]. Qed.

Example benching_probability_mixed :
  exists q, compute_benching_probability [90; 0; 30; 0; 90] = Ok q /\ q == 0.36.
Proof. eexists. split; [vm_compute; reflexivity | reflexivity]. Qed.

Example risk_score_sample : compute_risk_score 0.6 0.4 1 == 0.6.
Proof. vm_compute. reflexivity. Qed.

Example benching_probability_empty : compute_benching_probability [] = Ok 1.
Proof. reflexivity. Qed.

End DoDChecks.

(** * Further properties of the two modules *)

(** ** Rolling statistics *)

Module RollingFacts.
Import Py PyLoops PyFacts LoopFacts RiskFacts BuildFeatureTable.

Lemma last_n_app {A : Type} (n : Z) (older recent : list A) :
  (n <= len recent)%Z -> last_n n (older ++ recent) = last_n n recent.
Proof.
  unfold last_n, len. intros Hn. rewrite length_app.
  rewrite drop_app_ge by lia. f_equal. lia.
Qed.

(** X1. The rolling mean and the rolling deviation over a window of [n]
    observations depend on the last [n] observations only: observations
    older than the window change neither. *)
Theorem rolling_window_is_trailing (sqrt : Q -> Q) (older recent : list Q) (n : Z) :
  (n <= len recent)%Z ->
  rolling_mean (older ++ recent) n = rolling_mean recent n
  /\ rolling_std sqrt (older ++ recent) n = rolling_std sqrt recent n.
Proof.
  intros Hn. unfold rolling_mean, rolling_std.
  rewrite (last_n_app n older recent Hn). split; reflexivity.
Qed.

Lemma rolling_window_is_trailing_witness :
  rolling_mean ([100; 7] ++ [1; 2; 3]) 3 = rolling_mean [1; 2; 3] 3
  /\ rolling_std Examples.sqrt_approx ([100; 7] ++ [1; 2; 3]) 3
     = rolling_std Examples.sqrt_approx [1; 2; 3] 3.
Proof.
  apply (rolling_window_is_trailing Examples.sqrt_approx [100; 7] [1; 2; 3] 3).
  vm_compute. discriminate.
Defined.


Lemma inject_len_pos {A : Type} (xs : list A) : xs <> [] -> 0 < inject_Z (len xs).
Proof.
  intros H. destruct xs as [| x xs]; [congruence |].
  unfold len. cbn [length]. rewrite <- (Zlt_Qlt 0). lia.
Qed.







End RollingFacts.

(** ** The written table *)

Module TableFacts.
Import Py PyLoops PyFacts LoopFacts RiskFacts BuildFeatureTable FeatureSpec FeatureFacts.
Import TableSpec.

Lemma lookup_map {A B : Type} (f : A -> B) (l : list A) (i : nat) :
  map f l !! i = f <$> (l !! i).
Proof.
  revert i. induction l as [| x l IH]; intros [| i]; simpl; try reflexivity. apply IH.
Qed.

Lemma unit_clamp_range (x : Q) : 0 <= max2 0 (min2 1 x) <= 1.
Proof.
  pose proof (max_min_clamp x) as E. pose proof (clamp_range x) as H. lra.
Qed.

Lemma compute_benching_probability_range (ms : list Q) (p : Q) :
  compute_benching_probability ms = Ok p -> 0 <= p <= 1.
Proof.
  destruct ms as [| m ms'].
  - intros H. injection H as <-. lra.
  - rewrite benching_value by discriminate. intros H. injection H as <-.
    apply unit_clamp_range.
Qed.

Lemma compute_risk_score_range (b v : Q) (i : Z) : 0 <= compute_risk_score b v i <= 1.
Proof. unfold compute_risk_score. apply unit_clamp_range. Qed.

Lemma feature_lt_asym (a b : FeatureRow) : feature_lt a b = true -> feature_lt b a = false.
Proof.
  unfold feature_lt.
  destruct (Z.eqb_spec (target_event a) (target_event b)),
           (Z.eqb_spec (target_event b) (target_event a)),
           (Z.eqb_spec (fixture_id a) (fixture_id b)),
           (Z.eqb_spec (fixture_id b) (fixture_id a)),
           (Z.eqb_spec (team_id a) (team_id b)),
           (Z.eqb_spec (team_id b) (team_id a));
    cbn [negb]; try congruence;
    rewrite ?Z.ltb_lt, ?Z.ltb_ge; lia.
Qed.

Lemma not_after_key_le (a b : FeatureRow) : not_after feature_lt a b -> key_le a b.
Proof.
  unfold not_after, feature_lt, key_le.
  destruct (Z.eqb_spec (target_event b) (target_event a)),
           (Z.eqb_spec (fixture_id b) (fixture_id a)),
           (Z.eqb_spec (team_id b) (team_id a));
    cbn [negb]; rewrite ?Z.ltb_ge; lia.
Qed.

Lemma key_le_trans (a b c : FeatureRow) : key_le a b -> key_le b c -> key_le a c.
Proof. unfold key_le. lia. Qed.

Ltac bind_case :=
  match goal with
  | |- context [bind ?m _] =>
    let E := fresh "E" in
    destruct m eqn:E; cbn [bind]; [| intros ?; discriminate]
  end.

Section Build.
Variable sqrt : Q -> Q.
Variable to_datetime : list (option string) -> nat -> option Z.

Lemma feature_row_from_prior_fields hz maps p r prior row :
  feature_row_from_prior sqrt hz maps (p, r) prior = Ok row ->
  team_id row = p_team_id p
  /\ horizon row = Z.max 1 hz
  /\ is_home row = tf_is_home r
  /\ opponent_team_id row = tf_opponent_team_id r
  /\ opponent_difficulty row = tf_opponent_difficulty r
  /\ rest_days row = default None (rest_days_map maps !! (p_team_id p, tf_fixture_id r))
  /\ (horizon_fixture_count_team row, horizon_avg_fixture_difficulty row,
      horizon_home_count row)
     = default (0%Z, 0, 0%Z) (horizon_map maps !! (p_team_id p, tf_event r))
  /\ risk_score row
     = compute_risk_score (benching_probability row) (minutes_volatility_5 row)
         (if status_lower_is_a (p_status p) then 0%Z else 1%Z).
Proof.
  unfold feature_row_from_prior.
  destruct (default (0%Z, 0, 0%Z) (horizon_map maps !! (p_team_id p, tf_event r)))
    as [[hc ha] hh].
  repeat bind_case.
  intros H. injection H as <-. cbn.
  repeat split; reflexivity.
Qed.

Lemma build_feature_table_counts db_path output_path hz include_finished fs n fs' :
  build_feature_table sqrt to_datetime db_path output_path hz include_finished fs
  = (Ok n, fs') ->
  exists db maps feature_rows,
    fs !! db_path = Some (SqliteFile db)
    /\ run_of sqrt to_datetime db hz include_finished maps feature_rows
    /\ n = (len (merge_on_team_id (players db)
                   (target_team_fixtures include_finished
                      (_build_team_fixture_rows to_datetime (fixtures db)))),
            len (sort_by feature_lt feature_rows))
    /\ fs' = <[output_path := ParquetFile (sort_by feature_lt feature_rows)]> fs.
Proof.
  unfold build_feature_table, io_bind, path_exists, read_tables, io_raise, io_lift,
    to_parquet, io_ret. cbv beta iota.
  destruct (fs !! db_path) as [[db | rows] |] eqn:Efs.
  - rewrite bool_decide_eq_true_2 by eauto. cbv beta iota delta [negb]. rewrite Efs.
    cbv beta iota.
    destruct (bool_decide (players db = [])) eqn:Ep; cbn [orb];
      [intros H; discriminate H |].
    destruct (bool_decide (fixtures db = [])) eqn:Ef; [intros H; discriminate H |].
    destruct (build_maps _ _ _) as [maps |] eqn:Em; [| intros H; discriminate H].
    destruct (bool_decide (target_team_fixtures include_finished
                (_build_team_fixture_rows to_datetime (fixtures db)) = [])) eqn:Et;
      [intros H; discriminate H |].
    destruct (comprehension _ _) as [feature_rows |] eqn:Ec;
      [| intros H; discriminate H].
    intros H. injection H as <- <-.
    exists db, maps, feature_rows.
    unfold run_of. repeat split; assumption.
  - rewrite bool_decide_eq_true_2 by eauto. cbv beta iota delta [negb]. rewrite Efs.
    intros H; discriminate H.
  - rewrite bool_decide_eq_false_2 by (intros [? ?]; discriminate).
    cbn [negb]. intros H; discriminate H.
Qed.

(** X4. Every fixture gives exactly two rows of the team fixtures: a home
    row of its home team at the index of the fixture, and an away row of
    its away team at this index after the home rows; each has the other
    team as opponent and the difficulty of its own side. *)
Theorem team_fixture_rows_two_per_fixture (fixtures : list FixtureRow) :
  length (_build_team_fixture_rows to_datetime fixtures) = (2 * length fixtures)%nat
  /\ forall i f, fixtures !! i = Some f ->
       exists home away,
         _build_team_fixture_rows to_datetime fixtures !! i = Some home
         /\ _build_team_fixture_rows to_datetime fixtures !! (length fixtures + i)%nat
            = Some away
         /\ tf_fixture_id home = f_fixture_id f /\ tf_fixture_id away = f_fixture_id f
         /\ tf_event home = default 0%Z (f_event f)
         /\ tf_event away = default 0%Z (f_event f)
         /\ tf_team_id home = f_team_h f /\ tf_opponent_team_id home = f_team_a f
         /\ tf_team_id away = f_team_a f /\ tf_opponent_team_id away = f_team_h f
         /\ tf_is_home home = 1%Z /\ tf_is_home away = 0%Z
         /\ tf_opponent_difficulty home = default 0%Z (f_team_h_difficulty f)
         /\ tf_opponent_difficulty away = default 0%Z (f_team_a_difficulty f).
Proof.
  unfold _build_team_fixture_rows. split.
  - rewrite length_imap, length_app, !length_map. lia.
  - intros i f Hf. eexists _, _.
    split.
    { rewrite list_lookup_imap, lookup_app_l
        by (rewrite length_map; eapply lookup_lt_Some; exact Hf).
      rewrite lookup_map, Hf. reflexivity. }
    split.
    { rewrite list_lookup_imap, lookup_app_r by (rewrite length_map; lia).
      rewrite length_map, lookup_map.
      replace (length fixtures + i - length fixtures)%nat with i by lia.
      rewrite Hf. reflexivity. }
    cbn. repeat split; reflexivity.
Qed.

(** X5. The table that a run writes is sorted by target event, then by
    fixture, by team and by player, and both counts that the run returns
    are the number of written rows. *)
Theorem written_table_sorted_and_counted
    db_path output_path hz include_finished fs n fs' :
  build_feature_table sqrt to_datetime db_path output_path hz include_finished fs
  = (Ok n, fs') ->
  exists rows,
    fs' !! output_path = Some (ParquetFile rows)
    /\ StronglySorted key_le rows
    /\ fst n = len rows /\ snd n = len rows.
Proof.
  intros H.
  apply build_feature_table_counts in H as (db & maps & feature_rows & _ & Hrun & -> & ->).
  eexists. split; [apply lookup_insert_eq |]. split; [| split].
  - apply Sorted_StronglySorted; [intros a b c; apply key_le_trans |].
    apply (Sorted_weaken (not_after feature_lt)); [apply not_after_key_le |].
    apply sort_by_Sorted. apply feature_lt_asym.
  - cbn [fst]. destruct Hrun as [_ Hrun].
    apply comprehension_Ok, Forall2_length in Hrun.
    unfold len. rewrite sort_by_length, Hrun. reflexivity.
  - reflexivity.
Qed.

Lemma build_feature_table_effect db_path output_path hz include_finished fs res fs' :
  build_feature_table sqrt to_datetime db_path output_path hz include_finished fs
  = (res, fs') ->
  (fs !! db_path = None -> exists msg, res = Raise (FileNotFoundError msg))
  /\ match res with
     | Raise _ => fs' = fs
     | Ok _ => exists rows, fs' = <[output_path := ParquetFile rows]> fs
     end.
Proof.
  unfold build_feature_table, io_bind, path_exists, read_tables, io_raise, io_lift,
    to_parquet, io_ret. cbv beta iota.
  destruct (fs !! db_path) as [[db | rows] |] eqn:Efs.
  - rewrite bool_decide_eq_true_2 by eauto. cbv beta iota delta [negb]. rewrite Efs.
    cbv beta iota.
    destruct (bool_decide (players db = []) || bool_decide (fixtures db = []));
      [intros H; injection H as <- <-; split; [discriminate | reflexivity] |].
    destruct (build_maps _ _ _) as [maps |];
      [| intros H; injection H as <- <-; split; [discriminate | reflexivity]].
    destruct (bool_decide (target_team_fixtures include_finished
                (_build_team_fixture_rows to_datetime (fixtures db)) = []));
      [intros H; injection H as <- <-; split; [discriminate | reflexivity] |].
    destruct (comprehension _ _) as [feature_rows |];
      intros H; injection H as <- <-; (split; [discriminate |]).
    + eexists. reflexivity.
    + reflexivity.
  - rewrite bool_decide_eq_true_2 by eauto. cbv beta iota delta [negb]. rewrite Efs.
    intros H. injection H as <- <-. split; [discriminate | reflexivity].
  - rewrite bool_decide_eq_false_2 by (intros [? ?]; discriminate).
    cbn [negb]. intros H. injection H as <- <-.
    split; [intros _; eexists; reflexivity | reflexivity].
Qed.

(** X6. A run writes no file but its output, and writes it only when it
    completes: a run that raises leaves every file as it was, and it raises
    [FileNotFoundError] when there is no file at the path of the database. *)
Theorem run_writes_only_its_output db_path output_path hz include_finished fs res fs' :
  build_feature_table sqrt to_datetime db_path output_path hz include_finished fs
  = (res, fs') ->
  (fs !! db_path = None -> exists msg, res = Raise (FileNotFoundError msg))
  /\ match res with
     | Raise _ => fs' = fs
     | Ok _ => exists rows, fs' = <[output_path := ParquetFile rows]> fs
     end.
Proof. apply build_feature_table_effect. Qed.

Lemma team_fixture_origin_full (fixtures : list FixtureRow) (r : TeamFixture) :
  r ∈ _build_team_fixture_rows to_datetime fixtures ->
  exists f, f ∈ fixtures
    /\ tf_fixture_id r = f_fixture_id f
    /\ tf_event r = default 0%Z (f_event f)
    /\ tf_finished r = default 0%Z (f_finished f)
    /\ ((tf_team_id r = f_team_h f /\ tf_opponent_team_id r = f_team_a f
         /\ tf_is_home r = 1%Z)
        \/ (tf_team_id r = f_team_a f /\ tf_opponent_team_id r = f_team_h f
            /\ tf_is_home r = 0%Z)).
Proof.
  unfold _build_team_fixture_rows. intros H.
  apply elem_of_lookup_imap in H as (i & y & -> & Hy).
  apply list_elem_of_lookup_2 in Hy.
  apply elem_of_app in Hy as [Hy | Hy];
    apply elem_of_map in Hy as (f & <- & Hf); exists f; cbn;
    (split; [exact Hf |]); do 3 (split; [reflexivity |]);
    [left | right]; repeat split; reflexivity.
Qed.

Lemma target_team_fixtures_elem_of (include_finished : bool)
    (team_fixtures : list TeamFixture) (r : TeamFixture) :
  r ∈ target_team_fixtures include_finished team_fixtures ->
  r ∈ team_fixtures /\ (0 < tf_event r)%Z
  /\ (include_finished = false -> tf_finished r = 0%Z).
Proof.
  unfold target_team_fixtures. intros H.
  apply elem_of_filter_bool in H as [H He]. apply Z.ltb_lt in He.
  destruct include_finished.
  - repeat split; [exact H | exact He | discriminate].
  - apply elem_of_filter_bool in H as [H Hf]. apply Z.eqb_eq in Hf.
    repeat split; [exact H | exact He | intros _; exact Hf].
Qed.

(** X7. In every row that a run writes the benching probability and the
    risk score lie between 0 and 1, the horizon is the requested horizon
    raised to at least 1, and the home flag is 0 or 1. *)
Theorem written_rows_in_range db_path output_path hz include_finished fs n fs' :
  build_feature_table sqrt to_datetime db_path output_path hz include_finished fs
  = (Ok n, fs') ->
  exists rows,
    fs' !! output_path = Some (ParquetFile rows)
    /\ forall row, row ∈ rows ->
         0 <= benching_probability row <= 1
         /\ 0 <= risk_score row <= 1
         /\ horizon row = Z.max 1 hz
         /\ (is_home row = 0%Z \/ is_home row = 1%Z).
Proof.
  intros H.
  apply build_feature_table_counts in H as (db & maps & feature_rows & _ & Hrun & _ & ->).
  eexists. split; [apply lookup_insert_eq |].
  intros row Hrow.
  destruct (written_row_origin _ _ _ _ _ _ _ _ Hrun Hrow) as (p & r & _ & Hr & _ & Hf).
  unfold feature_row in Hf.
  pose proof (feature_row_from_prior_inv _ _ _ _ _ _ _ Hf) as (Hstat & _).
  pose proof (feature_row_from_prior_fields _ _ _ _ _ _ Hf)
    as (_ & Hhz & Hhome & _ & _ & _ & _ & Hrisk).
  destruct Hstat as (_ & _ & _ & _ & _ & _ & _ & _ & Hbench & _).
  split; [exact (compute_benching_probability_range _ _ Hbench) |].
  split; [rewrite Hrisk; apply compute_risk_score_range |].
  split; [exact Hhz |].
  apply target_team_fixtures_elem_of in Hr as (Hr & _ & _).
  apply team_fixture_origin_full in Hr as (f & _ & _ & _ & _ & [(_ & _ & Hh) | (_ & _ & Hh)]);
    rewrite Hhome, Hh; [right | left]; reflexivity.
Qed.

(** X8. Every row that a run writes is the row of a player of the database
    and of a fixture of the database that the team of the player plays, at
    home or away as the row says; the event of the fixture is the target
    event and is positive, and the fixture is not finished unless finished
    fixtures are included. *)
Theorem written_rows_target_fixtures db_path output_path hz include_finished fs n fs' :
  build_feature_table sqrt to_datetime db_path output_path hz include_finished fs
  = (Ok n, fs') ->
  exists db rows,
    fs !! db_path = Some (SqliteFile db)
    /\ fs' !! output_path = Some (ParquetFile rows)
    /\ forall row, row ∈ rows ->
       exists p f,
         p ∈ players db /\ f ∈ fixtures db
         /\ player_id row = p_player_id p /\ team_id row = p_team_id p
         /\ fixture_id row = f_fixture_id f
         /\ target_event row = default 0%Z (f_event f)
         /\ (0 < target_event row)%Z
         /\ (include_finished = false -> default 0%Z (f_finished f) = 0%Z)
         /\ ((team_id row = f_team_h f /\ opponent_team_id row = f_team_a f
              /\ is_home row = 1%Z)
             \/ (team_id row = f_team_a f /\ opponent_team_id row = f_team_h f
                 /\ is_home row = 0%Z)).
Proof.
  intros H.
  apply build_feature_table_counts in H as (db & maps & feature_rows & Efs & Hrun & _ & ->).
  exists db. eexists. split; [exact Efs |]. split; [apply lookup_insert_eq |].
  intros row Hrow.
  destruct (written_row_origin _ _ _ _ _ _ _ _ Hrun Hrow) as (p & r & Hp & Hr & Hteam & Hf).
  unfold feature_row in Hf.
  pose proof (feature_row_from_prior_inv _ _ _ _ _ _ _ Hf)
    as (_ & _ & _ & Hpid & Hfid & Hev).
  pose proof (feature_row_from_prior_fields _ _ _ _ _ _ Hf)
    as (Htid & _ & Hhome & Hopp & _).
  apply target_team_fixtures_elem_of in Hr as (Hr & Hpos & Hfin).
  apply team_fixture_origin_full in Hr as (f & Hfin' & Hfid' & Hev' & Hfi & Hside).
  exists p, f.
  split; [exact Hp |]. split; [exact Hfin' |]. split; [exact Hpid |].
  split; [exact Htid |]. split; [congruence |]. split; [congruence |].
  split; [rewrite Hev; exact Hpos |].
  split; [intros Hinc; rewrite <- Hfi; apply Hfin; exact Hinc |].
  rewrite Htid, Hopp, Hhome, <- Hteam.
  exact Hside.
Qed.

Lemma dgw_fold_lookup (team_fixtures : list TeamFixture) (m : gmap (Z * Z) Z)
    (team event : Z) :
  default 0%Z
    (foldl (fun m r =>
              let key := (tf_team_id r, tf_event r) in
              <[key := (default 0 (m !! key) + 1)%Z]> m)
           m team_fixtures !! (team, event))
  = (default 0 (m !! (team, event))
     + len (fixtures_between team event 1 team_fixtures))%Z.
Proof.
  revert m. induction team_fixtures as [| r tfs IH]; intros m.
  - unfold len. cbn. lia.
  - cbn [foldl]. rewrite IH. cbv zeta. unfold fixtures_between. cbn [List.filter].
    destruct (decide ((tf_team_id r, tf_event r) = (team, event))) as [E | E].
    + injection E as Et Ee. rewrite Et, Ee, lookup_insert_eq. cbn [default].
      rewrite Z.eqb_refl, (proj2 (Z.leb_le event event)), (proj2 (Z.ltb_lt event (event + 1)))
        by lia.
      cbn [andb]. unfold len, id. cbn [length]. lia.
    + rewrite lookup_insert_ne by exact E.
      destruct (Z.eqb_spec (tf_team_id r) team), (Z.leb_spec event (tf_event r)),
               (Z.ltb_spec (tf_event r) (event + 1));
        cbn [andb]; try reflexivity.
      exfalso. apply E. f_equal; lia.
Qed.

Lemma fixtures_between_elem_of (team first count : Z) (team_fixtures : list TeamFixture)
    (r : TeamFixture) :
  r ∈ fixtures_between team first count team_fixtures
  <-> r ∈ team_fixtures /\ tf_team_id r = team
      /\ (first <= tf_event r < first + count)%Z.
Proof.
  unfold fixtures_between. rewrite elem_of_filter_bool, !andb_true_iff.
  rewrite Z.eqb_eq, Z.leb_le, Z.ltb_lt. tauto.
Qed.

Lemma len_pos_elem_of {A : Type} (l : list A) (x : A) : x ∈ l -> (1 <= len l)%Z.
Proof. intros H. unfold len. destruct l; [inversion H | cbn [length]; lia]. Qed.

(** X9. In every row that a run writes, [dgw_count_in_event] is the number
    of fixtures that the team of the row plays in the target event, and it
    is at least 1. *)
Theorem dgw_count_is_fixtures_in_event
    db_path output_path hz include_finished fs n fs' :
  build_feature_table sqrt to_datetime db_path output_path hz include_finished fs
  = (Ok n, fs') ->
  exists db rows,
    fs !! db_path = Some (SqliteFile db)
    /\ fs' !! output_path = Some (ParquetFile rows)
    /\ forall row, row ∈ rows ->
         dgw_count_in_event row
         = len (fixtures_between (team_id row) (target_event row) 1
                  (_build_team_fixture_rows to_datetime (fixtures db)))
         /\ (1 <= dgw_count_in_event row)%Z.
Proof.
  intros H.
  apply build_feature_table_counts in H as (db & maps & feature_rows & Efs & Hrun & _ & ->).
  exists db. eexists. split; [exact Efs |]. split; [apply lookup_insert_eq |].
  intros row Hrow.
  destruct (written_row_origin _ _ _ _ _ _ _ _ Hrun Hrow) as (p & r & Hp & Hr & Hteam & Hf).
  unfold feature_row in Hf.
  pose proof (feature_row_from_prior_inv _ _ _ _ _ _ _ Hf)
    as (_ & _ & Hdgw & _ & _ & Hev).
  pose proof (feature_row_from_prior_fields _ _ _ _ _ _ Hf) as (Htid & _).
  apply target_team_fixtures_elem_of in Hr as (Hr & _ & _).
  destruct Hrun as [Hmaps _].
  rewrite (build_maps_dgw _ _ _ _ Hmaps) in Hdgw.
  pose proof (dgw_fold_lookup (_build_team_fixture_rows to_datetime (fixtures db)) ∅
                (p_team_id p) (tf_event r)) as Hfold.
  rewrite lookup_empty in Hfold. cbn [default] in Hfold.
  fold (build_dgw_count_map (_build_team_fixture_rows to_datetime (fixtures db))) in Hfold.
  assert (Hpos : (1 <= len (fixtures_between (p_team_id p) (tf_event r) 1
                             (_build_team_fixture_rows to_datetime (fixtures db))))%Z).
  { apply (len_pos_elem_of _ r). apply fixtures_between_elem_of.
    split; [exact Hr |]. split; [exact Hteam | lia]. }
  rewrite Htid, Hev, Hdgw.
  destruct (build_dgw_count_map _ !! (p_team_id p, tf_event r)) as [c |];
    cbn [default] in *; lia.
Qed.

Lemma foldl_preserves {S A : Type} (P : S -> Prop) (f : S -> A -> S) (l : list A) (s : S) :
  P s -> (forall s x, P s -> P (f s x)) -> P (foldl f s l).
Proof.
  intros Hs Hf. revert s Hs. induction l as [| x l IH]; intros s Hs; cbn [foldl];
    [exact Hs | apply IH, Hf, Hs].
Qed.

Lemma max2_0_nonneg (x : Q) : 0 <= max2 0 x.
Proof.
  unfold max2. destruct (ltb 0 x) eqn:E; [apply ltb_lt in E; lra | lra].
Qed.

Lemma rest_days_nonneg (team_fixtures : list TeamFixture) (key : Z * Z) (d : Q) :
  _build_rest_days_map team_fixtures !! key = Some (Some d) -> 0 <= d.
Proof.
  unfold _build_rest_days_map. revert key d.
  apply (foldl_preserves
           (fun m : gmap (Z * Z) (option Q) =>
              forall key d, m !! key = Some (Some d) -> 0 <= d)).
  - intros key d H. rewrite lookup_empty in H. discriminate.
  - intros m team Hm.
    apply (foldl_preserves
             (fun st : option Z * gmap (Z * Z) (option Q) =>
                forall key d, snd st !! key = Some (Some d) -> 0 <= d)).
    + exact Hm.
    + intros [previous m'] row Hm' key d. unfold _build_rest_days_map_body. cbn [snd] in *.
      destruct (decide ((team, tf_fixture_id row) = key)) as [<- | E].
      * rewrite lookup_insert_eq. intros H. injection H as H.
        destruct previous, (tf_kickoff_dt row); try discriminate.
        injection H as <-. apply max2_0_nonneg.
      * rewrite lookup_insert_ne by exact E. apply Hm'.
Qed.

(** X10. The rest days of a row that a run writes are never negative: they
    are null or at least 0. *)
Theorem rest_days_never_negative db_path output_path hz include_finished fs n fs' :
  build_feature_table sqrt to_datetime db_path output_path hz include_finished fs
  = (Ok n, fs') ->
  exists rows,
    fs' !! output_path = Some (ParquetFile rows)
    /\ forall row d, row ∈ rows -> rest_days row = Some d -> 0 <= d.
Proof.
  intros H.
  apply build_feature_table_counts in H as (db & maps & feature_rows & _ & Hrun & _ & ->).
  eexists. split; [apply lookup_insert_eq |].
  intros row d Hrow Hd.
  destruct (written_row_origin _ _ _ _ _ _ _ _ Hrun Hrow) as (p & r & _ & _ & _ & Hf).
  unfold feature_row in Hf.
  pose proof (feature_row_from_prior_fields _ _ _ _ _ _ Hf)
    as (_ & _ & _ & _ & _ & Hrest & _).
  destruct Hrun as [Hmaps _]. unfold build_maps in Hmaps.
  destruct (_build_horizon_map _ _) as [hm |]; cbn [bind] in Hmaps; [| discriminate].
  injection Hmaps as <-. cbn [rest_days_map] in Hrest.
  rewrite Hd in Hrest.
  destruct (_build_rest_days_map _ !! (p_team_id p, tf_fixture_id r)) as [v |] eqn:E;
    cbn [default] in Hrest; [| discriminate].
  unfold id in Hrest. subst v. exact (rest_days_nonneg _ _ _ E).
Qed.

(** *** The horizon map *)

Ltac triple_eq :=
  try apply (f_equal Some); apply (f_equal2 pair); [apply (f_equal2 pair) |]; lia.

Lemma len_column_sum (rows : list TeamFixture) : len rows = column_sum (fun _ => 1%Z) rows.
Proof.
  unfold len. induction rows as [| r rows IH]; cbn [length column_sum foldr]; [reflexivity |].
  fold (column_sum (fun _ => 1%Z) rows). lia.
Qed.

Lemma event_fold_lookup (group : list TeamFixture) (m : gmap Z (Z * Z * Z)) (e : Z) :
  foldl (fun m r =>
           let '(fixture_count, difficulty_sum, home_count) :=
             default (0, 0, 0)%Z (m !! tf_event r) in
           <[tf_event r := (fixture_count + 1, difficulty_sum + tf_opponent_difficulty r,
                            home_count + tf_is_home r)%Z]> m)
        m group !! e
  = match event_rows e group with
    | [] => m !! e
    | _ =>
      let '(c, d, h) := default (0, 0, 0)%Z (m !! e) in
      Some (c + len (event_rows e group),
            d + column_sum tf_opponent_difficulty (event_rows e group),
            h + column_sum tf_is_home (event_rows e group))%Z
    end.
Proof.
  revert m. induction group as [| r group IH]; intros m; [reflexivity |].
  cbn [foldl]. rewrite IH. unfold event_rows. cbn [List.filter].
  fold (event_rows e group).
  destruct (Z.eqb_spec (tf_event r) e) as [E | E].
  - rewrite E. destruct (default (0, 0, 0)%Z (m !! e)) as [[c d] h].
    rewrite lookup_insert_eq. cbn [default from_option id].
    unfold len. cbn [length column_sum foldr].
    fold (column_sum tf_opponent_difficulty (event_rows e group)).
    fold (column_sum tf_is_home (event_rows e group)).
    destruct (event_rows e group) as [| r' rows'].
    + unfold column_sum. cbn [length foldr]. triple_eq.
    + unfold id. triple_eq.
  - destruct (default (0, 0, 0)%Z (m !! tf_event r)) as [[c d] h].
    rewrite lookup_insert_ne by exact E. reflexivity.
Qed.

Lemma event_stats_lookup (group : list TeamFixture) (e : Z) :
  event_stats group !! e
  = match event_rows e group with
    | [] => None
    | _ =>
      Some (len (event_rows e group),
            inject_Z (column_sum tf_opponent_difficulty (event_rows e group))
            / inject_Z (len (event_rows e group)),
            column_sum tf_is_home (event_rows e group))
    end.
Proof.
  unfold event_stats. rewrite lookup_fmap, event_fold_lookup, lookup_empty.
  destruct (event_rows e group); reflexivity.
Qed.

Lemma in_events_cons (column : TeamFixture -> Z) (e : Z) (events : list Z)
    (group : list TeamFixture) :
  e ∉ events ->
  column_sum column (in_events (e :: events) group)
  = (column_sum column (event_rows e group) + column_sum column (in_events events group))%Z.
Proof.
  intros He. unfold in_events, event_rows, column_sum.
  induction group as [| r group IH]; [reflexivity |].
  cbn [List.filter].
  destruct (Z.eqb_spec (tf_event r) e) as [E | E].
  - rewrite bool_decide_eq_true_2 by (rewrite E; left).
    rewrite (bool_decide_eq_false_2 (tf_event r ∈ events)) by (rewrite E; exact He).
    cbn [foldr]. rewrite IH. lia.
  - destruct (decide (tf_event r ∈ events)) as [Hin | Hout].
    + rewrite !bool_decide_eq_true_2 by (try right; exact Hin).
      cbn [foldr]. rewrite IH. lia.
    + rewrite (bool_decide_eq_false_2 (tf_event r ∈ events)) by exact Hout.
      rewrite bool_decide_eq_false_2; [exact IH |].
      intros H. apply elem_of_cons in H as [H | H]; [exact (E H) | exact (Hout H)].
Qed.

Lemma horizon_totals_fold (group : list TeamFixture) (events : list Z) (a b : Z) (w : Q) :
  NoDup events ->
  exists w',
    foldl (fun '(total_fixtures, total_home, weighted_diff_sum) candidate_event =>
             match event_stats group !! candidate_event with
             | None => (total_fixtures, total_home, weighted_diff_sum)
             | Some (fixture_count, avg_diff, home_count) =>
               ((total_fixtures + fixture_count)%Z, (total_home + home_count)%Z,
                weighted_diff_sum + avg_diff * inject_Z fixture_count)
             end)
          (a, b, w) events
    = ((a + len (in_events events group))%Z,
       (b + column_sum tf_is_home (in_events events group))%Z, w')
    /\ w' == w + inject_Z (column_sum tf_opponent_difficulty (in_events events group)).
Proof.
  intros Hnd. revert a b w. induction Hnd as [| e events He Hnd IH]; intros a b w.
  - exists w. split.
    + cbn [foldl]. unfold in_events, len.
      rewrite (filter_nil _ group) by (intros r _; apply bool_decide_eq_false_2; inversion 1).
      unfold column_sum. cbn [length foldr].
      apply (f_equal2 pair); [apply (f_equal2 pair) |]; [lia | lia | reflexivity].
    + unfold in_events.
      rewrite (filter_nil _ group) by (intros r _; apply bool_decide_eq_false_2; inversion 1).
      unfold column_sum. cbn [foldr]. change (inject_Z 0) with 0. lra.
  - cbn [foldl]. rewrite event_stats_lookup.
    rewrite !len_column_sum, !(in_events_cons _ e events group He), <- !len_column_sum.
    destruct (event_rows e group) as [| r0 rows0] eqn:Er.
    + destruct (IH a b w) as (w' & Hfold & Hw'). exists w'. split.
      * rewrite Hfold. unfold len. cbn [length column_sum foldr].
        apply (f_equal2 pair); [apply (f_equal2 pair) |]; [lia | lia | reflexivity].
      * rewrite Hw'. cbn. reflexivity.
    + rewrite <- Er.
      destruct (IH (a + len (event_rows e group))%Z
                   (b + column_sum tf_is_home (event_rows e group))%Z
                   (w + inject_Z (column_sum tf_opponent_difficulty (event_rows e group))
                        / inject_Z (len (event_rows e group))
                        * inject_Z (len (event_rows e group))))
        as (w' & Hfold & Hw').
      exists w'. split.
      * rewrite Hfold.
        apply (f_equal2 pair); [apply (f_equal2 pair) |]; [lia | lia | reflexivity].
      * rewrite Hw', inject_Z_plus.
        assert (Hpos : 0 < inject_Z (len (event_rows e group))).
        { apply RollingFacts.inject_len_pos. rewrite Er. discriminate. }
        field. lra.
Qed.

Lemma in_events_team_group (team first count : Z) (team_fixtures : list TeamFixture) :
  in_events (seqZ first count) (team_group team team_fixtures)
  = fixtures_between team first count team_fixtures.
Proof.
  unfold in_events, team_group, fixtures_between.
  induction team_fixtures as [| r tfs IH]; [reflexivity |].
  cbn [List.filter].
  destruct (Z.eqb_spec (tf_team_id r) team) as [E | E]; cbn [andb List.filter].
  - rewrite IH.
    destruct (decide (tf_event r ∈ seqZ first count)) as [Hin | Hout].
    + rewrite bool_decide_eq_true_2 by exact Hin.
      apply elem_of_seqZ in Hin.
      rewrite (proj2 (Z.leb_le _ _)), (proj2 (Z.ltb_lt _ _)) by lia. reflexivity.
    + rewrite bool_decide_eq_false_2 by exact Hout.
      rewrite elem_of_seqZ in Hout.
      destruct (Z.leb_spec first (tf_event r)), (Z.ltb_spec (tf_event r) (first + count));
        cbn [andb]; try reflexivity.
      exfalso. apply Hout. lia.
  - exact IH.
Qed.

Lemma horizon_value_spec (team hz event : Z) (team_fixtures : list TeamFixture) :
  fixtures_between team event (Z.max 1 hz) team_fixtures <> [] ->
  exists avg,
    horizon_value (event_stats (team_group team team_fixtures)) hz event
    = (len (fixtures_between team event (Z.max 1 hz) team_fixtures), avg,
       column_sum tf_is_home (fixtures_between team event (Z.max 1 hz) team_fixtures))
    /\ avg == inject_Z (column_sum tf_opponent_difficulty
                          (fixtures_between team event (Z.max 1 hz) team_fixtures))
              / inject_Z (len (fixtures_between team event (Z.max 1 hz) team_fixtures)).
Proof.
  intros Hne. unfold horizon_value, horizon_totals.
  destruct (horizon_totals_fold (team_group team team_fixtures)
              (seqZ event (Z.max 1 hz)) 0%Z 0%Z 0 (NoDup_seqZ _ _)) as (w' & -> & Hw').
  rewrite in_events_team_group in *.
  rewrite !Z.add_0_l.
  pose proof (RollingFacts.inject_len_pos _ Hne) as Hpos.
  rewrite (proj2 (Z.ltb_lt 0 _)) by (rewrite (Zlt_Qlt 0); exact Hpos).
  eexists. split; [reflexivity |]. rewrite Hw'. field. lra.
Qed.

Lemma _build_horizon_map_body_insert (es : gmap Z (Z * Q * Z)) (hz team : Z)
    (hm : gmap (Z * Z) (Z * Q * Z)) (event : Z) :
  _build_horizon_map_body es hz team hm event
  = Ok (<[(team, event) := horizon_value es hz event]> hm).
Proof.
  unfold _build_horizon_map_body, horizon_value.
  destruct (horizon_totals es event hz) as [[tf th] wd].
  destruct (0 <? tf)%Z eqn:E; [| reflexivity].
  apply Z.ltb_lt in E. unfold truediv.
  rewrite (proj2 (eqb_neq (inject_Z tf) 0)); [reflexivity |].
  intros H. assert (0 < inject_Z tf) by (rewrite <- (Zlt_Qlt 0); exact E). lra.
Qed.

Lemma for_each_total {S A : Type} (body : S -> A -> result S) (g : S -> A -> S)
    (xs : list A) (s : S) :
  (forall s x, body s x = Ok (g s x)) -> for_each body xs s = Ok (foldl g s xs).
Proof.
  intros H. revert s. induction xs as [| x xs IH]; intros s; [reflexivity |].
  cbn [for_each foldl]. rewrite H. cbn [bind]. apply IH.
Qed.

Lemma inner_insert_lookup {V : Type} (value : Z -> Z -> V) (t : Z) (events : list Z)
    (hm : gmap (Z * Z) V) (team e : Z) :
  hm !! (team, e) = Some (value team e) \/ (t = team /\ e ∈ events) ->
  foldl (fun hm e => <[(t, e) := value t e]> hm) hm events !! (team, e)
  = Some (value team e).
Proof.
  revert hm. induction events as [| e0 events IH]; intros hm H.
  - destruct H as [H | [_ H]]; [exact H | inversion H].
  - cbn [foldl]. apply IH.
    destruct (decide ((t, e0) = (team, e))) as [E | E].
    + left. injection E as -> ->. apply lookup_insert_eq.
    + rewrite lookup_insert_ne by exact E.
      destruct H as [H | [-> H]]; [left; exact H | right].
      split; [reflexivity |].
      apply elem_of_cons in H as [-> | H]; [contradiction | exact H].
Qed.

Lemma nested_insert_lookup {V : Type} (value : Z -> Z -> V) (events : Z -> list Z)
    (teams : list Z) (hm : gmap (Z * Z) V) (team e : Z) :
  hm !! (team, e) = Some (value team e) \/ (team ∈ teams /\ e ∈ events team) ->
  foldl (fun hm t => foldl (fun hm e => <[(t, e) := value t e]> hm) hm (events t))
        hm teams !! (team, e)
  = Some (value team e).
Proof.
  revert hm. induction teams as [| t teams IH]; intros hm H.
  - destruct H as [H | [H _]]; [exact H | inversion H].
  - cbn [foldl]. apply IH.
    destruct H as [H | [Ht He]].
    + left. apply inner_insert_lookup. left. exact H.
    + apply elem_of_cons in Ht as [-> | Ht].
      * left. apply inner_insert_lookup. right. split; [reflexivity | exact He].
      * right. split; [exact Ht | exact He].
Qed.

Lemma elem_of_drop_duplicates {A : Type} `{EqDecision A} (seen l : list A) (x : A) :
  x ∈ l -> x ∉ seen -> x ∈ drop_duplicates seen l.
Proof.
  revert seen. induction l as [| y l IH]; intros seen Hx Hseen; [inversion Hx |].
  cbn [drop_duplicates].
  destruct (decide (y ∈ seen)) as [Hy | Hy].
  - rewrite bool_decide_eq_true_2 by exact Hy.
    apply elem_of_cons in Hx as [-> | Hx]; [contradiction | apply IH; assumption].
  - rewrite bool_decide_eq_false_2 by exact Hy.
    destruct (decide (x = y)) as [-> | Hxy]; [left |].
    right. apply elem_of_cons in Hx as [-> | Hx]; [contradiction |].
    apply IH; [exact Hx |].
    intros H. apply elem_of_cons in H as [H | H]; [exact (Hxy H) | exact (Hseen H)].
Qed.

Lemma _build_horizon_map_lookup (team_fixtures : list TeamFixture) (hz : Z)
    (hm : gmap (Z * Z) (Z * Q * Z)) (r : TeamFixture) :
  _build_horizon_map team_fixtures hz = Ok hm ->
  r ∈ team_fixtures ->
  hm !! (tf_team_id r, tf_event r)
  = Some (horizon_value (event_stats (team_group (tf_team_id r) team_fixtures)) hz
            (tf_event r)).
Proof.
  unfold _build_horizon_map. intros H Hr.
  rewrite (for_each_total _
             (fun hm t =>
                foldl (fun hm e =>
                         <[(t, e) := horizon_value (event_stats (team_group t team_fixtures))
                                       hz e]> hm)
                      hm
                      (sort_by Z.ltb
                         (map fst (map_to_list (event_stats (team_group t team_fixtures)))))))
    in H.
  - injection H as <-.
    apply (nested_insert_lookup
             (fun t e => horizon_value (event_stats (team_group t team_fixtures)) hz e)
             (fun t => sort_by Z.ltb
                         (map fst (map_to_list (event_stats (team_group t team_fixtures)))))).
    right. split.
    + unfold team_ids. apply elem_of_drop_duplicates; [| inversion 1].
      apply elem_of_map. exists r. split; [reflexivity | exact Hr].
    + apply sort_by_elem_of, elem_of_map.
      assert (Hin : r ∈ event_rows (tf_event r) (team_group (tf_team_id r) team_fixtures)).
      { unfold event_rows, team_group. rewrite !elem_of_filter_bool, !Z.eqb_eq. tauto. }
      pose proof (event_stats_lookup (team_group (tf_team_id r) team_fixtures) (tf_event r))
        as Hes.
      destruct (event_rows (tf_event r) (team_group (tf_team_id r) team_fixtures))
        as [| r0 rows0] eqn:Er; [inversion Hin |].
      eexists (_, _). split; [reflexivity |].
      apply elem_of_map_to_list. exact Hes.
  - intros hm' t. apply for_each_total. intros hm'' e.
    apply _build_horizon_map_body_insert.
Qed.

Lemma column_sum_flags (rows : list TeamFixture) :
  (forall r, r ∈ rows -> tf_is_home r = 0%Z \/ tf_is_home r = 1%Z) ->
  column_sum tf_is_home rows = len (List.filter (fun r => (tf_is_home r =? 1)%Z) rows).
Proof.
  unfold len. induction rows as [| r rows IH]; intros H; [reflexivity |].
  cbn [column_sum foldr List.filter]. fold (column_sum tf_is_home rows).
  rewrite IH by (intros r' Hr'; apply H; right; exact Hr').
  assert (Hr : r ∈ r :: rows) by left.
  destruct (H r Hr) as [E | E]; rewrite E; simpl Z.eqb; cbn [length]; lia.
Qed.

(** X11. In every row that a run writes, the horizon fixture count is the
    number of fixtures that the team of the row plays in the events from
    the target event up to the horizon, the target event included; the
    horizon home count is the number of these that are home fixtures, and
    the horizon difficulty is the mean difficulty of these fixtures. *)
Theorem horizon_columns_cover_events_ahead
    db_path output_path hz include_finished fs n fs' :
  build_feature_table sqrt to_datetime db_path output_path hz include_finished fs
  = (Ok n, fs') ->
  exists db rows,
    fs !! db_path = Some (SqliteFile db)
    /\ fs' !! output_path = Some (ParquetFile rows)
    /\ forall row, row ∈ rows ->
         let ahead := fixtures_between (team_id row) (target_event row) (Z.max 1 hz)
                        (_build_team_fixture_rows to_datetime (fixtures db)) in
         horizon_fixture_count_team row = len ahead
         /\ (1 <= horizon_fixture_count_team row)%Z
         /\ horizon_home_count row
            = len (List.filter (fun r => (tf_is_home r =? 1)%Z) ahead)
         /\ horizon_avg_fixture_difficulty row
            == inject_Z (column_sum tf_opponent_difficulty ahead) / inject_Z (len ahead).
Proof.
  intros H.
  apply build_feature_table_counts in H as (db & maps & feature_rows & Efs & Hrun & _ & ->).
  exists db. eexists. split; [exact Efs |]. split; [apply lookup_insert_eq |].
  intros row Hrow.
  destruct (written_row_origin _ _ _ _ _ _ _ _ Hrun Hrow) as (p & r & Hp & Hr & Hteam & Hf).
  unfold feature_row in Hf.
  pose proof (feature_row_from_prior_inv _ _ _ _ _ _ _ Hf) as (_ & _ & _ & _ & _ & Hev).
  pose proof (feature_row_from_prior_fields _ _ _ _ _ _ Hf)
    as (Htid & _ & _ & _ & _ & _ & Hhor & _).
  apply target_team_fixtures_elem_of in Hr as (Hr & _ & _).
  destruct Hrun as [Hmaps _]. unfold build_maps in Hmaps.
  destruct (_build_horizon_map _ _) as [hm |] eqn:Ehm; cbn [bind] in Hmaps; [| discriminate].
  injection Hmaps as <-. cbn [horizon_map] in Hhor.
  rewrite <- Hteam, (_build_horizon_map_lookup _ _ _ _ Ehm Hr) in Hhor.
  cbn [default from_option id] in Hhor. unfold id in Hhor.
  assert (Hin : r ∈ fixtures_between (tf_team_id r) (tf_event r) (Z.max 1 hz)
                      (_build_team_fixture_rows to_datetime (fixtures db))).
  { apply fixtures_between_elem_of. split; [exact Hr |]. split; [reflexivity | lia]. }
  destruct (horizon_value_spec (tf_team_id r) (Z.max 1 hz) (tf_event r)
              (_build_team_fixture_rows to_datetime (fixtures db))) as (avg & Hval & Havg).
  { replace (Z.max 1 (Z.max 1 hz)) with (Z.max 1 hz) by lia.
    intros E. rewrite E in Hin. inversion Hin. }
  replace (Z.max 1 (Z.max 1 hz)) with (Z.max 1 hz) in Hval, Havg by lia.
  rewrite Hval in Hhor. injection Hhor as Hc Ha Hh.
  cbv zeta. rewrite Htid, Hev, <- Hteam, Hc, Ha, Hh.
  split; [reflexivity |].
  split; [apply (len_pos_elem_of _ r), Hin |].
  split; [| exact Havg].
  apply column_sum_flags. intros r' Hr'.
  apply fixtures_between_elem_of in Hr' as (Hr' & _).
  apply team_fixture_origin_full in Hr'
    as (f & _ & _ & _ & _ & [(_ & _ & Hh') | (_ & _ & Hh')]); [right | left]; exact Hh'.
Qed.

(** *** Players without records *)



(** *** One row for a player and a fixture *)

Lemma NoDup_map_elem_inj {A B : Type} (f : A -> B) (l : list A) (x y : A) :
  NoDup (map f l) -> x ∈ l -> y ∈ l -> f x = f y -> x = y.
Proof.
  induction l as [| a l IH]; intros Hnd Hx Hy Hxy; [inversion Hx |].
  cbn [map] in Hnd. apply NoDup_cons in Hnd as [Ha Hnd].
  apply elem_of_cons in Hx as [-> | Hx]; apply elem_of_cons in Hy as [-> | Hy].
  - reflexivity.
  - exfalso. apply Ha. rewrite Hxy. apply elem_of_map. exists y. split; [reflexivity | exact Hy].
  - exfalso. apply Ha. rewrite <- Hxy. apply elem_of_map. exists x.
    split; [reflexivity | exact Hx].
  - apply IH; assumption.
Qed.

Lemma NoDup_map_weaken {A B C : Type} (f : A -> B) (g : A -> C) (l : list A) :
  (forall x y, x ∈ l -> y ∈ l -> g x = g y -> f x = f y) ->
  NoDup (map f l) -> NoDup (map g l).
Proof.
  induction l as [| a l IH]; intros Hfg Hnd; [constructor |].
  cbn [map] in *. apply NoDup_cons in Hnd as [Ha Hnd]. apply NoDup_cons. split.
  - intros Hin. apply elem_of_map in Hin as (y & Hy & Hyl).
    apply Ha. apply elem_of_map. exists y. split; [| exact Hyl].
    apply Hfg; [right; exact Hyl | left | exact Hy].
  - apply IH; [| exact Hnd].
    intros x y Hx Hy. apply Hfg; right; assumption.
Qed.

Lemma NoDup_map_filter {A B : Type} (f : A -> B) (q : A -> bool) (l : list A) :
  NoDup (map f l) -> NoDup (map f (List.filter q l)).
Proof.
  induction l as [| a l IH]; intros Hnd; [constructor |].
  cbn [map List.filter] in *. apply NoDup_cons in Hnd as [Ha Hnd].
  destruct (q a); [| apply IH, Hnd].
  cbn [map]. apply NoDup_cons. split; [| apply IH, Hnd].
  intros Hin. apply Ha.
  apply elem_of_map in Hin as (y & Hy & Hyl). apply elem_of_filter_bool in Hyl as [Hyl _].
  apply elem_of_map. exists y. split; assumption.
Qed.

Lemma map_imap_inv {A B C : Type} (g : B -> C) (g' : A -> C) (h : nat -> A -> B)
    (l : list A) :
  (forall i x, g (h i x) = g' x) -> map g (imap h l) = map g' l.
Proof.
  revert h. induction l as [| a l IH]; intros h Hh; [reflexivity |].
  cbn [imap map]. rewrite Hh. f_equal. apply IH. intros i x. apply Hh.
Qed.

Lemma Forall2_map_eq {A B C : Type} (R : A -> B -> Prop) (g : A -> C) (h : B -> C)
    (xs : list A) (ys : list B) :
  (forall x y, R x y -> g x = h y) -> Forall2 R xs ys -> map g xs = map h ys.
Proof.
  intros HR. induction 1 as [| x y xs ys Hxy _ IH]; [reflexivity |].
  cbn [map]. rewrite IH, (HR x y Hxy). reflexivity.
Qed.

Lemma team_fixture_keys_NoDup (fixtures : list FixtureRow) :
  NoDup (map f_fixture_id fixtures) ->
  (forall f, f ∈ fixtures -> f_team_h f <> f_team_a f) ->
  NoDup (map (fun r => (tf_team_id r, tf_fixture_id r))
             (_build_team_fixture_rows to_datetime fixtures)).
Proof.
  intros Hnd Hteams. unfold _build_team_fixture_rows.
  rewrite (map_imap_inv _ (fun r => (tf_team_id r, tf_fixture_id r)))
    by (intros i x; reflexivity).
  rewrite List.map_app, !List.map_map. cbn [tf_team_id tf_fixture_id].
  apply NoDup_app. split; [| split].
  - apply (NoDup_map_weaken f_fixture_id); [| exact Hnd].
    intros x y Hx Hy E. injection E as _ E. exact E.
  - intros k Hk Hk'.
    apply elem_of_map in Hk as (f & <- & Hf).
    apply elem_of_map in Hk' as (f' & E & Hf').
    injection E as Et Ei.
    assert (f' = f) as -> by (apply (NoDup_map_elem_inj f_fixture_id fixtures); assumption).
    apply (Hteams f Hf). symmetry. exact Et.
  - apply (NoDup_map_weaken f_fixture_id); [| exact Hnd].
    intros x y Hx Hy E. injection E as _ E. exact E.
Qed.

Lemma target_team_fixtures_keys_NoDup {K : Type} (key : TeamFixture -> K)
    (include_finished : bool) (team_fixtures : list TeamFixture) :
  NoDup (map key team_fixtures) ->
  NoDup (map key (target_team_fixtures include_finished team_fixtures)).
Proof.
  intros H. unfold target_team_fixtures.
  destruct include_finished; repeat apply NoDup_map_filter; exact H.
Qed.

Lemma merge_on_team_id_keys_NoDup (players : list PlayerRow) (target : list TeamFixture) :
  NoDup (map p_player_id players) ->
  NoDup (map (fun r => (tf_team_id r, tf_fixture_id r)) target) ->
  NoDup (map (fun x : PlayerRow * TeamFixture => (p_player_id (fst x), tf_fixture_id (snd x)))
             (merge_on_team_id players target)).
Proof.
  intros Hp Ht. unfold merge_on_team_id.
  induction players as [| p players IH]; [constructor |].
  cbn [flat_map map] in *. apply NoDup_cons in Hp as [Hp Hps].
  rewrite List.map_app, List.map_map. cbn [fst snd].
  apply NoDup_app. split; [| split].
  - apply (NoDup_map_weaken (fun r => (tf_team_id r, tf_fixture_id r))).
    + intros x y Hx Hy E. injection E as E.
      apply elem_of_filter_bool in Hx as [_ Hx]. apply elem_of_filter_bool in Hy as [_ Hy].
      apply Z.eqb_eq in Hx, Hy. congruence.
    + apply NoDup_map_filter. exact Ht.
  - intros k Hk Hk'.
    apply elem_of_map in Hk as (r & <- & _).
    apply elem_of_map in Hk' as ([p' r'] & E & Hin).
    cbn [fst snd] in E. injection E as Epid _.
    apply Hp. rewrite <- Epid.
    apply elem_of_map. exists p'. split; [reflexivity |].
    fold (merge_on_team_id players target) in Hin.
    apply merge_on_team_id_elem_of in Hin as (Hin & _). exact Hin.
  - apply IH. exact Hps.
Qed.

(** X13. When the players have distinct identifiers, the fixtures have
    distinct identifiers and no fixture opposes a team to itself, the
    table that a run writes has at most one row for a player and a
    fixture. *)
Theorem written_rows_unique_per_player_and_fixture
    db_path output_path hz include_finished fs n fs' db :
  build_feature_table sqrt to_datetime db_path output_path hz include_finished fs
  = (Ok n, fs') ->
  fs !! db_path = Some (SqliteFile db) ->
  NoDup (map p_player_id (players db)) ->
  NoDup (map f_fixture_id (fixtures db)) ->
  (forall f, f ∈ fixtures db -> f_team_h f <> f_team_a f) ->
  exists rows,
    fs' !! output_path = Some (ParquetFile rows)
    /\ NoDup (map (fun row => (player_id row, fixture_id row)) rows).
Proof.
  intros H Efs Hplayers Hfixtures Hteams.
  apply build_feature_table_counts in H as (db' & maps & feature_rows & Efs' & Hrun & _ & ->).
  rewrite Efs in Efs'. injection Efs' as <-.
  eexists. split; [apply lookup_insert_eq |].
  assert (P : map (fun row => (player_id row, fixture_id row)) (sort_by feature_lt feature_rows)
              ≡ₚ map (fun row => (player_id row, fixture_id row)) feature_rows)
    by (apply Permutation_map, sort_by_Permutation).
  rewrite P.
  destruct Hrun as [_ Hrun]. apply comprehension_Ok in Hrun.
  assert (Hkeys : forall (x : PlayerRow * TeamFixture) (row : FeatureRow),
             feature_row sqrt hz maps
               (build_player_history (convert_history to_datetime (gw_player_stats db))) x
             = Ok row ->
             (p_player_id (fst x), tf_fixture_id (snd x)) = (player_id row, fixture_id row)).
  { intros [p r] row Hf. unfold feature_row in Hf.
    apply feature_row_from_prior_inv in Hf as (_ & _ & _ & Hpid & Hfid & _).
    cbn [fst snd]. congruence. }
  rewrite <- (Forall2_map_eq _ _ _ _ _ Hkeys Hrun).
  apply merge_on_team_id_keys_NoDup; [exact Hplayers |].
  apply target_team_fixtures_keys_NoDup, team_fixture_keys_NoDup; assumption.
Qed.

(** *** The name of the opponent *)

Lemma feature_row_from_prior_opponent hz maps p r prior row :
  feature_row_from_prior sqrt hz maps (p, r) prior = Ok row ->
  opponent_team row = default "UNK"%string (team_name_map maps !! tf_opponent_team_id r)
  /\ opponent_team_id row = tf_opponent_team_id r.
Proof.
  unfold feature_row_from_prior.
  destruct (default (0%Z, 0, 0%Z) (horizon_map maps !! (p_team_id p, tf_event r)))
    as [[hc ha] hh].
  repeat bind_case.
  intros H. injection H as <-. cbn. split; reflexivity.
Qed.

Lemma drop_duplicates_elem_of {A : Type} `{EqDecision A} (seen l : list A) (x : A) :
  x ∈ drop_duplicates seen l -> x ∈ l.
Proof.
  revert seen. induction l as [| y l IH]; intros seen H; [inversion H |].
  cbn [drop_duplicates] in H. destruct (bool_decide (y ∈ seen)).
  - right. exact (IH _ H).
  - apply elem_of_cons in H as [-> | H]; [left | right; exact (IH _ H)].
Qed.

Lemma team_name_fold_lookup (pairs : list (Z * string)) (m : gmap Z string) (k : Z) :
  match foldl (fun m '(team_id, team) => <[team_id := team]> m) m pairs !! k with
  | Some name => (k, name) ∈ pairs \/ (m !! k = Some name /\ k ∉ map fst pairs)
  | None => m !! k = None /\ k ∉ map fst pairs
  end.
Proof.
  revert m. induction pairs as [| [t name0] pairs IH]; intros m; cbn [foldl map fst].
  - destruct (m !! k) as [name |] eqn:E.
    + right. split; [reflexivity | inversion 1].
    + split; [reflexivity | inversion 1].
  - specialize (IH (<[t := name0]> m)).
    destruct (foldl _ (<[t := name0]> m) pairs !! k) as [name |].
    + destruct IH as [IH | [IH Hout]]; [left; right; exact IH |].
      destruct (decide (t = k)) as [-> | Hne].
      * rewrite lookup_insert_eq in IH. injection IH as ->. left. left.
      * rewrite lookup_insert_ne in IH by exact Hne. right. split; [exact IH |].
        intros H. apply elem_of_cons in H as [H | H]; [congruence | exact (Hout H)].
    + destruct IH as [IH Hout].
      destruct (decide (t = k)) as [-> | Hne].
      * rewrite lookup_insert_eq in IH. discriminate.
      * rewrite lookup_insert_ne in IH by exact Hne. split; [exact IH |].
        intros H. apply elem_of_cons in H as [H | H]; [congruence | exact (Hout H)].
Qed.

Lemma build_team_name_map_lookup (players : list PlayerRow) (k : Z) :
  match build_team_name_map players !! k with
  | Some name => exists p, p ∈ players /\ p_team_id p = k /\ p_team p = name
  | None => forall p, p ∈ players -> p_team_id p <> k
  end.
Proof.
  unfold build_team_name_map.
  pose proof (team_name_fold_lookup
                (drop_duplicates [] (map (fun p => (p_team_id p, p_team p)) players)) ∅ k) as H.
  destruct (foldl _ ∅ _ !! k) as [name |].
  - destruct H as [H | [H _]]; [| rewrite lookup_empty in H; discriminate].
    apply drop_duplicates_elem_of, elem_of_map in H as (p & E & Hp).
    injection E as E1 E2. exists p. repeat split; assumption.
  - destruct H as [_ H]. intros p Hp E. apply H.
    apply elem_of_map. exists (p_team_id p, p_team p). split; [exact E |].
    apply elem_of_drop_duplicates; [| inversion 1].
    apply elem_of_map. exists p. split; [reflexivity | exact Hp].
Qed.

(** X22. The opponent name of a written row is the team name of a player
    of the opponent team, and it is "UNK" when the database has no player
    of the opponent team. *)
Theorem opponent_team_is_known_or_unk db_path output_path hz include_finished fs n fs' :
  build_feature_table sqrt to_datetime db_path output_path hz include_finished fs
  = (Ok n, fs') ->
  exists db rows,
    fs !! db_path = Some (SqliteFile db)
    /\ fs' !! output_path = Some (ParquetFile rows)
    /\ forall row, row ∈ rows ->
         (exists p, p ∈ players db /\ p_team_id p = opponent_team_id row
                    /\ opponent_team row = p_team p)
         \/ ((forall p, p ∈ players db -> p_team_id p <> opponent_team_id row)
             /\ opponent_team row = "UNK"%string).
Proof.
  intros H.
  apply build_feature_table_counts in H as (db & maps & feature_rows & Efs & Hrun & _ & ->).
  exists db. eexists. split; [exact Efs |]. split; [apply lookup_insert_eq |].
  intros row Hrow.
  destruct (written_row_origin _ _ _ _ _ _ _ _ Hrun Hrow) as (p & r & _ & _ & _ & Hf).
  unfold feature_row in Hf.
  apply feature_row_from_prior_opponent in Hf as [Hname Hid].
  destruct Hrun as [Hmaps _]. unfold build_maps in Hmaps.
  destruct (_build_horizon_map _ _) as [hm |]; cbn [bind] in Hmaps; [| discriminate].
  injection Hmaps as <-. cbn [team_name_map] in Hname.
  pose proof (build_team_name_map_lookup (players db) (tf_opponent_team_id r)) as Hlookup.
  rewrite Hid, Hname.
  destruct (build_team_name_map (players db) !! tf_opponent_team_id r) as [name |];
    cbn [default from_option]; [left | right].
  - destruct Hlookup as (q & Hq & Hqid & Hqname). exists q. unfold id.
    repeat split; [exact Hq | exact Hqid | symmetry; exact Hqname].
  - split; [exact Hlookup | reflexivity].
Qed.

(** *** The records of a window *)






(** *** Every pair of a player and a target fixture *)

Lemma team_fixture_rows_of_fixture (fixtures : list FixtureRow) (f : FixtureRow) :
  f ∈ fixtures ->
  exists home away,
    home ∈ _build_team_fixture_rows to_datetime fixtures
    /\ away ∈ _build_team_fixture_rows to_datetime fixtures
    /\ tf_fixture_id home = f_fixture_id f /\ tf_fixture_id away = f_fixture_id f
    /\ tf_event home = default 0%Z (f_event f) /\ tf_event away = default 0%Z (f_event f)
    /\ tf_finished home = default 0%Z (f_finished f)
    /\ tf_finished away = default 0%Z (f_finished f)
    /\ tf_team_id home = f_team_h f /\ tf_team_id away = f_team_a f.
Proof.
  intros Hf. apply list_elem_of_lookup_1 in Hf as [i Hf].
  unfold _build_team_fixture_rows. eexists _, _.
  split.
  { apply list_elem_of_lookup_2 with i.
    rewrite list_lookup_imap, lookup_app_l
      by (rewrite length_map; eapply lookup_lt_Some; exact Hf).
    rewrite lookup_map, Hf. reflexivity. }
  split.
  { apply list_elem_of_lookup_2 with (length fixtures + i)%nat.
    rewrite list_lookup_imap, lookup_app_r by (rewrite length_map; lia).
    rewrite length_map, lookup_map.
    replace (length fixtures + i - length fixtures)%nat with i by lia.
    rewrite Hf. reflexivity. }
  cbn. repeat split; reflexivity.
Qed.

Lemma target_team_fixtures_complete (include_finished : bool)
    (team_fixtures : list TeamFixture) (r : TeamFixture) :
  r ∈ team_fixtures -> (0 < tf_event r)%Z ->
  (include_finished = false -> tf_finished r = 0%Z) ->
  r ∈ target_team_fixtures include_finished team_fixtures.
Proof.
  intros Hr Hpos Hfin. unfold target_team_fixtures.
  apply elem_of_filter_bool. split; [| apply Z.ltb_lt; exact Hpos].
  destruct include_finished; [exact Hr |].
  apply elem_of_filter_bool. split; [exact Hr |]. apply Z.eqb_eq, Hfin. reflexivity.
Qed.

Lemma merge_on_team_id_complete (players : list PlayerRow) (target : list TeamFixture)
    (p : PlayerRow) (r : TeamFixture) :
  p ∈ players -> r ∈ target -> tf_team_id r = p_team_id p ->
  (p, r) ∈ merge_on_team_id players target.
Proof.
  intros Hp Hr Hteam. unfold merge_on_team_id.
  rewrite list_elem_of_In, List.in_flat_map. exists p.
  split; [apply list_elem_of_In; exact Hp |].
  apply list_elem_of_In, elem_of_map. exists r. split; [reflexivity |].
  apply elem_of_filter_bool. split; [exact Hr | apply Z.eqb_eq; exact Hteam].
Qed.

Lemma comprehension_complete {A B : Type} (f : A -> result B) (xs : list A) (ys : list B)
    (x : A) :
  comprehension f xs = Ok ys -> x ∈ xs -> exists y, y ∈ ys /\ f x = Ok y.
Proof.
  intros H Hx. apply comprehension_Ok in H.
  apply list_elem_of_lookup_1 in Hx as [i Hi].
  destruct (Forall2_lookup_l _ _ _ _ _ H Hi) as (y & Hy & Hf).
  exists y. split; [eapply list_elem_of_lookup_2; exact Hy | exact Hf].
Qed.

(** X28. No pair is left out of the table: for every player and every
    fixture of the team of the player, at home or away, that has a positive
    event and is not finished (or whatever its state when finished fixtures
    are included), a completed run has written a row of this player and
    this fixture. *)
Theorem every_player_and_target_fixture_has_a_row
    db_path output_path hz include_finished fs n fs' :
  build_feature_table sqrt to_datetime db_path output_path hz include_finished fs
  = (Ok n, fs') ->
  exists db rows,
    fs !! db_path = Some (SqliteFile db)
    /\ fs' !! output_path = Some (ParquetFile rows)
    /\ forall p f,
         p ∈ players db -> f ∈ fixtures db ->
         f_team_h f = p_team_id p \/ f_team_a f = p_team_id p ->
         (0 < default 0 (f_event f))%Z ->
         (include_finished = false -> default 0%Z (f_finished f) = 0%Z) ->
         exists row,
           row ∈ rows
           /\ player_id row = p_player_id p
           /\ fixture_id row = f_fixture_id f
           /\ team_id row = p_team_id p
           /\ target_event row = default 0%Z (f_event f).
Proof.
  intros H.
  apply build_feature_table_counts in H as (db & maps & feature_rows & Efs & Hrun & _ & ->).
  exists db. eexists. split; [exact Efs |]. split; [apply lookup_insert_eq |].
  intros p f Hp Hf Hside Hpos Hfin.
  destruct (team_fixture_rows_of_fixture (fixtures db) f Hf)
    as (home & away & Hhome & Haway & Hidh & Hida & Hevh & Heva & Hfh & Hfa & Hth & Hta).
  assert (Hr : exists r,
             r ∈ target_team_fixtures include_finished
                   (_build_team_fixture_rows to_datetime (fixtures db))
             /\ tf_team_id r = p_team_id p
             /\ tf_fixture_id r = f_fixture_id f
             /\ tf_event r = default 0%Z (f_event f)).
  { destruct Hside as [Hside | Hside]; [exists home | exists away];
      (split; [apply target_team_fixtures_complete;
                 [assumption | lia | intros Hinc; specialize (Hfin Hinc); lia] |]);
      repeat split; congruence. }
  destruct Hr as (r & Hr & Hteam & Hid & Hev).
  destruct Hrun as [_ Hrun].
  destruct (comprehension_complete _ _ _ (p, r) Hrun
              (merge_on_team_id_complete _ _ _ _ Hp Hr Hteam)) as (row & Hrow & Hfrow).
  unfold feature_row in Hfrow.
  pose proof (feature_row_from_prior_fields _ _ _ _ _ _ Hfrow) as (Htid & _).
  apply feature_row_from_prior_inv in Hfrow as (_ & _ & _ & Hpid & Hfid & Hevent).
  exists row. split; [apply sort_by_elem_of; exact Hrow |].
  repeat split; congruence.
Qed.

End Build.

Lemma team_fixture_rows_two_per_fixture_witness :
  exists home away,
    _build_team_fixture_rows Examples.iso_timestamp Examples.sample_fixtures !! 1%nat
    = Some home
    /\ _build_team_fixture_rows Examples.iso_timestamp Examples.sample_fixtures !! 5%nat
       = Some away
    /\ tf_team_id home = 2%Z /\ tf_team_id away = 1%Z
    /\ tf_is_home home = 1%Z /\ tf_is_home away = 0%Z.
Proof.
  destruct (proj2 (team_fixture_rows_two_per_fixture Examples.iso_timestamp
                     Examples.sample_fixtures) 1%nat
              (mkFixtureRow 11 (Some 2%Z) (Some "2025-08-23T14:00:00Z") (Some 0%Z) 2 1
                 (Some 4%Z) (Some 3%Z)) eq_refl)
    as (home & away & Hh & Ha & _ & _ & _ & _ & Hth & _ & Hta & _ & Hhh & Hah & _).
  exists home, away. repeat split; assumption.
Defined.

Lemma written_table_sorted_and_counted_witness :
  exists n fs' rows,
    build_feature_table Examples.sqrt_approx Examples.iso_timestamp
      "data/fpl_mvp.db" "data/player_gw_features.parquet" 3 false Examples.sample_files
    = (Ok n, fs')
    /\ fs' !! "data/player_gw_features.parquet" = Some (ParquetFile rows)
    /\ StronglySorted key_le rows
    /\ fst n = len rows /\ snd n = len rows.
Proof.
  destruct sample_run_completes as (n & fs' & Hrun).
  destruct (written_table_sorted_and_counted Examples.sqrt_approx Examples.iso_timestamp
              "data/fpl_mvp.db" "data/player_gw_features.parquet" 3 false
              Examples.sample_files n fs' Hrun) as (rows & Hrows & Hall).
  exists n, fs', rows. split; [exact Hrun |]. split; [exact Hrows | exact Hall].
Defined.

Lemma run_writes_only_its_output_witness :
  let run := build_feature_table Examples.sqrt_approx Examples.iso_timestamp
               "data/missing.db" "data/player_gw_features.parquet" 3 false
               Examples.sample_files in
  (Examples.sample_files !! "data/missing.db" = None ->
   exists msg, fst run = Raise (FileNotFoundError msg))
  /\ match fst run with
     | Raise _ => snd run = Examples.sample_files
     | Ok _ =>
       exists rows,
         snd run = <["data/player_gw_features.parquet" := ParquetFile rows]>
                     Examples.sample_files
     end.
Proof.
  intros run.
  apply (run_writes_only_its_output Examples.sqrt_approx Examples.iso_timestamp
           "data/missing.db" "data/player_gw_features.parquet" 3 false
           Examples.sample_files (fst run) (snd run)).
  vm_compute. reflexivity.
Defined.

Lemma written_rows_in_range_witness :
  exists n fs' rows,
    build_feature_table Examples.sqrt_approx Examples.iso_timestamp
      "data/fpl_mvp.db" "data/player_gw_features.parquet" 3 false Examples.sample_files
    = (Ok n, fs')
    /\ fs' !! "data/player_gw_features.parquet" = Some (ParquetFile rows)
    /\ forall row, row ∈ rows ->
         0 <= benching_probability row <= 1
         /\ 0 <= risk_score row <= 1
         /\ horizon row = 3%Z
         /\ (is_home row = 0%Z \/ is_home row = 1%Z).
Proof.
  destruct sample_run_completes as (n & fs' & Hrun).
  destruct (written_rows_in_range Examples.sqrt_approx Examples.iso_timestamp
              "data/fpl_mvp.db" "data/player_gw_features.parquet" 3 false
              Examples.sample_files n fs' Hrun) as (rows & Hrows & Hall).
  exists n, fs', rows. split; [exact Hrun |]. split; [exact Hrows | exact Hall].
Defined.

Lemma written_rows_target_fixtures_witness :
  exists n fs' rows,
    build_feature_table Examples.sqrt_approx Examples.iso_timestamp
      "data/fpl_mvp.db" "data/player_gw_features.parquet" 3 false Examples.sample_files
    = (Ok n, fs')
    /\ fs' !! "data/player_gw_features.parquet" = Some (ParquetFile rows)
    /\ forall row, row ∈ rows ->
         (0 < target_event row)%Z
         /\ exists f, f ∈ Examples.sample_fixtures
                      /\ fixture_id row = f_fixture_id f
                      /\ default 0%Z (f_finished f) = 0%Z.
Proof.
  destruct sample_run_completes as (n & fs' & Hrun).
  destruct (written_rows_target_fixtures Examples.sqrt_approx Examples.iso_timestamp
              "data/fpl_mvp.db" "data/player_gw_features.parquet" 3 false
              Examples.sample_files n fs' Hrun) as (db & rows & Hdb & Hrows & Hall).
  assert (Edb : db = Examples.sample_db).
  { vm_compute in Hdb. injection Hdb as <-. reflexivity. }
  exists n, fs', rows. split; [exact Hrun |]. split; [exact Hrows |].
  intros row Hrow.
  destruct (Hall row Hrow) as (p & f & _ & Hf & _ & _ & Hfid & _ & Hpos & Hfin & _).
  split; [exact Hpos |].
  exists f. rewrite Edb in Hf. split; [exact Hf |]. split; [exact Hfid |].
  apply Hfin. reflexivity.
Defined.

Lemma dgw_count_is_fixtures_in_event_witness :
  exists n fs' rows,
    build_feature_table Examples.sqrt_approx Examples.iso_timestamp
      "data/fpl_mvp.db" "data/player_gw_features.parquet" 3 false Examples.sample_files
    = (Ok n, fs')
    /\ fs' !! "data/player_gw_features.parquet" = Some (ParquetFile rows)
    /\ forall row, row ∈ rows -> (1 <= dgw_count_in_event row)%Z.
Proof.
  destruct sample_run_completes as (n & fs' & Hrun).
  destruct (dgw_count_is_fixtures_in_event Examples.sqrt_approx Examples.iso_timestamp
              "data/fpl_mvp.db" "data/player_gw_features.parquet" 3 false
              Examples.sample_files n fs' Hrun) as (db & rows & _ & Hrows & Hall).
  exists n, fs', rows. split; [exact Hrun |]. split; [exact Hrows |].
  intros row Hrow. apply (Hall row Hrow).
Defined.

Lemma rest_days_never_negative_witness :
  exists n fs' rows,
    build_feature_table Examples.sqrt_approx Examples.iso_timestamp
      "data/fpl_mvp.db" "data/player_gw_features.parquet" 3 false Examples.sample_files
    = (Ok n, fs')
    /\ fs' !! "data/player_gw_features.parquet" = Some (ParquetFile rows)
    /\ forall row d, row ∈ rows -> rest_days row = Some d -> 0 <= d.
Proof.
  destruct sample_run_completes as (n & fs' & Hrun).
  destruct (rest_days_never_negative Examples.sqrt_approx Examples.iso_timestamp
              "data/fpl_mvp.db" "data/player_gw_features.parquet" 3 false
              Examples.sample_files n fs' Hrun) as (rows & Hrows & Hall).
  exists n, fs', rows. split; [exact Hrun |]. split; [exact Hrows | exact Hall].
Defined.

Lemma horizon_columns_cover_events_ahead_witness :
  exists n fs' rows,
    build_feature_table Examples.sqrt_approx Examples.iso_timestamp
      "data/fpl_mvp.db" "data/player_gw_features.parquet" 3 false Examples.sample_files
    = (Ok n, fs')
    /\ fs' !! "data/player_gw_features.parquet" = Some (ParquetFile rows)
    /\ forall row, row ∈ rows -> (1 <= horizon_fixture_count_team row)%Z.
Proof.
  destruct sample_run_completes as (n & fs' & Hrun).
  destruct (horizon_columns_cover_events_ahead Examples.sqrt_approx Examples.iso_timestamp
              "data/fpl_mvp.db" "data/player_gw_features.parquet" 3 false
              Examples.sample_files n fs' Hrun) as (db & rows & _ & Hrows & Hall).
  exists n, fs', rows. split; [exact Hrun |]. split; [exact Hrows |].
  intros row Hrow. apply (Hall row Hrow).
Defined.


Lemma written_rows_unique_per_player_and_fixture_witness :
  exists n fs' rows,
    build_feature_table Examples.sqrt_approx Examples.iso_timestamp
      "data/fpl_mvp.db" "data/player_gw_features.parquet" 3 false Examples.sample_files
    = (Ok n, fs')
    /\ fs' !! "data/player_gw_features.parquet" = Some (ParquetFile rows)
    /\ NoDup (map (fun row => (player_id row, fixture_id row)) rows).
Proof.
  destruct sample_run_completes as (n & fs' & Hrun).
  destruct (written_rows_unique_per_player_and_fixture
              Examples.sqrt_approx Examples.iso_timestamp
              "data/fpl_mvp.db" "data/player_gw_features.parquet" 3 false
              Examples.sample_files n fs' Examples.sample_db Hrun)
    as (rows & Hrows & Hall).
  - reflexivity.
  - apply (bool_decide_unpack _). vm_compute. exact I.
  - apply (bool_decide_unpack _). vm_compute. exact I.
  - intros f Hf.
    repeat (apply elem_of_cons in Hf as [-> | Hf]; [discriminate |]). inversion Hf.
  - exists n, fs', rows. split; [exact Hrun |]. split; [exact Hrows | exact Hall].
Defined.

Lemma opponent_team_is_known_or_unk_witness :
  exists n fs' rows,
    build_feature_table Examples.sqrt_approx Examples.iso_timestamp
      "data/fpl_mvp.db" "data/player_gw_features.parquet" 3 false Examples.sample_files
    = (Ok n, fs')
    /\ fs' !! "data/player_gw_features.parquet" = Some (ParquetFile rows)
    /\ forall row, row ∈ rows ->
         opponent_team row = "UNK"%string
         \/ exists p, p ∈ Examples.sample_players /\ opponent_team row = p_team p.
Proof.
  destruct sample_run_completes as (n & fs' & Hrun).
  destruct (opponent_team_is_known_or_unk Examples.sqrt_approx Examples.iso_timestamp
              "data/fpl_mvp.db" "data/player_gw_features.parquet" 3 false
              Examples.sample_files n fs' Hrun) as (db & rows & Hdb & Hrows & Hall).
  assert (Edb : db = Examples.sample_db).
  { vm_compute in Hdb. injection Hdb as <-. reflexivity. }
  exists n, fs', rows. split; [exact Hrun |]. split; [exact Hrows |].
  intros row Hrow.
  destruct (Hall row Hrow) as [(p & Hp & _ & Hname) | [_ Hunk]]; [right | left; exact Hunk].
  exists p. rewrite Edb in Hp. split; [exact Hp | exact Hname].
Defined.


Lemma every_player_and_target_fixture_has_a_row_witness :
  exists n fs' rows row,
    build_feature_table Examples.sqrt_approx Examples.iso_timestamp
      "data/fpl_mvp.db" "data/player_gw_features.parquet" 3 false Examples.sample_files
    = (Ok n, fs')
    /\ fs' !! "data/player_gw_features.parquet" = Some (ParquetFile rows)
    /\ row ∈ rows /\ player_id row = 2%Z /\ fixture_id row = 12%Z.
Proof.
  destruct sample_run_completes as (n & fs' & Hrun).
  destruct (every_player_and_target_fixture_has_a_row
              Examples.sqrt_approx Examples.iso_timestamp
              "data/fpl_mvp.db" "data/player_gw_features.parquet" 3 false
              Examples.sample_files n fs' Hrun) as (db & rows & Hdb & Hrows & Hall).
  assert (Edb : db = Examples.sample_db).
  { vm_compute in Hdb. injection Hdb as <-. reflexivity. }
  subst db.
  destruct (Hall (mkPlayerRow 2 "Cole Palmer" 2 "CHE" "MID" 10.5 (Some "i"))
              (mkFixtureRow 12 (Some 2%Z) (Some "2025-08-26T19:00:00Z") (Some 0%Z) 1 2
                 (Some 3%Z) (Some 4%Z)))
    as (row & Hrow & Hpid & Hfid & _).
  - right. left.
  - right. right. left.
  - right. reflexivity.
  - cbn. lia.
  - intros _. reflexivity.
  - exists n, fs', rows, row. repeat split; assumption.
Defined.

End TableFacts.

(** ** The positions of the command line *)

Module PositionFacts.
Import Py PyLoops PyFacts LoopFacts Phase2RankPlayers.

Section Positions.
Variable upper : string -> string.

Lemma parse_positions_loop (items unique : list string) :
  NoDup unique ->
  match for_each parse_positions_body items unique with
  | Ok result =>
    NoDup result
    /\ (forall p, p ∈ result <-> p ∈ unique \/ p ∈ items)
    /\ (forall p, p ∈ items -> p ∈ allowed_positions)
  | Raise e =>
    (exists msg, e = ValueError msg)
    /\ exists item, item ∈ items /\ item ∉ allowed_positions
  end.
Proof.
  revert unique. induction items as [| item items IH]; intros unique Hnd.
  - cbn [for_each]. split; [exact Hnd |]. split.
    + intros p. split; [intros H; left; exact H | intros [H | H]; [exact H | inversion H]].
    + intros p H. inversion H.
  - cbn [for_each]. unfold parse_positions_body at 1.
    destruct (decide (item ∈ allowed_positions)) as [Hallowed | Hallowed].
    + rewrite (bool_decide_eq_true_2 _ Hallowed). cbn [negb].
      destruct (decide (item ∈ unique)) as [Hseen | Hnew].
      * rewrite (bool_decide_eq_true_2 _ Hseen). cbn [negb bind].
        specialize (IH unique Hnd).
        destruct (for_each parse_positions_body items unique) as [result | e].
        -- destruct IH as (Hr & Hiff & Hall). split; [exact Hr |]. split.
           ++ intros p. rewrite Hiff, elem_of_cons. split.
              ** intros [H | H]; [left; exact H | right; right; exact H].
              ** intros [H | [-> | H]]; [left; exact H | left; exact Hseen | right; exact H].
           ++ intros p Hp. apply elem_of_cons in Hp as [-> | Hp];
                [exact Hallowed | apply Hall, Hp].
        -- destruct IH as (Hmsg & item' & Hin & Hout). split; [exact Hmsg |].
           exists item'. split; [right; exact Hin | exact Hout].
      * rewrite (bool_decide_eq_false_2 _ Hnew). cbn [negb bind].
        assert (Hnd' : NoDup (unique ++ [item])).
        { apply NoDup_app. split; [exact Hnd |]. split; [| apply NoDup_singleton].
          intros x Hx Hx'. apply list_elem_of_singleton in Hx' as ->. exact (Hnew Hx). }
        specialize (IH (unique ++ [item]) Hnd').
        destruct (for_each parse_positions_body items (unique ++ [item])) as [result | e].
        -- destruct IH as (Hr & Hiff & Hall). split; [exact Hr |]. split.
           ++ intros p. rewrite Hiff, elem_of_app, list_elem_of_singleton, elem_of_cons. tauto.
           ++ intros p Hp. apply elem_of_cons in Hp as [-> | Hp];
                [exact Hallowed | apply Hall, Hp].
        -- destruct IH as (Hmsg & item' & Hin & Hout). split; [exact Hmsg |].
           exists item'. split; [right; exact Hin | exact Hout].
    + rewrite (bool_decide_eq_false_2 _ Hallowed). cbn [negb bind].
      split; [eexists; reflexivity |]. exists item. split; [left | exact Hallowed].
Qed.

Lemma parse_positions_spec (raw : string) :
  match parse_positions upper raw with
  | Ok positions =>
    positions <> [] /\ NoDup positions
    /\ (forall p, p ∈ positions <-> p ∈ position_items upper raw)
    /\ (forall p, p ∈ positions -> p ∈ allowed_positions)
  | Raise e =>
    (exists msg, e = ValueError msg)
    /\ (position_items upper raw = []
        \/ exists item, item ∈ position_items upper raw /\ item ∉ allowed_positions)
  end.
Proof.
  unfold parse_positions.
  pose proof (parse_positions_loop (position_items upper raw) [] (NoDup_nil_2)) as H.
  destruct (for_each parse_positions_body (position_items upper raw) []) as [unique | e];
    cbn [bind].
  - destruct H as (Hnd & Hiff & Hall).
    destruct unique as [| p unique].
    + split; [eexists; reflexivity |]. left.
      destruct (position_items upper raw) as [| item items]; [reflexivity |].
      exfalso. assert (Hin : item ∈ @nil string) by (apply Hiff; right; left).
      inversion Hin.
    + split; [discriminate |]. split; [exact Hnd |]. split.
      * intros q. rewrite Hiff. split; [intros [H | H]; [inversion H | exact H] |].
        intros H. right. exact H.
      * intros q Hq. apply Hall. apply Hiff in Hq as [Hq | Hq]; [inversion Hq | exact Hq].
  - destruct H as (Hmsg & Hbad). split; [exact Hmsg | right; exact Hbad].
Qed.

(** X14. [parse_positions] returns the distinct items of its argument, each
    once: a list that is not empty, has no duplicate and holds only the four
    allowed positions; it raises [ValueError] when there is no item or when
    an item is not an allowed position, and raises nothing else. *)
Theorem parse_positions_distinct_allowed (raw : string) :
  match parse_positions upper raw with
  | Ok positions =>
    positions <> [] /\ NoDup positions
    /\ (forall p, p ∈ positions <-> p ∈ position_items upper raw)
    /\ (forall p, p ∈ positions -> p ∈ allowed_positions)
  | Raise e =>
    (exists msg, e = ValueError msg)
    /\ (position_items upper raw = []
        \/ exists item, item ∈ position_items upper raw /\ item ∉ allowed_positions)
  end.
Proof. apply parse_positions_spec. Qed.

End Positions.

Example parse_positions_default :
  parse_positions Examples.ascii_upper "DEF,MID,FWD" = Ok ["DEF"; "MID"; "FWD"]%string.
Proof. reflexivity. Qed.

Example parse_positions_repeated :
  parse_positions Examples.ascii_upper " mid, def,,MID ,fwd," = Ok ["MID"; "DEF"; "FWD"]%string.
Proof. reflexivity. Qed.

Example parse_positions_blank :
  parse_positions Examples.ascii_upper " , " = Raise (ValueError "At least one position is required").
Proof. reflexivity. Qed.

Example parse_positions_unknown :
  parse_positions Examples.ascii_upper "DEF,STRIKER"
  = Raise (ValueError "Invalid position 'STRIKER'. Allowed: ['DEF', 'FWD', 'GKP', 'MID']").
Proof. reflexivity. Qed.

End PositionFacts.

(** ** The stages of the ranking *)

Module PipelineFacts.
Import Py PyLoops PyFacts LoopFacts Phase2RankPlayers NormalizeFacts RankSpec RankFacts.
Import PipelineSpec.

(** *** Eligible rows *)

Lemma clamp_unit_range (x : Q) : 0 <= clamp x 0 1 <= 1.
Proof.
  unfold clamp. pose proof (min2_le_r x 1) as Hle. pose proof (max2_ge_l 0 (min2 x 1)) as Hge.
  split; [exact Hge |].
  destruct (max2_cases 0 (min2 x 1)) as [-> | ->]; [lra | exact Hle].
Qed.

Lemma parse_fixture_home_flag (v : option string) :
  parse_fixture_home v = 0%Z \/ parse_fixture_home v = 1%Z.
Proof. unfold parse_fixture_home. destruct (endswith _ _); [right | left]; reflexivity. Qed.

Section Builtins.
Variable float : string -> option Q.
Variable upper : string -> string.

Lemma build_candidates_body_eligible positions min_minutes_avg h candidates row :
  build_candidates_body float upper positions min_minutes_avg (h, candidates) row
  = Ok (h, candidates)
  \/ exists c,
       build_candidates_body float upper positions min_minutes_avg (h, candidates) row
       = Ok (h ++ [c], candidates ++ [length h])
       /\ eligible positions min_minutes_avg c /\ unranked c.
Proof.
  unfold build_candidates_body.
  destruct (decide (upper (strip (str (get row "position" ""))) ∈ positions)) as [Hpos | Hpos];
    [rewrite (bool_decide_eq_true_2 _ Hpos)
    | rewrite (bool_decide_eq_false_2 _ Hpos); left; reflexivity].
  cbn [negb].
  destruct (ltb _ min_minutes_avg) eqn:Emin; [left; reflexivity |].
  destruct (leb _ 0) eqn:Esum; [left; reflexivity |].
  apply ltb_ge in Emin.
  assert (Hsum : 0 < parse_float float (get row "xg90" "0")
                     + parse_float float (get row "xa90" "0")).
  { apply Qnot_le_lt. intros Hle. apply leb_le in Hle. congruence. }
  change (truediv (parse_float float (get row "minutes_avg" "0")) 90)
    with (Ok (parse_float float (get row "minutes_avg" "0") / 90)).
  cbn [bind]. right.
  destruct (ltb 0 (parse_float float (get row "price" "0"))) eqn:Eprice.
  - pose proof (proj1 (ltb_lt _ _) Eprice) as Hprice.
    unfold truediv. rewrite (proj2 (eqb_neq _ 0)) by lra. cbn [bind].
    eexists. split; [reflexivity |]. unfold eligible, unranked. cbn.
    split; [| repeat split; reflexivity].
    split; [exact Hpos |]. split; [exact Emin |]. split; [exact Hsum |].
    split; [reflexivity |]. split; [apply clamp_unit_range | apply parse_fixture_home_flag].
  - cbn [bind].
    eexists. split; [reflexivity |]. unfold eligible, unranked. cbn.
    split; [| repeat split; reflexivity].
    split; [exact Hpos |]. split; [exact Emin |]. split; [exact Hsum |].
    split; [reflexivity |]. split; [apply clamp_unit_range | apply parse_fixture_home_flag].
Qed.

Lemma build_candidates_loop positions min_minutes_avg rows h candidates :
  exists cs,
    for_each (build_candidates_body float upper positions min_minutes_avg) rows (h, candidates)
    = Ok (h ++ cs, candidates ++ seq (length h) (length cs))
    /\ (length cs <= length rows)%nat
    /\ Forall (fun c => eligible positions min_minutes_avg c /\ unranked c) cs.
Proof.
  revert h candidates. induction rows as [| row rows IH]; intros h candidates.
  - exists []. cbn [for_each length seq]. rewrite !app_nil_r.
    split; [reflexivity |]. split; [lia | constructor].
  - cbn [for_each].
    destruct (build_candidates_body_eligible positions min_minutes_avg h candidates row)
      as [-> | (c & -> & Hc)]; cbn [bind].
    + destruct (IH h candidates) as (cs & Hrun & Hlen & Hcs).
      exists cs. split; [exact Hrun |]. split; [cbn [length]; lia | exact Hcs].
    + destruct (IH (h ++ [c]) (candidates ++ [length h])) as (cs & Hrun & Hlen & Hcs).
      exists (c :: cs). split.
      * rewrite Hrun, length_app. cbn [length seq].
        rewrite <- !app_assoc. cbn [app].
        replace (length h + 1)%nat with (S (length h)) by lia. reflexivity.
      * split; [cbn [length]; lia | constructor; assumption].
Qed.


End Builtins.

(** *** Normalisation *)

Lemma minmax_normalize_range (values out : list Q) :
  minmax_normalize values = Ok out ->
  length out = length values /\ forall o, o ∈ out -> 0 <= o <= 1.
Proof.
  destruct (decide (values = [])) as [-> | Hne].
  { intros H. injection H as <-. split; [reflexivity |]. intros o Ho. inversion Ho. }
  destruct (eqb (max_list values) (min_list values)) eqn:E.
  - destruct (minmax_normalize_equal values Hne E) as [-> _].
    intros H. injection H as <-. split; [apply length_replicate |].
    intros o Ho. apply elem_of_replicate in Ho as [-> _]. lra.
  - destruct (minmax_normalize_spread values Hne E) as [-> Hlt].
    intros H. injection H as <-. split; [apply length_map |].
    intros o Ho. apply elem_of_map in Ho as (v & <- & Hv).
    apply normalized_range; [exact Hlt |].
    split; [apply (min_list_spec values Hne), Hv | apply (max_list_spec values Hne), Hv].
Qed.

(** X16. The normalisation keeps the order of the values: a value that is
    not greater than another gets a norm that is not greater. Unless the
    values are all equal, a least value gets the norm 0 and a greatest
    value gets the norm 1. *)
Theorem minmax_normalize_keeps_order (values out : list Q) :
  minmax_normalize values = Ok out ->
  (forall i j v w o p,
     values !! i = Some v -> values !! j = Some w ->
     out !! i = Some o -> out !! j = Some p ->
     v <= w -> o <= p)
  /\ (~ NormalizeSpec.all_equal values ->
      forall i v o,
        values !! i = Some v -> out !! i = Some o ->
        (NormalizeSpec.is_min v values -> o == 0)
        /\ (NormalizeSpec.is_max v values -> o == 1)).
Proof.
  destruct (decide (values = [])) as [-> | Hne].
  { intros H. injection H as <-. split.
    - intros i j v w o p Hv. rewrite lookup_nil in Hv. discriminate.
    - intros _ i v o Hv. rewrite lookup_nil in Hv. discriminate. }
  destruct (eqb (max_list values) (min_list values)) eqn:E.
  - destruct (minmax_normalize_equal values Hne E) as [-> Heq].
    intros H. injection H as <-. split.
    + intros i j v w o p _ _ Ho Hp _.
      apply lookup_replicate in Ho as [-> _], Hp as [-> _]. lra.
    + intros Hneq. contradiction.
  - destruct (minmax_normalize_spread values Hne E) as [-> Hlt].
    pose proof (min_list_spec values Hne) as [Hmin_in Hmin].
    pose proof (max_list_spec values Hne) as [Hmax_in Hmax].
    intros H. injection H as <-. split.
    + intros i j v w o p Hv Hw Ho Hp Hvw.
      rewrite TableFacts.lookup_map, Hv in Ho. rewrite TableFacts.lookup_map, Hw in Hp.
      injection Ho as <-. injection Hp as <-.
      unfold Qdiv. apply Qmult_le_compat_r; [lra |].
      apply Qlt_le_weak, Qinv_lt_0_compat. lra.
    + intros _ i v o Hv Ho.
      rewrite TableFacts.lookup_map, Hv in Ho. injection Ho as <-.
      split; intros [Hin Hall].
      * assert (Ev : v == min_list values).
        { apply Qle_antisym; [apply Hall, Hmin_in | apply Hmin, Hin]. }
        rewrite Ev. field. lra.
      * assert (Ev : v == max_list values).
        { apply Qle_antisym; [apply Hmax, Hin | apply Hall, Hmax_in]. }
        rewrite Ev. field. lra.
Qed.

Lemma minmax_normalize_keeps_order_witness :
  exists out,
    minmax_normalize [2; 3; 4] = Ok out
    /\ forall o p, out !! 0%nat = Some o -> out !! 2%nat = Some p -> o <= p.
Proof.
  destruct (minmax_normalize_total [2; 3; 4]) as [out Hout].
  exists out. split; [exact Hout |].
  intros o p Ho Hp.
  apply (proj1 (minmax_normalize_keeps_order [2; 3; 4] out Hout) 0%nat 2%nat 2 4 o p);
    [reflexivity | reflexivity | exact Ho | exact Hp | lra].
Defined.

Lemma default_in_unit (norms : list Q) (idx : nat) :
  (forall o, o ∈ norms -> 0 <= o <= 1) -> 0 <= default 0 (norms !! idx) <= 1.
Proof.
  intros H. destruct (norms !! idx) as [o |] eqn:E; cbn [default from_option].
  - unfold id. apply H. eapply list_elem_of_lookup_2. exact E.
  - lra.
Qed.

Lemma norms_in_range_outside (h : list Candidate) (r : nat) :
  (length h <= r)%nat -> norms_in_range (h !!! r).
Proof.
  intros Hr. rewrite list_lookup_total_alt, (lookup_ge_None_2 h r Hr).
  unfold norms_in_range. cbn. lra.
Qed.

Lemma foldl_set_norms_range (a m v : list Q) (l : list (nat * nat)) (h : list Candidate) :
  (forall o, o ∈ a -> 0 <= o <= 1) ->
  (forall o, o ∈ m -> 0 <= o <= 1) ->
  (forall o, o ∈ v -> 0 <= o <= 1) ->
  forall r,
    norms_in_range (h !!! r) \/ (exists idx, (idx, r) ∈ l) ->
    norms_in_range
      (foldl (fun h' '(idx, r) =>
                alter (set_norms (default 0 (a !! idx)) (default 0 (m !! idx))
                                 (default 0 (v !! idx))) r h')
             h l !!! r).
Proof.
  intros Ha Hm Hv. revert h. induction l as [| [idx x] l IH]; intros h r H; cbn [foldl].
  - destruct H as [H | [idx H]]; [exact H | inversion H].
  - apply IH. rewrite list_lookup_total_alter.
    assert (Hset : forall c, norms_in_range
                               (set_norms (default 0 (a !! idx)) (default 0 (m !! idx))
                                          (default 0 (v !! idx)) c)).
    { intros c. unfold norms_in_range. cbn.
      split; [apply default_in_unit, Ha |].
      split; [apply default_in_unit, Hm | apply default_in_unit, Hv]. }
    destruct (decide (x = r /\ (x < length h)%nat)) as [[-> Hlt] | Hno].
    + left. apply Hset.
    + destruct H as [H | [idx' H]]; [left; exact H |].
      apply elem_of_cons in H as [H | H]; [| right; exists idx'; exact H].
      injection H as -> ->. left. apply norms_in_range_outside.
      destruct (decide (x < length h)%nat); [exfalso; apply Hno; split; [reflexivity | assumption] | lia].
Qed.

Lemma normalize_by_position_body_range (grouped : gmap string (list nat))
    (h h' : list Candidate) (pos : string) :
  normalize_by_position_body grouped h pos = Ok h' ->
  forall r,
    norms_in_range (h !!! r) \/ r ∈ default [] (grouped !! pos) ->
    norms_in_range (h' !!! r).
Proof.
  unfold normalize_by_position_body.
  destruct (default [] (grouped !! pos)) as [| r0 group] eqn:E.
  - intros H r [Hr | Hr]; [injection H as <-; exact Hr | inversion Hr].
  - destruct (minmax_normalize (map (fun r => attack_raw (h !!! r)) (r0 :: group)))
      as [a |] eqn:Ea; cbn [bind]; [| discriminate].
    destruct (minmax_normalize (map (fun r => minutes_raw (h !!! r)) (r0 :: group)))
      as [m |] eqn:Em; cbn [bind]; [| discriminate].
    destruct (minmax_normalize (map (fun r => value_raw (h !!! r)) (r0 :: group)))
      as [v |] eqn:Ev; cbn [bind]; [| discriminate].
    intros H r Hr. injection H as <-.
    apply (foldl_set_norms_range a m v (imap (fun idx r => (idx, r)) (r0 :: group)) h).
    + apply (minmax_normalize_range _ _ Ea).
    + apply (minmax_normalize_range _ _ Em).
    + apply (minmax_normalize_range _ _ Ev).
    + destruct Hr as [Hr | Hr]; [left; exact Hr | right].
      apply list_elem_of_lookup_1 in Hr as [idx Hidx].
      exists idx. apply elem_of_lookup_imap. exists idx, r. split; [reflexivity | exact Hidx].
Qed.

Lemma normalize_loop_range (grouped : gmap string (list nat)) (positions : list string)
    (h h' : list Candidate) :
  for_each (normalize_by_position_body grouped) positions h = Ok h' ->
  forall r,
    norms_in_range (h !!! r)
    \/ (exists pos, pos ∈ positions /\ r ∈ default [] (grouped !! pos)) ->
    norms_in_range (h' !!! r).
Proof.
  revert h. induction positions as [| pos positions IH]; intros h Hrun r Hr.
  - cbn [for_each] in Hrun. injection Hrun as <-.
    destruct Hr as [Hr | (pos & Hpos & _)]; [exact Hr | inversion Hpos].
  - cbn [for_each] in Hrun.
    destruct (normalize_by_position_body grouped h pos) as [h1 |] eqn:Ebody;
      cbn [bind] in Hrun; [| discriminate].
    apply (IH h1 Hrun).
    destruct Hr as [Hr | (pos' & Hpos' & Hr)].
    + left. apply (normalize_by_position_body_range _ _ _ _ Ebody). left. exact Hr.
    + apply elem_of_cons in Hpos' as [-> | Hpos'].
      * left. apply (normalize_by_position_body_range _ _ _ _ Ebody). right. exact Hr.
      * right. exists pos'. split; assumption.
Qed.

Lemma normalize_by_position_range
    (candidates : list nat) (positions : list string) (h : list Candidate) :
  exists h',
    normalize_by_position candidates positions h = Ok h'
    /\ length h' = length h
    /\ (forall r, set_norms 0 0 0 (h' !!! r) = set_norms 0 0 0 (h !!! r))
    /\ forall r, r ∈ candidates -> position (h !!! r) ∈ positions ->
         norms_in_range (h' !!! r).
Proof.
  destruct (normalize_by_position_spec candidates positions h) as (h' & Hrun & Hlen & Hsame).
  exists h'. split; [exact Hrun |]. split; [exact Hlen |]. split; [exact Hsame |].
  intros r Hr Hpos. unfold normalize_by_position in Hrun.
  apply (normalize_loop_range _ _ _ _ Hrun). right.
  exists (position (h !!! r)). split; [exact Hpos |].
  rewrite group_by_position_lookup. unfold of_position.
  apply elem_of_filter_bool. split; [exact Hr | apply String.eqb_refl].
Qed.

(** X17. [normalize_by_position] raises nothing, changes nothing but the
    three normalised signals of the candidates, and leaves these signals
    between 0 and 1 for every candidate whose position is one of the
    requested positions. *)
Theorem normalize_by_position_norms_in_range
    (candidates : list nat) (positions : list string) (h : list Candidate) :
  exists h',
    normalize_by_position candidates positions h = Ok h'
    /\ length h' = length h
    /\ (forall r, set_norms 0 0 0 (h' !!! r) = set_norms 0 0 0 (h !!! r))
    /\ forall r, r ∈ candidates -> position (h !!! r) ∈ positions ->
         norms_in_range (h' !!! r).
Proof. apply normalize_by_position_range. Qed.

(** *** Scores *)




Section Pipeline.
Variable float : string -> option Q.
Variable upper : string -> string.


End Pipeline.


(** *** The kept candidates *)

Lemma rank_candidates_body_length (top_n : Z) (st : RankState) (pos : string) :
  length (st_heap (rank_candidates_body top_n st pos)) = length (st_heap st).
Proof.
  unfold rank_candidates_body. cbn [st_heap].
  apply (foldl_alter_frame (fun _ => tt)
           (fun idx => set_rank_position (Z.of_nat idx + 1))).
  intros i c. reflexivity.
Qed.

Lemma rank_loop_length (top_n : Z) (positions : list string) (st : RankState) :
  length (st_heap (foldl (rank_candidates_body top_n) st positions)) = length (st_heap st).
Proof.
  revert st. induction positions as [| pos ps IH]; intros st; cbn [foldl]; [reflexivity |].
  rewrite IH. apply rank_candidates_body_length.
Qed.

Lemma elem_of_concat {A : Type} (ls : list (list A)) (x : A) :
  x ∈ concat ls <-> exists l, l ∈ ls /\ x ∈ l.
Proof.
  rewrite list_elem_of_In, List.in_concat. split; intros (l & H1 & H2); exists l;
    rewrite ?list_elem_of_In in *; split; assumption.
Qed.

Lemma rank_candidates_top_n
    (candidates : list nat) (positions : list string) (top_n : Z)
    (w_attack w_minutes w_value w_fixture : Q) (h : list Candidate) :
  NoDup candidates ->
  (forall r, r ∈ candidates -> (r < length h)%nat) ->
  exists h' ranked rows_by_position,
    rank_candidates candidates positions top_n w_attack w_minutes w_value w_fixture h
    = (h', ranked, rows_by_position)
    /\ (forall pos, pos ∈ positions ->
          rows_by_position !! pos
          = Some (Z.min (Z.max 0 top_n) (len (of_position h pos candidates))))
    /\ (forall r, r ∈ ranked ->
          r ∈ candidates /\ position (h !!! r) ∈ positions
          /\ (1 <= rank_position (h' !!! r) <= Z.max 0 top_n)%Z)
    /\ (NoDup positions ->
        NoDup ranked /\ (length ranked <= length candidates)%nat).
Proof.
  intros Hnd Hvalid. unfold rank_candidates.
  set (h1 := score_candidates w_attack w_minutes w_value w_fixture candidates h).
  assert (Hvalid1 : forall r, r ∈ candidates -> (r < length h1)%nat).
  { intros r Hr. unfold h1. rewrite score_candidates_length. apply Hvalid, Hr. }
  pose proof (rank_loop_invariant top_n candidates h1 Hnd Hvalid1 positions [] _
                (rank_loop_start top_n candidates h1 positions)) as Hinv.
  cbn [app] in Hinv.
  set (st := foldl (rank_candidates_body top_n) _ positions) in *.
  destruct Hinv as (_ & _ & _ & Hranked & Hranks & Hrows).
  assert (Hmember : forall r, r ∈ st_ranked st ->
            exists pos, pos ∈ positions /\ r ∈ top_group top_n h1 pos candidates).
  { intros r Hr. rewrite Hranked in Hr.
    apply elem_of_concat in Hr as (l & Hl & Hr).
    apply elem_of_map in Hl as (pos & <- & Hpos). exists pos. split; assumption. }
  assert (Hsize : forall pos,
            (length (top_group top_n h1 pos candidates) <= Z.to_nat (Z.max 0 top_n))%nat).
  { intros pos. unfold top_group, first_n. rewrite length_take. lia. }
  exists (st_heap st), (st_ranked st), (st_rows_by_position st).
  split; [reflexivity |]. split; [| split].
  - intros pos Hpos. rewrite (Hrows pos Hpos). f_equal.
    unfold top_group, first_n, len, sorted_group.
    rewrite length_take, sort_by_length. unfold h1. rewrite of_position_scored. lia.
  - intros r Hr. destruct (Hmember r Hr) as (pos & Hpos & Htop).
    pose proof (top_group_elem_of top_n candidates h1 pos r Htop) as [Hin Hp].
    unfold h1 in Hp. rewrite score_candidates_same_position in Hp.
    split; [exact Hin |]. split; [rewrite Hp; exact Hpos |].
    apply list_elem_of_lookup_1 in Htop as [i Hi].
    rewrite (Hranks pos Hpos i r Hi).
    apply lookup_lt_Some in Hi. specialize (Hsize pos). lia.
  - intros Hpositions.
    assert (Hnd' : NoDup (st_ranked st)).
    { rewrite Hranked. clear Hranked Hranks Hrows Hmember st.
      induction Hpositions as [| pos ps Hpos _ IH]; [constructor |].
      cbn [map concat]. apply NoDup_app. split; [| split; [| exact IH]].
      - apply (top_group_NoDup top_n candidates h1 Hnd).
      - intros r Hr Hr'. apply elem_of_concat in Hr' as (l & Hl & Hr').
        apply elem_of_map in Hl as (pos' & <- & Hpos').
        apply top_group_elem_of in Hr as [_ Hp]. apply top_group_elem_of in Hr' as [_ Hp'].
        apply Hpos. rewrite <- Hp, Hp'. exact Hpos'. }
    split; [exact Hnd' |].
    apply submseteq_length, NoDup_submseteq; [exact Hnd' |].
    intros r Hr. destruct (Hmember r Hr) as (pos & _ & Htop).
    apply (top_group_elem_of top_n candidates h1 pos r Htop).
Qed.

(** X19. [rank_candidates] keeps, for each requested position, the first
    [max(0, top_n)] candidates of the position, or all of them when they are
    fewer, and counts them; every kept candidate is a listed candidate of a
    requested position with a rank between 1 and [max(0, top_n)]; when the
    positions are distinct no candidate is kept twice, so that no more
    candidates are kept than are listed. *)
Theorem rank_candidates_keeps_top_n
    (candidates : list nat) (positions : list string) (top_n : Z)
    (w_attack w_minutes w_value w_fixture : Q) (h : list Candidate) :
  NoDup candidates ->
  (forall r, r ∈ candidates -> (r < length h)%nat) ->
  exists h' ranked rows_by_position,
    rank_candidates candidates positions top_n w_attack w_minutes w_value w_fixture h
    = (h', ranked, rows_by_position)
    /\ (forall pos, pos ∈ positions ->
          rows_by_position !! pos
          = Some (Z.min (Z.max 0 top_n) (len (of_position h pos candidates))))
    /\ (forall r, r ∈ ranked ->
          r ∈ candidates /\ position (h !!! r) ∈ positions
          /\ (1 <= rank_position (h' !!! r) <= Z.max 0 top_n)%Z)
    /\ (NoDup positions ->
        NoDup ranked /\ (length ranked <= length candidates)%nat).
Proof. apply rank_candidates_top_n. Qed.

Lemma rank_candidates_keeps_top_n_witness :
  exists h' ranked rows_by_position,
    rank_candidates [0; 1; 2; 3]%nat ["MID"; "FWD"]%string 2
      default_w_attack default_w_minutes default_w_value default_w_fixture
      Examples.sample_heap
    = (h', ranked, rows_by_position)
    /\ rows_by_position !! "MID"%string = Some 2%Z
    /\ rows_by_position !! "FWD"%string = Some 1%Z
    /\ (length ranked <= 4)%nat.
Proof.
  destruct (rank_candidates_keeps_top_n [0; 1; 2; 3]%nat ["MID"; "FWD"]%string 2
              default_w_attack default_w_minutes default_w_value default_w_fixture
              Examples.sample_heap)
    as (h' & ranked & rbp & Hrun & Hrows & _ & Hlen).
  - apply (bool_decide_unpack _). vm_compute. exact I.
  - intros r Hr.
    repeat (apply elem_of_cons in Hr as [-> | Hr]; [cbn; lia |]). inversion Hr.
  - exists h', ranked, rbp. split; [exact Hrun |].
    split; [rewrite Hrows by (left); reflexivity |].
    split; [rewrite Hrows by (right; left); reflexivity |].
    apply Hlen. apply (bool_decide_unpack _). vm_compute. exact I.
Defined.

(** X20. [rank_candidates] changes nothing but the score and the rank of
    the candidates: the store keeps its size and every cell keeps its
    identity, its raw signals and its normalised signals. *)
Theorem rank_candidates_changes_score_and_rank_only
    (candidates : list nat) (positions : list string) (top_n : Z)
    (w_attack w_minutes w_value w_fixture : Q) (h : list Candidate) :
  let h' := (rank_candidates candidates positions top_n
               w_attack w_minutes w_value w_fixture h).1.1 in
  length h' = length h
  /\ forall r, set_rank_position 0 (set_score 0 (h' !!! r))
               = set_rank_position 0 (set_score 0 (h !!! r)).
Proof.
  unfold rank_candidates. cbn [fst]. cbv zeta.
  set (h1 := score_candidates w_attack w_minutes w_value w_fixture candidates h).
  split.
  - rewrite rank_loop_length. cbn [st_heap]. unfold h1. apply score_candidates_length.
  - intros r.
    pose proof (rank_loop_frame top_n positions
                  (mkRankState h1 (group_by_position h1 candidates positions) [] ∅) r) as H.
    cbn [st_heap] in H.
    change (set_rank_position 0 (set_score 0 ?c))
      with (set_score 0 (set_rank_position 0 c)).
    rewrite H. unfold h1. rewrite score_candidates_lookup.
    destruct (decide _); reflexivity.
Qed.

(** *** Ties *)

Lemma Q_tie (a b : Q) : eqb a b = false -> ltb a b = false -> ltb b a = false -> False.
Proof.
  intros E H1 H2. apply eqb_neq in E. apply ltb_ge in H1, H2. apply E. lra.
Qed.

Lemma string_tie (a b : string) :
  String.eqb a b = false -> String.ltb a b = false -> String.ltb b a = false -> False.
Proof.
  intros E H1 H2. apply String.eqb_neq in E.
  pose proof (str_not_ltb b a H1 (not_eq_sym E)) as H. apply str_ltb_lt in H. congruence.
Qed.

(** X21. The order of the ranking leaves no tie between different keys:
    when neither of two candidates comes strictly before the other, they
    have the same score, the same value for money, the same price, the
    same name and the same team. *)
Theorem sort_key_ties_are_equal_keys (c1 c2 : Candidate) :
  key_lt (sort_key c1) (sort_key c2) = false ->
  key_lt (sort_key c2) (sort_key c1) = false ->
  score c1 == score c2 /\ value_raw c1 == value_raw c2 /\ price c1 == price c2
  /\ player c1 = player c2 /\ team c1 = team c2.
Proof.
  unfold key_lt, sort_key.
  rewrite (eqb_sym (- score c2)), (eqb_sym (- value_raw c2)), (eqb_sym (price c2)).
  rewrite (String.eqb_sym (player c2)), (String.eqb_sym (team c2)).
  destruct (eqb (- score c1) (- score c2)) eqn:E1; cbn [negb];
    [| intros H1 H2; destruct (Q_tie _ _ E1 H1 H2)].
  destruct (eqb (- value_raw c1) (- value_raw c2)) eqn:E2; cbn [negb];
    [| intros H1 H2; destruct (Q_tie _ _ E2 H1 H2)].
  destruct (eqb (price c1) (price c2)) eqn:E3; cbn [negb];
    [| intros H1 H2; destruct (Q_tie _ _ E3 H1 H2)].
  destruct (String.eqb (player c1) (player c2)) eqn:E4; cbn [negb];
    [| intros H1 H2; destruct (string_tie _ _ E4 H1 H2)].
  destruct (String.eqb (team c1) (team c2)) eqn:E5; cbn [negb];
    [| intros H1 H2; destruct (string_tie _ _ E5 H1 H2)].
  intros _ _. apply eqb_eq in E1, E2, E3. apply String.eqb_eq in E4, E5.
  repeat split; try assumption; lra.
Qed.

Lemma sort_key_ties_are_equal_keys_witness :
  price (mkCandidate "Saka" "ARS" "MID" 10 "CHE (H)" 90 0.1 0 0.1 1 0.01 1 0 0.5 0 0.5 0)
  == price (mkCandidate "Saka" "ARS" "MID" (20 # 2) "CHE (A)" 60 0.1 0 0.1 1 0.01 0 0 0 0 0.5 0).
Proof.
  apply (sort_key_ties_are_equal_keys
           (mkCandidate "Saka" "ARS" "MID" 10 "CHE (H)" 90 0.1 0 0.1 1 0.01 1 0 0.5 0 0.5 0)
           (mkCandidate "Saka" "ARS" "MID" (20 # 2) "CHE (A)" 60 0.1 0 0.1 1 0.01 0 0 0 0 0.5 0));
    reflexivity.
Defined.

(** *** The counts *)

Lemma concat_len_total (group : string -> list nat) (rows_by_position : gmap string Z)
    (positions : list string) :
  (forall pos, pos ∈ positions -> rows_by_position !! pos = Some (len (group pos))) ->
  len (concat (map group positions)) = rows_total positions rows_by_position.
Proof.
  unfold len. induction positions as [| pos positions IH]; intros H; [reflexivity |].
  cbn [map concat rows_total foldr]. fold (rows_total positions rows_by_position).
  rewrite length_app, (H pos) by left. cbn [default from_option]. unfold id, len.
  rewrite <- IH by (intros pos' Hpos'; apply H; right; exact Hpos'). lia.
Qed.

Lemma rank_candidates_total
    (candidates : list nat) (positions : list string) (top_n : Z)
    (w_attack w_minutes w_value w_fixture : Q) (h h' : list Candidate)
    (ranked : list nat) (rows_by_position : gmap string Z) :
  NoDup candidates ->
  (forall r, r ∈ candidates -> (r < length h)%nat) ->
  rank_candidates candidates positions top_n w_attack w_minutes w_value w_fixture h
  = (h', ranked, rows_by_position) ->
  len ranked = rows_total positions rows_by_position.
Proof.
  intros Hnd Hvalid. unfold rank_candidates.
  set (h1 := score_candidates w_attack w_minutes w_value w_fixture candidates h).
  assert (Hvalid1 : forall r, r ∈ candidates -> (r < length h1)%nat).
  { intros r Hr. unfold h1. rewrite score_candidates_length. apply Hvalid, Hr. }
  pose proof (rank_loop_invariant top_n candidates h1 Hnd Hvalid1 positions [] _
                (rank_loop_start top_n candidates h1 positions)) as Hinv.
  cbn [app] in Hinv.
  set (st := foldl (rank_candidates_body top_n) _ positions) in *.
  destruct Hinv as (_ & _ & _ & Hranked & _ & Hrows).
  intros H. injection H as _ <- <-.
  rewrite Hranked. apply concat_len_total. exact Hrows.
Qed.

End PipelineFacts.

(** ** The entry points *)

Module EntrypointFacts.
Import Py PyLoops PyFacts LoopFacts.

(** *** build_feature_table.py *)

Section Build.
Import BuildFeatureTable FeatureSpec FeatureFacts TableFacts.
Variable sqrt : Q -> Q.
Variable to_datetime : list (option string) -> nat -> option Z.


End Build.


(** *** phase2_rank_players.py *)

Section Files.
Import Phase2RankPlayers Phase2RankPlayersMain PipelineSpec PositionFacts PipelineFacts.
Import NormalizeFacts RankSpec RankFacts.
Variable float : string -> option Q.
Variable upper : string -> string.
Variable dict_reader : string -> option (list string) * list Row.
Variable csv_writer : list (list string) -> string.
Variable format_fixed : nat -> Q -> string.
Variable str_int : Z -> string.
Variable json_dump : Payload -> string.
Variable resolve : string -> string.

Lemma read_phase1_rows_spec (input : string) (fs : gmap string string) :
  match fs !! input with
  | None =>
    exists msg, read_phase1_rows dict_reader input fs = (Raise (FileNotFoundError msg), fs)
  | Some text =>
    (read_phase1_rows dict_reader input fs = (Ok (snd (dict_reader text)), fs)
     /\ forall column, column ∈ INPUT_REQUIRED_COLUMNS ->
          column ∈ default [] (fst (dict_reader text)))
    \/ ((exists msg, read_phase1_rows dict_reader input fs = (Raise (ValueError msg), fs))
        /\ exists column, column ∈ INPUT_REQUIRED_COLUMNS
                          /\ column ∉ default [] (fst (dict_reader text)))
  end.
Proof.
  unfold read_phase1_rows. destruct (fs !! input) as [text |]; [| eexists; reflexivity].
  destruct (dict_reader text) as [fieldnames rows]. cbn [fst snd].
  destruct (List.filter _ INPUT_REQUIRED_COLUMNS) as [| column missing] eqn:E.
  - left. split; [reflexivity |].
    intros column Hcolumn.
    destruct (decide (column ∈ default [] fieldnames)) as [Hin | Hout]; [exact Hin |].
    exfalso.
    assert (H : column ∈ @nil string).
    { rewrite <- E. apply elem_of_filter_bool. split; [exact Hcolumn |].
      rewrite (bool_decide_eq_false_2 _ Hout). reflexivity. }
    inversion H.
  - right. split; [eexists; reflexivity |].
    exists column.
    assert (H : column ∈ column :: missing) by left.
    rewrite <- E in H. apply elem_of_filter_bool in H as [Hin Hout].
    split; [exact Hin |].
    apply negb_true_iff, bool_decide_eq_false in Hout. exact Hout.
Qed.

(** What [main] does, stage by stage. *)
Lemma main_run input output_csv output_json top_n min_minutes_avg raw wa wm wv wf fs :
  match parse_positions upper raw with
  | Raise e =>
    main float upper dict_reader csv_writer format_fixed str_int json_dump resolve
      input output_csv output_json top_n min_minutes_avg raw wa wm wv wf fs
    = (Raise e, fs)
  | Ok positions =>
    match read_phase1_rows dict_reader input fs with
    | (Raise e, _) =>
      main float upper dict_reader csv_writer format_fixed str_int json_dump resolve
        input output_csv output_json top_n min_minutes_avg raw wa wm wv wf fs
      = (Raise e, fs)
    | (Ok rows, _) =>
      exists cs h1 h' ranked rows_by_position,
        build_candidates float upper rows positions (max2 0 min_minutes_avg) []
        = Ok (cs, seq 0 (length cs))
        /\ (length cs <= length rows)%nat
        /\ normalize_by_position (seq 0 (length cs)) positions cs = Ok h1
        /\ length h1 = length cs
        /\ rank_candidates (seq 0 (length cs)) positions (Z.max 0 top_n) wa wm wv wf h1
           = (h', ranked, rows_by_position)
        /\ main float upper dict_reader csv_writer format_fixed str_int json_dump resolve
             input output_csv output_json top_n min_minutes_avg raw wa wm wv wf fs
           = (Ok tt,
              <[output_json :=
                  String.append
                    (json_dump
                       (mkPayload "1.0" (resolve input) positions
                          (max2 0 min_minutes_avg) (Z.max 0 top_n) wa wm wv wf
                          (len rows) (len (seq 0 (length cs))) (len ranked)
                          rows_by_position))
                    newline]>
                (<[output_csv :=
                     csv_writer (OUTPUT_COLUMNS :: map (csv_line format_fixed str_int)
                                                       (emitted h' ranked))]> fs))
    end
  end.
Proof.
  unfold main, io_bind, io_lift, io_ret, write_output_csv, write_output_json.
  destruct (parse_positions upper raw) as [positions | e]; [| reflexivity].
  pose proof (read_phase1_rows_spec input fs) as Hread.
  destruct (fs !! input) as [text |].
  - destruct Hread as [[Hread _] | [[msg Hread] _]]; rewrite Hread; [| reflexivity].
    destruct (build_candidates_loop float upper positions (max2 0 min_minutes_avg)
                (snd (dict_reader text)) [] []) as (cs & Hbuild & Hlen & _).
    cbn [app length] in Hbuild. fold (build_candidates float upper (snd (dict_reader text))
                                        positions (max2 0 min_minutes_avg) []) in Hbuild.
    destruct (normalize_by_position_spec (seq 0 (length cs)) positions cs)
      as (h1 & Hnorm & Hlen1 & _).
    destruct (rank_candidates (seq 0 (length cs)) positions (Z.max 0 top_n) wa wm wv wf h1)
      as [[h' ranked] rbp] eqn:Erank.
    exists cs, h1, h', ranked, rbp.
    split; [exact Hbuild |]. split; [exact Hlen |]. split; [exact Hnorm |].
    split; [exact Hlen1 |]. split; [exact Erank |].
    rewrite Hbuild. cbv beta iota. rewrite Hnorm. cbv beta iota. rewrite Erank.
    reflexivity.
  - destruct Hread as [msg Hread]. rewrite Hread. reflexivity.
Qed.


(** X26. The metadata of a run agree with its CSV: the CSV has the header
    and one line of thirteen cells for each kept candidate, [output_rows]
    is the number of these lines and the sum of [rows_by_position] over the
    positions, [input_rows] is the number of rows of the input, and
    [output_rows <= eligible_rows <= input_rows]. The recorded filters are
    the parsed positions, distinct and allowed, and the two thresholds
    raised to at least 0, and no position has more rows than the recorded
    threshold. *)
Theorem ranking_metadata_agree_with_csv
    input output_csv output_json top_n min_minutes_avg raw wa wm wv wf fs fs' :
  main float upper dict_reader csv_writer format_fixed str_int json_dump resolve
    input output_csv output_json top_n min_minutes_avg raw wa wm wv wf fs
  = (Ok tt, fs') ->
  exists payload lines text,
    fs' = <[output_json := String.append (json_dump payload) newline]>
            (<[output_csv := csv_writer (OUTPUT_COLUMNS :: lines)]> fs)
    /\ fs !! input = Some text
    /\ (forall line, line ∈ lines -> length line = length OUTPUT_COLUMNS)
    /\ counts_output_rows payload = len lines
    /\ counts_output_rows payload
       = rows_total (filters_positions payload) (counts_rows_by_position payload)
    /\ counts_input_rows payload = len (snd (dict_reader text))
    /\ (counts_output_rows payload <= counts_eligible_rows payload
        <= counts_input_rows payload)%Z
    /\ parse_positions upper raw = Ok (filters_positions payload)
    /\ NoDup (filters_positions payload)
    /\ (forall pos, pos ∈ filters_positions payload -> pos ∈ allowed_positions)
    /\ filters_top_n_per_position payload = Z.max 0 top_n
    /\ filters_min_minutes_avg payload = max2 0 min_minutes_avg
    /\ 0 <= filters_min_minutes_avg payload
    /\ forall pos, pos ∈ filters_positions payload ->
         exists k, counts_rows_by_position payload !! pos = Some k
                   /\ (0 <= k <= filters_top_n_per_position payload)%Z.
Proof.
  pose proof (main_run input output_csv output_json top_n min_minutes_avg raw
                wa wm wv wf fs) as Hrun.
  pose proof (parse_positions_spec upper raw) as Hpos.
  destruct (parse_positions upper raw) as [positions | e0];
    [| rewrite Hrun; intros H; discriminate H].
  destruct Hpos as (_ & Hnd & _ & Hallowed).
  pose proof (read_phase1_rows_spec input fs) as Hread.
  destruct (fs !! input) as [text |] eqn:Efs.
  2: { destruct Hread as [msg Hread]. rewrite Hread in Hrun. rewrite Hrun.
       intros H; discriminate H. }
  destruct Hread as [[Hread _] | [[msg Hread] _]]; rewrite Hread in Hrun.
  2: { rewrite Hrun. intros H; discriminate H. }
  destruct Hrun as (cs & h1 & h' & ranked & rbp & Hbuild & Hlen & Hnorm & Hlen1 & Hrank & ->).
  intros H. injection H as <-.
  assert (Hcands : NoDup (seq 0 (length cs))) by apply NoDup_seq.
  assert (Hvalid : forall r, r ∈ seq 0 (length cs) -> (r < length h1)%nat).
  { intros r Hr. apply elem_of_seq in Hr. lia. }
  destruct (rank_candidates_top_n (seq 0 (length cs)) positions (Z.max 0 top_n)
              wa wm wv wf h1 Hcands Hvalid)
    as (h'' & ranked' & rbp' & Hrank' & Hrows & _ & Hkept).
  rewrite Hrank in Hrank'. injection Hrank' as <- <- <-.
  destruct (Hkept Hnd) as [_ Hle].
  eexists _, _, text. split; [reflexivity |]. cbn.
  split; [reflexivity |].
  split; [intros line Hline; apply elem_of_map in Hline as (c & <- & _); reflexivity |].
  split; [unfold len, emitted; rewrite !length_map; reflexivity |].
  split; [apply (rank_candidates_total _ _ _ _ _ _ _ _ _ _ _ Hcands Hvalid Hrank) |].
  split; [reflexivity |].
  split; [unfold len; rewrite length_seq in *; lia |].
  split; [reflexivity |]. split; [exact Hnd |]. split; [exact Hallowed |].
  split; [reflexivity |]. split; [reflexivity |]. split; [apply max2_ge_l |].
  intros pos Hp. eexists. split; [apply (Hrows pos Hp) |]. unfold len. lia.
Qed.


End Files.


Lemma ranking_metadata_agree_with_csv_witness :
  exists fs' payload lines,
    RankingExamples.sample_main "data/phase1.csv" "MID,FWD" RankingExamples.sample_inputs
    = (Ok tt, fs')
    /\ fs' !! "out/ranked.csv"%string
       = Some (RankingExamples.plain_writer (Phase2RankPlayersMain.OUTPUT_COLUMNS :: lines))
    /\ Phase2RankPlayersMain.counts_output_rows payload = len lines
    /\ (Phase2RankPlayersMain.counts_output_rows payload
        <= Phase2RankPlayersMain.counts_eligible_rows payload
        <= Phase2RankPlayersMain.counts_input_rows payload)%Z.
Proof.
  assert (Hrun : exists fs',
             RankingExamples.sample_main "data/phase1.csv" "MID,FWD"
               RankingExamples.sample_inputs = (Ok tt, fs')).
  { vm_compute. eexists. reflexivity. }
  destruct Hrun as [fs' Hrun].
  destruct (ranking_metadata_agree_with_csv
              Examples.parse_decimal Examples.ascii_upper RankingExamples.sample_reader
              RankingExamples.plain_writer RankingExamples.show_fixed
              RankingExamples.show_int RankingExamples.show_counts (fun path => path)
              "data/phase1.csv" "out/ranked.csv" "out/ranked.meta.json" 2 30 "MID,FWD"
              Phase2RankPlayers.default_w_attack Phase2RankPlayers.default_w_minutes
              Phase2RankPlayers.default_w_value Phase2RankPlayers.default_w_fixture
              RankingExamples.sample_inputs fs' Hrun)
    as (payload & lines & text & -> & _ & _ & Hout & _ & _ & Hle & _).
  eexists _, payload, lines. split; [exact Hrun |].
  split; [| split; [exact Hout | exact Hle]].
  rewrite lookup_insert_ne by discriminate. apply lookup_insert_eq.
Defined.


Example sample_main_csv :
  snd (RankingExamples.sample_main "data/phase1.csv" "MID,FWD" RankingExamples.sample_inputs)
  !! "out/ranked.csv"%string
  = Some (RankingExamples.plain_writer
            [ Phase2RankPlayersMain.OUTPUT_COLUMNS;
              ["Foden"; "MCI"; "MID"; "10.0"; "TBD"; "90.00"; "0.400"; "0.000";
               "0.400000"; "0.040000"; "0"; "0.950000"; "1"];
              ["Palmer"; "CHE"; "MID"; "10.0"; "ARS (A)"; "90.00"; "0.200"; "0.000";
               "0.200000"; "0.020000"; "0"; "0.546970"; "2"] ]%string).
Proof. vm_compute. reflexivity. Qed.

End EntrypointFacts.
